(** * local_webchat: the chat client of [chat-interface.tsx]

    The source file holds two React components: [ChatInterface] (the minimal
    client: one transient message list) and [EnhancedChatInterface] (several
    conversations, persisted settings).  Both are embedded here as state
    machines over the values of their [useState] cells.

    React's rules are written out, because several properties depend on them:
    - an event handler is a closure of one render: it reads the state values
      of that render (the _snapshot_), also after an [await], and so do the
      functions of the component that it calls;
    - a setter call does not change the snapshot; the calls of a handler are
      queued and applied in order to the live state ([setX v] replaces,
      [setX (prev => ...)] transforms what the queue has produced so far),
      so that the last [setX v] of a handler is the one that stays;
    - an effect with a dependency list runs after the commit in which the
      dependency was set.

    The state is typed as the source declares it.  Where the source casts an
    untyped value (a parsed JSON text) to a declared type, the model has a
    cast that is partial, and follows a run only while the values have their
    declared types.  A parsed object that the component keeps and writes
    back is cast only when it has the keys of its type in the order of the
    component's own object literals, so that the record is that object.

    A send is an event of [step] when nothing takes place while its request
    is pending; [Interleaving] splits it into the submit and the answer,
    with other actions in between. *)

From Stdlib Require Import String Ascii ZArith.
From stdpp Require Import base option list gmap.

Set Warnings "-register-all".

(** ** JavaScript strings

    A JavaScript string is a sequence of UTF-16 code units; [length] counts
    code units and [substring] cuts between them. *)

Definition code_unit := N.
Abbreviation jsstring := (list code_unit).

(** A string literal of the source (ASCII only in this file). *)
Definition js (s : string) : jsstring :=
  List.map N_of_ascii (list_ascii_of_string s).

(** [s.substring(a, b)] for non-negative integer arguments: the arguments are
    swapped when [a > b], and both are clamped to the length of [s]. *)
Definition substring (a b : nat) (s : jsstring) : jsstring :=
  let lo := Nat.min a b in
  let hi := Nat.max a b in
  take (hi - lo) (drop lo s).

(** White space and line terminators, as [String.prototype.trim] removes them. *)
Definition isWhiteSpace (c : code_unit) : bool :=
  ((9 <=? c) && (c <=? 13) || (c =? 32) || (c =? 160) || (c =? 5760)
   || (8192 <=? c) && (c <=? 8202) || (c =? 8232) || (c =? 8233)
   || (c =? 8239) || (c =? 8287) || (c =? 12288) || (c =? 65279))%N.

Fixpoint trimStart (s : jsstring) : jsstring :=
  match s with
  | c :: s' => if isWhiteSpace c then trimStart s' else s
  | [] => []
  end.

Definition trim (s : jsstring) : jsstring :=
  reverse (trimStart (reverse (trimStart s))).

(** Truthiness of a string: only the empty string is falsy. *)
Definition nonEmpty (s : jsstring) : bool :=
  match s with [] => false | _ :: _ => true end.

Definition jsstring_eqb (a b : jsstring) : bool := bool_decide (a = b).

(** ** JSON values

    What [JSON.parse] and [response.json()] return.  An object is the list of
    its own properties, keys distinct; numbers are the integers, which is all
    this program reads (a time stamp) or tests (zero is falsy).  A JavaScript
    value that may be [undefined] is an [option json]. *)

Inductive json : Type :=
| JNull
| JBool (b : bool)
| JNum (z : Z)
| JStr (s : jsstring)
| JArr (items : list json)
| JObj (fields : list (jsstring * json)).

Fixpoint assoc (k : jsstring) (fields : list (jsstring * json)) : option json :=
  match fields with
  | [] => None
  | (k', v) :: rest => if jsstring_eqb k' k then Some v else assoc k rest
  end.

(** [v.name] for a value that is neither [null] nor [undefined], and a name
    that no prototype defines ([choices], [message], [content], [host], ...):
    only an object can have it. *)
Definition getProp (name : jsstring) (v : json) : option json :=
  match v with
  | JObj fields => assoc name fields
  | _ => None
  end.

(** [v[0]]: the first element of an array, the property ["0"] of an object,
    the first code unit of a string. *)
Definition getIndex0 (v : json) : option json :=
  match v with
  | JArr (x :: _) => Some x
  | JObj fields => assoc (js "0") fields
  | JStr (c :: _) => Some (JStr [c])
  | _ => None
  end.

(** [o?.p]: [undefined] when [o] is [null] or [undefined]. *)
Definition optChain (o : option json) (access : json -> option json) : option json :=
  match o with
  | None | Some JNull => None
  | Some v => access v
  end.

(** The falsy values are [undefined], [null], [false], [0] and [""]. *)
Definition truthy (o : option json) : bool :=
  match o with
  | None | Some JNull => false
  | Some (JBool b) => b
  | Some (JNum z) => negb (z =? 0)%Z
  | Some (JStr s) => nonEmpty s
  | Some (JArr _) | Some (JObj _) => true
  end.

(** [a || b], for a [b] that is defined. *)
Definition orElse (a : option json) (b : json) : json :=
  match a with
  | Some v => if truthy a then v else b
  | None => b
  end.

(** The cast of an untyped value to the declared type [string]: the typed
    model follows a run only while the values have their declared types. *)
Definition asString (v : json) : option jsstring :=
  match v with JStr s => Some s | _ => None end.

(** The platform's [JSON] object.  [JSON_parse] is [None] where
    [JSON.parse] throws. *)
Class JSONPlatform := {
  JSON_stringify : json -> jsstring;
  JSON_parse : jsstring -> option json
}.

(** ** Messages (the same interface in both components) *)

Inductive Role := user | assistant.

Record Message := { role : Role; content : jsstring }.

Definition encodeRole (r : Role) : json :=
  JStr (match r with user => js "user" | assistant => js "assistant" end).

Definition encodeMessage (m : Message) : json :=
  JObj [(js "role", encodeRole (role m)); (js "content", JStr (content m))].

(** [data?.choices?.[0]?.message?.content || "No response from AI"] *)
Definition aiResponse (data : json) : json :=
  orElse
    (optChain (optChain (optChain (optChain (Some data)
       (getProp (js "choices"))) getIndex0) (getProp (js "message")))
       (getProp (js "content")))
    (JStr (js "No response from AI")).

(** What the two awaits of a send, [fetch] and [response.json()], come to:
    one of them throws, or the second yields the parsed body. *)
Inductive Outcome :=
| Rejected
| Resolved (data : json).

(** A [fetch] call, as far as the handlers determine it. *)
Record Request := {
  url : jsstring;
  method : jsstring;
  headers : list (jsstring * jsstring);
  body : option jsstring
}.

(** The request body of both components. *)
Definition completionBody `{JSONPlatform} (model userMessage : jsstring) : jsstring :=
  JSON_stringify
    (JObj [(js "model", JStr model);
           (js "messages",
            JArr [JObj [(js "role", JStr (js "user"));
                        (js "content", JStr userMessage)]])]).

(** ** The minimal component, [ChatInterface] *)

Module ChatInterface.

Record State := {
  messages : list Message;
  input : jsstring;
  isLoading : bool;
  models : list jsstring;
  selectedModel : jsstring
}.

Definition initialState : State :=
  {| messages := []; input := js ""; isLoading := false; models := [];
     selectedModel := js "" |}.

(** A queued setter call. *)
Inductive Update :=
| setMessages (f : list Message -> list Message)
| setInput (v : jsstring)
| setIsLoading (v : bool)
| setModels (v : list jsstring)
| setSelectedModel (v : jsstring).

Definition applyUpdate (st : State) (u : Update) : State :=
  match u with
  | setMessages f =>
      {| messages := f (messages st); input := input st; isLoading := isLoading st;
         models := models st; selectedModel := selectedModel st |}
  | setInput v =>
      {| messages := messages st; input := v; isLoading := isLoading st;
         models := models st; selectedModel := selectedModel st |}
  | setIsLoading v =>
      {| messages := messages st; input := input st; isLoading := v;
         models := models st; selectedModel := selectedModel st |}
  | setModels v =>
      {| messages := messages st; input := input st; isLoading := isLoading st;
         models := v; selectedModel := selectedModel st |}
  | setSelectedModel v =>
      {| messages := messages st; input := input st; isLoading := isLoading st;
         models := models st; selectedModel := v |}
  end.

Definition applyUpdates (ups : list Update) (st : State) : State :=
  fold_left applyUpdate ups st.

Section Handlers.
Context `{JSONPlatform}.

(** [handleSendMessage] up to its [await]: [None] is the early [return]. *)
Definition handleSendMessage_begin (snap : State) : option (Request * list Update) :=
  if negb (nonEmpty (trim (input snap))) || negb (nonEmpty (selectedModel snap))
  then None
  else
    let userMessage := input snap in
    Some ({| url := js "http://localhost:1234/v1/chat/completions";
             method := js "POST";
             headers := [(js "Content-Type", js "application/json")];
             body := Some (completionBody (selectedModel snap) userMessage) |},
          [setMessages (fun prev => prev ++ [{| role := user; content := userMessage |}]);
           setInput (js "");
           setIsLoading true]).

(** [handleSendMessage] after the [await]s: the [try] body, the [catch] and
    the [finally].  [None]: the reply's content is not a string. *)
Definition handleSendMessage_resume (outcome : Outcome) : option (list Update) :=
  match outcome with
  | Resolved data =>
      aiResponse ← asString (aiResponse data);
      Some [setMessages (fun prev => prev ++ [{| role := assistant; content := aiResponse |}]);
            setIsLoading false]
  | Rejected =>
      Some [setMessages (fun prev => prev ++
              [{| role := assistant;
                  content := js "Sorry, there was an error processing your request." |}]);
            setIsLoading false]
  end.

(** One send, with nothing else happening while the request is pending:
    the request issued, if any, and the state at the end. *)
Definition handleSendMessage (outcome : Outcome) (st : State)
  : option (option Request * State) :=
  match handleSendMessage_begin st with
  | None => Some (None, st)
  | Some (req, ups1) =>
      ups2 ← handleSendMessage_resume outcome;
      Some (Some req, applyUpdates ups2 (applyUpdates ups1 st))
  end.

End Handlers.

End ChatInterface.

(** ** The enhanced component, [EnhancedChatInterface] *)

Module EnhancedChatInterface.

Record Conversation := {
  id : jsstring;
  title : jsstring;
  messages : list Message;
  model : jsstring;
  timestamp : Z
}.

Record ServerSettings := { host : jsstring; port : jsstring }.

Record State := {
  currentConversation : Conversation;
  conversations : list Conversation;
  input : jsstring;
  isLoading : bool;
  models : list jsstring;
  isDarkMode : bool;
  isMobileMenuOpen : bool;
  isSidebarOpen : bool;
  isSettingsOpen : bool;
  serverSettings : ServerSettings;
  tempSettings : ServerSettings
}.

(** [generateId]: [random36] is the value of [Math.random().toString(36)]. *)
Definition generateId (random36 : jsstring) : jsstring :=
  substring 2 15 random36.

(** The initial values of the [useState] cells. *)
Definition initialState (random36 : jsstring) (now : Z) : State :=
  {| currentConversation :=
       {| id := generateId random36; title := js "New Conversation";
          messages := []; model := js ""; timestamp := now |};
     conversations := [];
     input := js "";
     isLoading := false;
     models := [];
     isDarkMode := false;
     isMobileMenuOpen := false;
     isSidebarOpen := false;
     isSettingsOpen := false;
     serverSettings := {| host := js "localhost"; port := js "1234" |};
     tempSettings := {| host := js "localhost"; port := js "1234" |} |}.

(** A queued setter call. *)
Inductive Update :=
| setCurrentConversation (v : Conversation)
| setConversations (f : list Conversation -> list Conversation)
| setInput (v : jsstring)
| setIsLoading (v : bool)
| setModels (v : list jsstring)
| setIsDarkMode (v : bool)
| setIsMobileMenuOpen (v : bool)
| setIsSidebarOpen (v : bool)
| setIsSettingsOpen (v : bool)
| setServerSettings (v : ServerSettings)
| setTempSettings (v : ServerSettings).

Definition applyUpdate (st : State) (u : Update) : State :=
  let '{| currentConversation := cur; conversations := cs; input := i;
          isLoading := l; models := ms; isDarkMode := d; isMobileMenuOpen := mm;
          isSidebarOpen := sb; isSettingsOpen := so; serverSettings := ss;
          tempSettings := ts |} := st in
  match u with
  | setCurrentConversation v => Build_State v cs i l ms d mm sb so ss ts
  | setConversations f => Build_State cur (f cs) i l ms d mm sb so ss ts
  | setInput v => Build_State cur cs v l ms d mm sb so ss ts
  | setIsLoading v => Build_State cur cs i v ms d mm sb so ss ts
  | setModels v => Build_State cur cs i l v d mm sb so ss ts
  | setIsDarkMode v => Build_State cur cs i l ms v mm sb so ss ts
  | setIsMobileMenuOpen v => Build_State cur cs i l ms d v sb so ss ts
  | setIsSidebarOpen v => Build_State cur cs i l ms d mm v so ss ts
  | setIsSettingsOpen v => Build_State cur cs i l ms d mm sb v ss ts
  | setServerSettings v => Build_State cur cs i l ms d mm sb so v ts
  | setTempSettings v => Build_State cur cs i l ms d mm sb so ss v
  end.

Definition applyUpdates (ups : list Update) (st : State) : State :=
  fold_left applyUpdate ups st.

(** [prev.map((c) => (c.id === id ? replacement : c))] *)
Definition replaceById (i : jsstring) (replacement : Conversation)
    (prev : list Conversation) : list Conversation :=
  List.map (fun c => if jsstring_eqb (id c) i then replacement else c) prev.

(** *** Handlers that need no platform service *)

Definition startNewChat (snap : State) (random36 : jsstring) (now : Z) : list Update :=
  let newConversation :=
    {| id := generateId random36;
       title := js "New Conversation";
       messages := [];
       model := model (currentConversation snap);
       timestamp := now |} in
  [setCurrentConversation newConversation;
   setConversations (fun prev => newConversation :: prev);
   setInput (js "");
   setIsMobileMenuOpen false;
   setIsSidebarOpen false].

Definition switchConversation (snap : State) (i : jsstring) : list Update :=
  match List.find (fun c => jsstring_eqb (id c) i) (conversations snap) with
  | Some conversation => [setCurrentConversation conversation; setIsSidebarOpen false]
  | None => []
  end.

(** The title derived from the first message. *)
Definition deriveTitle (userMessage : jsstring) : jsstring :=
  if (30 <? length userMessage)%nat
  then substring 0 30 userMessage ++ js "..."
  else userMessage.

(** [updateConversationTitle]: [currentConversation] is the snapshot's, so
    the spread [{...currentConversation, title}] carries the snapshot's
    message list and time stamp. *)
Definition updateConversationTitle (snap : State) (msgs : list Message) : list Update :=
  let cur := currentConversation snap in
  if (length msgs =? 2)%nat && jsstring_eqb (title cur) (js "New Conversation")
  then
    match msgs !! 0%nat with
    | Some first =>
        let userMessage := content first in
        let updatedConversation :=
          {| id := id cur; title := deriveTitle userMessage;
             messages := messages cur; model := model cur;
             timestamp := timestamp cur |} in
        [setCurrentConversation updatedConversation;
         setConversations (replaceById (id cur) updatedConversation)]
    | None => []
    end
  else [].

Definition handleModelChange (snap : State) (m : jsstring) : list Update :=
  let cur := currentConversation snap in
  let updatedConversation :=
    {| id := id cur; title := title cur; messages := messages cur;
       model := m; timestamp := timestamp cur |} in
  [setCurrentConversation updatedConversation;
   setConversations (replaceById (id cur) updatedConversation)].

(** *** Persisted data

    What [JSON.stringify] is given, and the cast of what [JSON.parse] returns
    to the declared types.  The component keeps the parsed object itself in
    its state and later writes that object back, own keys in their stored
    order; a record stands for an object with exactly the keys of its type,
    in the order of the component's own object literals (l.222-228, 243-252,
    316-322, 395, 428, and the spreads, which keep the order).  So the cast
    takes exactly the values of that form, for which the record and the
    object are the same data ([asConversations_exact],
    [asServerSettings_exact]); on any other value it is [None], and the
    typed model does not follow the run. *)

Definition encodeConversation (c : Conversation) : json :=
  JObj [(js "id", JStr (id c));
        (js "title", JStr (title c));
        (js "messages", JArr (encodeMessage <$> messages c));
        (js "model", JStr (model c));
        (js "timestamp", JNum (timestamp c))].

Definition encodeServerSettings (s : ServerSettings) : json :=
  JObj [(js "host", JStr (host s)); (js "port", JStr (port s))].

Definition asRole (v : json) : option Role :=
  s ← asString v;
  if jsstring_eqb s (js "user") then Some user
  else if jsstring_eqb s (js "assistant") then Some assistant
  else None.

Definition asNumber (v : json) : option Z :=
  match v with JNum z => Some z | _ => None end.

Definition asArray (v : json) : option (list json) :=
  match v with JArr l => Some l | _ => None end.

(** A property read and cast. *)
Definition field {A} (name : string) (cast : json -> option A) (v : json) : option A :=
  match getProp (js name) v with
  | Some x => cast x
  | None => None
  end.

Definition asMessage (v : json) : option Message :=
  match v with
  | JObj [(k1, v1); (k2, v2)] =>
      if jsstring_eqb k1 (js "role") && jsstring_eqb k2 (js "content") then
        r ← asRole v1;
        c ← asString v2;
        Some {| role := r; content := c |}
      else None
  | _ => None
  end.

Definition asMessages (v : json) : option (list Message) :=
  l ← asArray v; mapM asMessage l.

Definition asConversation (v : json) : option Conversation :=
  match v with
  | JObj [(k1, v1); (k2, v2); (k3, v3); (k4, v4); (k5, v5)] =>
      if jsstring_eqb k1 (js "id") && jsstring_eqb k2 (js "title")
         && jsstring_eqb k3 (js "messages") && jsstring_eqb k4 (js "model")
         && jsstring_eqb k5 (js "timestamp") then
        i ← asString v1;
        t ← asString v2;
        ms ← asMessages v3;
        m ← asString v4;
        ts ← asNumber v5;
        Some {| id := i; title := t; messages := ms; model := m; timestamp := ts |}
      else None
  | _ => None
  end.

Definition asConversations (v : json) : option (list Conversation) :=
  l ← asArray v; mapM asConversation l.

Definition asServerSettings (v : json) : option ServerSettings :=
  match v with
  | JObj [(k1, v1); (k2, v2)] =>
      if jsstring_eqb k1 (js "host") && jsstring_eqb k2 (js "port") then
        h ← asString v1;
        p ← asString v2;
        Some {| host := h; port := p |}
      else None
  | _ => None
  end.

(** The component with the browser's local storage. *)
Record World := {
  ui : State;
  localStorage : gmap jsstring jsstring
}.

Definition isSetConversations (u : Update) : bool :=
  match u with setConversations _ => true | _ => false end.

Definition isSetServerSettings (u : Update) : bool :=
  match u with setServerSettings _ => true | _ => false end.

Section Platform.
Context `{JSONPlatform}.

(** *** Effects *)

(** The mount effect: the queued setter calls.  [prefersDark] is the media
    query's answer. *)
Definition loadConversations (ls : gmap jsstring jsstring) : option (list Update) :=
  match ls !! js "conversations" with
  | Some savedConversations =>
      if nonEmpty savedConversations then
        match JSON_parse savedConversations with
        | Some value =>
            parsed ← asConversations value;
            Some (setConversations (fun _ => parsed) ::
                  match parsed with
                  | first :: _ => [setCurrentConversation first]
                  | [] => []
                  end)
        | None => Some []
        end
      else Some []
  | None => Some []
  end.

Definition loadServerSettings (ls : gmap jsstring jsstring) : option (list Update) :=
  match ls !! js "serverSettings" with
  | Some savedSettings =>
      if nonEmpty savedSettings then
        match JSON_parse savedSettings with
        | Some value =>
            parsed ← asServerSettings value;
            Some [setServerSettings parsed; setTempSettings parsed]
        | None => Some []
        end
      else Some []
  | None => Some []
  end.

Definition initialize (prefersDark : bool) (ls : gmap jsstring jsstring)
  : option (list Update) :=
  cs ← loadConversations ls;
  ss ← loadServerSettings ls;
  Some ((if prefersDark then [setIsDarkMode true] else []) ++ cs ++ ss).

(** The two saving effects, with dependencies [[conversations]] and
    [[serverSettings]]. *)
Definition saveConversations (st : State) (ls : gmap jsstring jsstring)
  : gmap jsstring jsstring :=
  <[js "conversations" :=
      JSON_stringify (JArr (encodeConversation <$> conversations st))]> ls.

Definition saveServerSettings (st : State) (ls : gmap jsstring jsstring)
  : gmap jsstring jsstring :=
  <[js "serverSettings" :=
      JSON_stringify (encodeServerSettings (serverSettings st))]> ls.

(** The effects that follow a commit: those whose dependency was set. *)
Definition runEffects (ups : list Update) (st : State) (ls : gmap jsstring jsstring)
  : gmap jsstring jsstring :=
  let ls1 := if existsb isSetConversations ups then saveConversations st ls else ls in
  if existsb isSetServerSettings ups then saveServerSettings st ls1 else ls1.

(** A handler's queue applied, and the effects run. *)
Definition commit (ups : list Update) (w : World) : World :=
  let st := applyUpdates ups (ui w) in
  {| ui := st; localStorage := runEffects ups st (localStorage w) |}.

(** Mounting the component on a given local storage: the first render, its
    effects in source order (the mount effect reads the storage before the
    saving effects write the initial values), then the commit of what the
    mount effect queued. *)
Definition mount (random36 : jsstring) (now : Z) (prefersDark : bool)
    (ls : gmap jsstring jsstring) : option World :=
  let st0 := initialState random36 now in
  ups ← initialize prefersDark ls;
  Some (commit ups
          {| ui := st0;
             localStorage := saveServerSettings st0 (saveConversations st0 ls) |}).

(** *** Handlers that call the platform *)

Definition fetchModels (snap : State) : Request :=
  let '{| host := host; port := port |} := serverSettings snap in
  {| url := js "http://" ++ host ++ js ":" ++ port ++ js "/v1/models";
     method := js "GET"; headers := []; body := None |}.

(** The continuation of [fetchModels]: [data.data.map((item) => item.id)]
    and [setModels]; a [TypeError] ([data] or an item is [null], [data.data]
    is no array) is caught and logged, like a failed request.  [None]: an
    id is not a string. *)
Definition isNull (v : json) : bool :=
  match v with JNull => true | _ => false end.

Definition fetchModels_then (outcome : Outcome) : option (list Update) :=
  match outcome with
  | Resolved data =>
      match getProp (js "data") data with
      | Some (JArr items) =>
          if existsb isNull items then Some []
          else modelIds ← mapM (field "id" asString) items; Some [setModels modelIds]
      | _ => Some []
      end
  | Rejected => Some []
  end.

(** [saveSettings]: the queue, and the request of its [fetchModels()] call
    (made with the snapshot's settings; the effect on [[serverSettings]]
    then fetches again with the new ones). *)
Definition saveSettings (snap : State) : list Update * Request :=
  ([setServerSettings (tempSettings snap); setIsSettingsOpen false],
   fetchModels snap).

(** [handleSendMessage] up to its [await]: [None] is the early [return].
    [now1] is the first [Date.now()]. *)
Definition handleSendMessage_begin (snap : State) (now1 : Z)
  : option (Request * list Update) :=
  let cur := currentConversation snap in
  if negb (nonEmpty (trim (input snap))) || negb (nonEmpty (model cur))
  then None
  else
    let userMessage := input snap in
    let newMessages := messages cur ++ [{| role := user; content := userMessage |}] in
    let updatedConversation :=
      {| id := id cur; title := title cur; messages := newMessages;
         model := model cur; timestamp := now1 |} in
    let '{| host := host; port := port |} := serverSettings snap in
    Some ({| url := js "http://" ++ host ++ js ":" ++ port ++ js "/v1/chat/completions";
             method := js "POST";
             headers := [(js "Content-Type", js "application/json")];
             body := Some (completionBody (model cur) userMessage) |},
          [setCurrentConversation updatedConversation;
           setConversations (replaceById (id cur) updatedConversation);
           setInput (js "");
           setIsLoading true]).

(** [handleSendMessage] after the [await]s: the rest of the [try] body, the
    [catch] and the [finally], all over the same snapshot.  [now2] is the
    second [Date.now()].  [None]: the reply's content is not a string. *)
Definition handleSendMessage_resume (snap : State) (outcome : Outcome) (now2 : Z)
  : option (list Update) :=
  let cur := currentConversation snap in
  let userMessage := input snap in
  let newMessages := messages cur ++ [{| role := user; content := userMessage |}] in
  match outcome with
  | Resolved data =>
      aiResponse ← asString (aiResponse data);
      let finalMessages := newMessages ++ [{| role := assistant; content := aiResponse |}] in
      let finalConversation :=
        {| id := id cur; title := title cur; messages := finalMessages;
           model := model cur; timestamp := now2 |} in
      Some ([setCurrentConversation finalConversation;
             setConversations (replaceById (id cur) finalConversation)]
            ++ updateConversationTitle snap finalMessages
            ++ [setIsLoading false])
  | Rejected =>
      let errorMessages := newMessages ++
        [{| role := assistant;
            content := js "Sorry, there was an error processing your request." |}] in
      let errorConversation :=
        {| id := id cur; title := title cur; messages := errorMessages;
           model := model cur; timestamp := now2 |} in
      Some [setCurrentConversation errorConversation;
            setConversations (replaceById (id cur) errorConversation);
            setIsLoading false]
  end.

(** One send, with nothing else happening while the request is pending:
    the request issued, if any, and the world at the end. *)
Definition handleSendMessage (now1 : Z) (outcome : Outcome) (now2 : Z) (w : World)
  : option (option Request * World) :=
  let snap := ui w in
  match handleSendMessage_begin snap now1 with
  | None => Some (None, w)
  | Some (req, ups1) =>
      ups2 ← handleSendMessage_resume snap outcome now2;
      Some (Some req, commit ups2 (commit ups1 w))
  end.

(** *** The user's actions and the server's answers

    The handlers that only show or hide a panel or switch the colour scheme
    are left out. *)

Inductive Event :=
| ModelsFetched (outcome : Outcome)
| InputChange (text : jsstring)
| NewChat (random36 : jsstring) (now : Z)
| SwitchTo (i : jsstring)
| Send (now1 : Z) (outcome : Outcome) (now2 : Z)
| ModelChange (m : jsstring)
| HostChange (v : jsstring)
| PortChange (v : jsstring)
| SaveSettings.

Definition step (e : Event) (w : World) : option World :=
  let snap := ui w in
  match e with
  | ModelsFetched outcome => (fun ups => commit ups w) <$> fetchModels_then outcome
  | InputChange text => Some (commit [setInput text] w)
  | NewChat random36 now => Some (commit (startNewChat snap random36 now) w)
  | SwitchTo i => Some (commit (switchConversation snap i) w)
  | Send now1 outcome now2 => snd <$> handleSendMessage now1 outcome now2 w
  | ModelChange m => Some (commit (handleModelChange snap m) w)
  | HostChange v =>
      Some (commit [setTempSettings {| host := v; port := port (tempSettings snap) |}] w)
  | PortChange v =>
      Some (commit [setTempSettings {| host := host (tempSettings snap); port := v |}] w)
  | SaveSettings => Some (commit (fst (saveSettings snap)) w)
  end.

Fixpoint run (es : list Event) (w : World) : option World :=
  match es with
  | [] => Some w
  | e :: es' => step e w ≫= run es'
  end.

End Platform.

End EnhancedChatInterface.

(** ** A reference [JSON] platform

    A printer and a reader for the JSON texts of [json] values, to evaluate
    the components on concrete storage contents.  The reader accepts the JSON
    grammar with integer numbers ([json] has no others); the printer writes
    no white space and escapes as [JSON.stringify] does (quotes, backslashes
    and control characters; surrogates are written as they are). *)

Module ReferenceJSON.

Fixpoint digits (fuel : nat) (n : N) (acc : jsstring) : jsstring :=
  match fuel with
  | O => acc
  | S fuel' =>
      let d := (48 + n mod 10)%N in
      if (n <? 10)%N then d :: acc else digits fuel' (n / 10)%N (d :: acc)
  end.

Definition showZ (z : Z) : jsstring :=
  let n := Z.abs_N z in
  (if (z <? 0)%Z then js "-" else []) ++ digits (S (N.to_nat (N.log2 n))) n [].

Definition hexDigit (n : N) : code_unit :=
  if (n <? 10)%N then (48 + n)%N else (87 + n)%N.

Definition escapeUnit (c : code_unit) : jsstring :=
  if (c =? 34)%N then js "\" ++ [34%N]
  else if (c =? 92)%N then js "\\"
  else if (c =? 8)%N then js "\b"
  else if (c =? 9)%N then js "\t"
  else if (c =? 10)%N then js "\n"
  else if (c =? 12)%N then js "\f"
  else if (c =? 13)%N then js "\r"
  else if (c <? 32)%N then js "\u00" ++ [hexDigit (c / 16); hexDigit (c mod 16)]
  else [c].

Definition quote (s : jsstring) : jsstring :=
  [34%N] ++ concat (escapeUnit <$> s) ++ [34%N].

Fixpoint joinWith (sep : jsstring) (parts : list jsstring) : jsstring :=
  match parts with
  | [] => []
  | [p] => p
  | p :: rest => p ++ sep ++ joinWith sep rest
  end.

Fixpoint stringify (v : json) : jsstring :=
  match v with
  | JNull => js "null"
  | JBool true => js "true"
  | JBool false => js "false"
  | JNum z => showZ z
  | JStr s => quote s
  | JArr items => js "[" ++ joinWith (js ",") (List.map stringify items) ++ js "]"
  | JObj fields =>
      js "{" ++
      joinWith (js ",")
        (List.map (fun kv => quote (fst kv) ++ js ":" ++ stringify (snd kv)) fields)
      ++ js "}"
  end.

(** The reader. *)

Fixpoint skipWs (s : jsstring) : jsstring :=
  match s with
  | c :: s' =>
      if ((c =? 32) || (c =? 9) || (c =? 10) || (c =? 13))%N then skipWs s' else s
  | [] => []
  end.

Definition hexValue (c : code_unit) : option N :=
  if ((48 <=? c) && (c <=? 57))%N then Some (c - 48)%N
  else if ((97 <=? c) && (c <=? 102))%N then Some (c - 87)%N
  else if ((65 <=? c) && (c <=? 70))%N then Some (c - 55)%N
  else None.

Definition unescape (e : code_unit) : option code_unit :=
  if (e =? 34)%N then Some 34%N
  else if (e =? 92)%N then Some 92%N
  else if (e =? 47)%N then Some 47%N
  else if (e =? 98)%N then Some 8%N
  else if (e =? 102)%N then Some 12%N
  else if (e =? 110)%N then Some 10%N
  else if (e =? 114)%N then Some 13%N
  else if (e =? 116)%N then Some 9%N
  else None.

(** The rest of a string after its opening quote: the string and what
    follows its closing quote. *)
Fixpoint readString (s acc : jsstring) : option (jsstring * jsstring) :=
  match s with
  | [] => None
  | c :: rest =>
      if (c =? 34)%N then Some (reverse acc, rest)
      else if (c =? 92)%N then
        match rest with
        | [] => None
        | e :: rest1 =>
            if (e =? 117)%N then
              match rest1 with
              | h1 :: h2 :: h3 :: h4 :: rest2 =>
                  v1 ← hexValue h1; v2 ← hexValue h2;
                  v3 ← hexValue h3; v4 ← hexValue h4;
                  readString rest2 ((((v1 * 16 + v2) * 16 + v3) * 16 + v4)%N :: acc)
              | _ => None
              end
            else u ← unescape e; readString rest1 (u :: acc)
        end
      else if (c <? 32)%N then None
      else readString rest (c :: acc)
  end.

Definition isDigit (c : code_unit) : bool := ((48 <=? c) && (c <=? 57))%N.

Fixpoint readDigits (s : jsstring) (acc : N) : N * jsstring :=
  match s with
  | c :: s' => if isDigit c then readDigits s' (acc * 10 + (c - 48))%N else (acc, s)
  | [] => (acc, [])
  end.

(** An integer: no leading zero, no fraction, no exponent. *)
Definition readNumber (s : jsstring) : option (Z * jsstring) :=
  let '(negative, s1) :=
    match s with 45%N :: s' => (true, s') | _ => (false, s) end in
  match s1 with
  | c :: s2 =>
      if isDigit c then
        let '(n, rest) := readDigits s1 0%N in
        let ok :=
          match rest with
          | 46%N :: _ | 101%N :: _ | 69%N :: _ => false
          | _ => negb ((c =? 48)%N && match s2 with d :: _ => isDigit d | [] => false end)
          end in
        if ok then Some (if negative then (- Z.of_N n)%Z else Z.of_N n, rest) else None
      else None
  | [] => None
  end.

(** A later member with the same key replaces the earlier one. *)
Fixpoint setField (k : jsstring) (v : json) (fields : list (jsstring * json))
  : list (jsstring * json) :=
  match fields with
  | [] => [(k, v)]
  | (k', v') :: rest =>
      if jsstring_eqb k' k then (k', v) :: rest else (k', v') :: setField k v rest
  end.

Fixpoint readValue (fuel : nat) (s : jsstring) : option (json * jsstring) :=
  match fuel with
  | O => None
  | S fuel' =>
      match skipWs s with
      | 110%N :: 117%N :: 108%N :: 108%N :: rest => Some (JNull, rest)
      | 116%N :: 114%N :: 117%N :: 101%N :: rest => Some (JBool true, rest)
      | 102%N :: 97%N :: 108%N :: 115%N :: 101%N :: rest => Some (JBool false, rest)
      | 34%N :: rest => '(str, rest') ← readString rest []; Some (JStr str, rest')
      | 91%N :: rest =>
          match skipWs rest with
          | 93%N :: rest' => Some (JArr [], rest')
          | _ => '(items, rest') ← readItems fuel' rest []; Some (JArr items, rest')
          end
      | 123%N :: rest =>
          match skipWs rest with
          | 125%N :: rest' => Some (JObj [], rest')
          | _ => '(fields, rest') ← readMembers fuel' rest []; Some (JObj fields, rest')
          end
      | other => '(z, rest) ← readNumber other; Some (JNum z, rest)
      end
  end
with readItems (fuel : nat) (s : jsstring) (acc : list json)
  : option (list json * jsstring) :=
  match fuel with
  | O => None
  | S fuel' =>
      '(v, rest) ← readValue fuel' s;
      match skipWs rest with
      | 44%N :: rest' => readItems fuel' rest' (v :: acc)
      | 93%N :: rest' => Some (reverse (v :: acc), rest')
      | _ => None
      end
  end
with readMembers (fuel : nat) (s : jsstring) (acc : list (jsstring * json))
  : option (list (jsstring * json) * jsstring) :=
  match fuel with
  | O => None
  | S fuel' =>
      match skipWs s with
      | 34%N :: rest =>
          '(k, rest1) ← readString rest [];
          match skipWs rest1 with
          | 58%N :: rest2 =>
              '(v, rest3) ← readValue fuel' rest2;
              match skipWs rest3 with
              | 44%N :: rest' => readMembers fuel' rest' (setField k v acc)
              | 125%N :: rest' => Some (setField k v acc, rest')
              | _ => None
              end
          | _ => None
          end
      | _ => None
      end
  end.

Definition parse (s : jsstring) : option json :=
  '(v, rest) ← readValue (2 * length s + 2) s;
  match skipWs rest with
  | [] => Some v
  | _ :: _ => None
  end.

#[export] Instance platform : JSONPlatform :=
  {| JSON_stringify := stringify; JSON_parse := parse |}.

End ReferenceJSON.

(** ** Vocabulary of the properties *)

Module Spec.
Import EnhancedChatInterface.

(** The title as the specification words it: the first 30 characters and an
    ellipsis when the message is longer than 30 characters, the message as
    it is otherwise. *)
Definition specTitle (m : jsstring) : jsstring :=
  if decide (30 < length m)%nat then take 30 m ++ js "..." else m.

(** The ids of the conversation list, in list order. *)
Definition ids (st : State) : list jsstring := id <$> conversations st.

(** The active conversation is in the conversation list. *)
Definition activeListed (st : State) : Prop :=
  id (currentConversation st) ∈ ids st.

(** A series of "new chat" actions, given what [Math.random] and [Date.now]
    yield at each, and the conversation each one creates: its id is
    characters 2 to 14 of the random token. *)
Definition newChats (draws : list (jsstring * Z)) : list Event :=
  (fun d => NewChat d.1 d.2) <$> draws.

Definition created (m : jsstring) (d : jsstring * Z) : Conversation :=
  {| id := take 13 (drop 2 d.1); title := js "New Conversation"; messages := [];
     model := m; timestamp := d.2 |}.

(** The value of [data?.choices?.[0]?.message?.content]. *)
Definition replyContent (data : json) : option json :=
  optChain (optChain (optChain (optChain (Some data)
    (getProp (js "choices"))) getIndex0) (getProp (js "message")))
    (getProp (js "content")).

(** The body of a completion request, before [JSON.stringify]. *)
Definition singleMessageBody (m text : jsstring) : json :=
  JObj [(js "model", JStr m);
        (js "messages",
         JArr [JObj [(js "role", JStr (js "user")); (js "content", JStr text)]])].

(** The platform writes [v] as a non-empty text that it reads back as [v]. *)
Definition roundTrips `{JSONPlatform} (v : json) : Prop :=
  nonEmpty (JSON_stringify v) = true ∧ JSON_parse (JSON_stringify v) = Some v.

(** The settings entry of the storage is missing, or is not a JSON text. *)
Definition settingsUnreadable `{JSONPlatform} (ls : gmap jsstring jsstring) : Prop :=
  ls !! js "serverSettings" = None ∨
  ∃ text, ls !! js "serverSettings" = Some text ∧ JSON_parse text = None.

Definition defaultSettings : ServerSettings :=
  {| host := js "localhost"; port := js "1234" |}.

(** A state with another message history in the active conversation. *)
Definition withHistory (history : list Message) (st : State) : State :=
  let cur := currentConversation st in
  applyUpdate st
    (setCurrentConversation
       {| id := id cur; title := title cur; messages := history;
          model := model cur; timestamp := timestamp cur |}).

End Spec.

(** ** Concrete runs, on the reference platform *)

Module Examples.
Import EnhancedChatInterface Spec ReferenceJSON.

(** A reply of the completion server. *)
Definition reply (text : jsstring) : json :=
  JObj [(js "id", JStr (js "chatcmpl-1"));
        (js "choices",
         JArr [JObj [(js "index", JNum 0);
                     (js "message",
                      JObj [(js "role", JStr (js "assistant"));
                            (js "content", JStr text)])]])].

(** The first render, before its effects. *)
Definition firstRender : World :=
  {| ui := initialState (js "0.k3j9x2m1p") 1000; localStorage := ∅ |}.

(** The component mounted in a browser whose storage is empty. *)
Definition mounted : World :=
  default firstRender (mount (js "0.k3j9x2m1p") 1000 false ∅).

(** The first conversation is used as it is: a model is chosen, a message
    is typed and sent, and the server cannot be reached. *)
Definition startupChat : option World :=
  run [ModelChange (js "llama"); InputChange (js "hello"); Send 2000 Rejected 3000]
    mounted.

(** A new chat is opened, a model is chosen and "hi" is typed. *)
Definition beforeFirstSend : World :=
  default firstRender
    (run [NewChat (js "0.7p2q8r") 1500; ModelChange (js "llama"); InputChange (js "hi")]
       mounted).

(** Two new chats for which [Math.random] yields the same number, and two
    for which it does not. *)
Definition sameToken : list (jsstring * Z) :=
  [(js "0.4fzyo82mvy", 1500%Z); (js "0.4fzyo82mvy", 1600%Z)].

Definition otherTokens : list (jsstring * Z) :=
  [(js "0.4fzyo82mvy", 1500%Z); (js "0.9x1cb05f3k", 1600%Z)].

(** The settings form filled in with another server. *)
Definition settingsEdited : World :=
  default firstRender
    (run [HostChange (js "example.com"); PortChange (js "8080")] mounted).

(** A storage whose settings entry is not a JSON text. *)
Definition brokenStorage : gmap jsstring jsstring :=
  {[ js "serverSettings" := js "{host: example.com" ]}.

(** A conversation with one exchange and a derived title, the input typed. *)
Definition titled : World :=
  let c := {| id := js "7p2q8r"; title := js "hi";
              messages := [{| role := user; content := js "hi" |};
                           {| role := assistant; content := js "hello" |}];
              model := js "llama"; timestamp := 3000 |} in
  commit [setCurrentConversation c; setConversations (fun _ => [c]);
          setInput (js "and what is the capital of the country next to it?")]
    mounted.

Definition longMessage : jsstring :=
  js "What is the capital of France, and of Spain?".

Definition exchange : list Message :=
  [{| role := user; content := longMessage |};
   {| role := assistant; content := js "Paris and Madrid." |}].

(** Two chats opened one after the other; the second one is active. *)
Definition twoChats : World :=
  default firstRender (run (newChats otherTokens) mounted).

(** A reply whose content is there and is the empty string. *)
Definition emptyReply : json := reply (js "").

End Examples.

(** ** What the render shows *)

Module View.
Import EnhancedChatInterface.

(** The [disabled] attribute of the text input and of the submit button. *)
Definition inputDisabled (st : State) : bool :=
  isLoading st || negb (nonEmpty (model (currentConversation st))).

Definition submitDisabled (st : State) : bool :=
  isLoading st || negb (nonEmpty (trim (input st)))
  || negb (nonEmpty (model (currentConversation st))).

Definition minimalInputDisabled (st : ChatInterface.State) : bool :=
  ChatInterface.isLoading st || negb (nonEmpty (ChatInterface.selectedModel st)).

Definition minimalSubmitDisabled (st : ChatInterface.State) : bool :=
  ChatInterface.isLoading st || negb (nonEmpty (trim (ChatInterface.input st)))
  || negb (nonEmpty (ChatInterface.selectedModel st)).

(** The sidebar buttons drawn as selected, one flag per conversation:
    [currentConversation.id === conversation.id]. *)
Definition selected (st : State) : list bool :=
  (fun conversation => jsstring_eqb (id (currentConversation st)) (id conversation))
    <$> conversations st.

End View.

(** ** A send with other actions while the request is pending *)

Module Pending.
Import EnhancedChatInterface Spec.

(** The handler runs up to its [await], the actions [between] take place,
    and the handler goes on, still over the state of the render in which
    the message was submitted. *)
Definition sendInterleaved `{JSONPlatform}
    (now1 : Z) (between : list Event) (outcome : Outcome) (now2 : Z) (w : World)
  : option World :=
  let snap := ui w in
  match handleSendMessage_begin snap now1 with
  | None => run between w
  | Some (_, ups1) =>
      w1 ← run between (commit ups1 w);
      ups2 ← handleSendMessage_resume snap outcome now2;
      Some (commit ups2 w1)
  end.

(** Vocabulary.  The text of the assistant message for an outcome. *)
Definition replyText (outcome : Outcome) (reply : jsstring) : Prop :=
  match outcome with
  | Rejected => reply = js "Sorry, there was an error processing your request."
  | Resolved data => asString (aiResponse data) = Some reply
  end.

(** The conversation of the snapshot with the exchange appended and the
    time of the answer. *)
Definition withExchange (snap : State) (reply : jsstring) (now2 : Z) : Conversation :=
  let cur := currentConversation snap in
  {| id := id cur; title := title cur;
     messages := messages cur ++ [{| role := user; content := input snap |};
                                  {| role := assistant; content := reply |}];
     model := model cur; timestamp := now2 |}.

(** The conversation of the snapshot with the title of its first message
    and nothing else changed. *)
Definition withTitleOnly (snap : State) : Conversation :=
  let cur := currentConversation snap in
  {| id := id cur; title := specTitle (input snap); messages := messages cur;
     model := model cur; timestamp := timestamp cur |}.

(** The snapshot's conversation has no message and the title
    "New Conversation". *)
Definition firstExchange (snap : State) : bool :=
  match messages (currentConversation snap) with
  | [] => jsstring_eqb (title (currentConversation snap)) (js "New Conversation")
  | _ :: _ => false
  end.

(** The conversation that is active when the handler has ended. *)
Definition sender (snap : State) (outcome : Outcome) (reply : jsstring) (now2 : Z)
  : Conversation :=
  match outcome with
  | Rejected => withExchange snap reply now2
  | Resolved _ =>
      if firstExchange snap then withTitleOnly snap else withExchange snap reply now2
  end.

End Pending.

(** ** Further vocabulary *)

Module Invariants.
Import EnhancedChatInterface Spec.

(** The active conversation is one of the conversations of the list, with
    all its fields. *)
Definition activeMirrored (st : State) : Prop :=
  currentConversation st ∈ conversations st.

(** Both storage entries hold the JSON text of what the component has. *)
Definition persisted `{JSONPlatform} (w : World) : Prop :=
  localStorage w !! js "conversations" =
    Some (JSON_stringify (JArr (encodeConversation <$> conversations (ui w)))) ∧
  localStorage w !! js "serverSettings" =
    Some (JSON_stringify (encodeServerSettings (serverSettings (ui w)))).

(** The conversations entry of the storage is missing, or is not a JSON
    text. *)
Definition conversationsUnreadable `{JSONPlatform} (ls : gmap jsstring jsstring) : Prop :=
  ls !! js "conversations" = None ∨
  ∃ text, ls !! js "conversations" = Some text ∧ JSON_parse text = None.

(** A string of white space only; the empty string is one. *)
Definition blank (s : jsstring) : Prop := Forall (fun c => isWhiteSpace c = true) s.

(** The reply is one the typed model follows: the request failed, or the
    content that is extracted is a string. *)
Definition typedReply (outcome : Outcome) : Prop :=
  match outcome with
  | Rejected => True
  | Resolved data => is_Some (asString (aiResponse data))
  end.

(** The answer of the server's model list, for the given ids. *)
Definition modelList (modelIds : list jsstring) : json :=
  JObj [(js "object", JStr (js "list"));
        (js "data",
         JArr ((fun i => JObj [(js "id", JStr i); (js "object", JStr (js "model"))])
               <$> modelIds))].

End Invariants.

(** ** The minimal component's actions *)

Module MinimalRun.
Import ChatInterface.

(** The continuation of the mount effect's [fetch] of the model list; the
    same code as in the enhanced component. *)
Definition fetchModels_then (outcome : Outcome) : option (list Update) :=
  match outcome with
  | Resolved data =>
      match getProp (js "data") data with
      | Some (JArr items) =>
          if existsb EnhancedChatInterface.isNull items then Some []
          else modelIds ← mapM (EnhancedChatInterface.field "id" asString) items;
               Some [setModels modelIds]
      | _ => Some []
      end
  | Rejected => Some []
  end.

Inductive Event :=
| ModelsFetched (outcome : Outcome)
| InputChange (text : jsstring)
| ModelSelect (m : jsstring)
| Send (outcome : Outcome).

Definition step `{JSONPlatform} (e : Event) (st : State) : option State :=
  match e with
  | ModelsFetched outcome => (fun ups => applyUpdates ups st) <$> fetchModels_then outcome
  | InputChange text => Some (applyUpdate st (setInput text))
  | ModelSelect m => Some (applyUpdate st (setSelectedModel m))
  | Send outcome => snd <$> handleSendMessage outcome st
  end.

Fixpoint run `{JSONPlatform} (es : list Event) (st : State) : option State :=
  match es with
  | [] => Some st
  | e :: es' => step e st ≫= run es'
  end.

End MinimalRun.

(** ** Message lists made of exchanges *)

Module Exchanges.
Import EnhancedChatInterface.

Definition isUser (m : Message) : bool :=
  match role m with user => true | assistant => false end.

Definition isAssistant (m : Message) : bool :=
  match role m with assistant => true | user => false end.

(** A user message, the assistant's message for it, and so on. *)
Fixpoint paired (ms : list Message) : bool :=
  match ms with
  | [] => true
  | [_] => false
  | u :: a :: rest => isUser u && isAssistant a && paired rest
  end.

(** The active conversation and the listed ones are made of exchanges. *)
Definition allPaired (st : State) : bool :=
  paired (messages (currentConversation st))
  && forallb (fun c => paired (messages c)) (conversations st).

End Exchanges.

(** ** Equality of conversations is decidable *)

#[global] Instance Role_eq_dec : EqDecision Role.
Proof. solve_decision. Defined.

#[global] Instance Message_eq_dec : EqDecision Message.
Proof. solve_decision. Defined.

#[global] Instance Conversation_eq_dec : EqDecision EnhancedChatInterface.Conversation.
Proof. solve_decision. Defined.

(** ** More concrete runs *)

Module MoreExamples.
Import EnhancedChatInterface Spec ReferenceJSON Examples.

(** Two chats, a model chosen in the active one and "hi" typed. *)
Definition twoChatsTyped : World :=
  default firstRender
    (run [ModelChange (js "llama"); InputChange (js "hi")] twoChats).

(** White space typed instead. *)
Definition spacesTyped : World :=
  default firstRender
    (run [ModelChange (js "llama"); InputChange (js "  " ++ [9%N; 160%N])] twoChats).

(** The submit handler of [twoChatsTyped] up to its [await]. *)
Definition pendingRequest : Request :=
  match handleSendMessage_begin (ui twoChatsTyped) 2000 with
  | Some (req, _) => req
  | None => fetchModels (ui twoChatsTyped)
  end.

Definition pendingQueue : list Update :=
  match handleSendMessage_begin (ui twoChatsTyped) 2000 with
  | Some (_, ups) => ups
  | None => []
  end.

(** While the request is pending the user opens another chat and chooses
    another model. *)
Definition meanwhile : list Event :=
  [NewChat (js "0.m3anwh1le") 2500; ModelChange (js "mistral")].

Definition afterMeanwhile : World :=
  default firstRender (run meanwhile (commit pendingQueue twoChatsTyped)).

(** "hi" typed in the conversation of the first render, which has no
    model. *)
Definition typedWithoutModel : World :=
  default firstRender (step (InputChange (js "hi")) mounted).

(** The host field of the settings form edited. *)
Definition hostTyped : World :=
  default firstRender (step (HostChange (js "example.com")) mounted).

(** The form saved after both fields were edited. *)
Definition settingsSaved : World :=
  default firstRender (step SaveSettings settingsEdited).

(** A storage whose conversations entry is cut off. *)
Definition cutStorage : gmap jsstring jsstring :=
  {[ js "conversations" := js "[{" ++ [34%N] ++ js "id" ]}.

(** A second message in the conversation of [titled], and the request
    fails. *)
Definition secondSend : list Event :=
  [Send 4000 Rejected 5000; InputChange (js "again"); NewChat (js "0.q0q1q2") 6000].

Definition afterSecondSend : World :=
  default firstRender (run secondSend titled).



(** The minimal component in use. *)
Definition minimalSession : list MinimalRun.Event :=
  [MinimalRun.ModelsFetched (Resolved (Invariants.modelList [js "llama"; js "mistral"]));
   MinimalRun.ModelSelect (js "llama");
   MinimalRun.InputChange (js "hi");
   MinimalRun.Send (Resolved (reply (js "hello")));
   MinimalRun.InputChange (js "and then?");
   MinimalRun.Send Rejected].

Definition afterMinimalSession : ChatInterface.State :=
  default ChatInterface.initialState
    (MinimalRun.run minimalSession ChatInterface.initialState).

End MoreExamples.

(** ** The colour scheme *)

Module Theme.
Import EnhancedChatInterface.





End Theme.

(** ** Actions while a request is pending

    A send is two steps: the handler up to its [await] ([Submit]), and its
    continuation when the server has answered or the request has failed
    ([Answer]), over the state of the render in which the message was
    submitted.  Every other action can take place between the two.  The
    text input and the submit button are disabled while [isLoading] is set
    (l.711-726), so that no message is submitted then. *)

Module Interleaving.
Import EnhancedChatInterface Spec Exchanges.

(** The component, and the snapshots of the handlers that wait for their
    answer, oldest first. *)
Record Session := { component : World; awaiting : list State }.

Inductive Action :=
| Submit (now1 : Z)
| Answer (k : nat) (outcome : Outcome) (now2 : Z)
| Other (e : Event).

(** [None]: the action cannot take place (the controls are disabled, no
    handler waits at this position), or the typed model does not follow.
    An [Other (Send _ _ _)] is none of the actions: a send is a [Submit] and
    its [Answer]. *)
Definition act `{JSONPlatform} (a : Action) (s : Session) : option Session :=
  match a with
  | Submit now1 =>
      if isLoading (ui (component s)) then None
      else
        match handleSendMessage_begin (ui (component s)) now1 with
        | None => Some s
        | Some (_, ups1) =>
            Some {| component := commit ups1 (component s);
                    awaiting := awaiting s ++ [ui (component s)] |}
        end
  | Answer k outcome now2 =>
      snap ← awaiting s !! k;
      ups2 ← handleSendMessage_resume snap outcome now2;
      Some {| component := commit ups2 (component s); awaiting := delete k (awaiting s) |}
  | Other e =>
      match e with
      | Send _ _ _ => None
      | _ => w' ← step e (component s); Some {| component := w'; awaiting := awaiting s |}
      end
  end.

Fixpoint perform `{JSONPlatform} (acts : list Action) (s : Session) : option Session :=
  match acts with
  | [] => Some s
  | a :: acts' => act a s ≫= perform acts'
  end.

(** The component with no request pending. *)
Definition idle (w : World) : Session := {| component := w; awaiting := [] |}.

(** The active conversation is one of the list, and so is, by its id, the
    conversation of every handler that waits for its answer. *)
Definition mirrored (s : Session) : Prop :=
  Invariants.activeMirrored (ui (component s)) ∧
  Forall (fun snap => id (currentConversation snap) ∈ ids (ui (component s))) (awaiting s).

(** The message lists consist of exchanges, the conversation of the
    pending request apart: no request is pending, the loading flag is off
    and every conversation consists of exchanges; or one request is
    pending, the flag is on, the conversation it was sent from consisted of
    exchanges, and so does every conversation with another id. *)
Definition exchanged (s : Session) : Prop :=
  match awaiting s with
  | [] =>
      isLoading (ui (component s)) = false ∧ allPaired (ui (component s)) = true
  | [snap] =>
      isLoading (ui (component s)) = true ∧
      paired (messages (currentConversation snap)) = true ∧
      (∀ c, c ∈ conversations (ui (component s)) →
            id c ≠ id (currentConversation snap) → paired (messages c) = true) ∧
      (id (currentConversation (ui (component s))) ≠ id (currentConversation snap) →
       paired (messages (currentConversation (ui (component s)))) = true)
  | _ => False
  end.

End Interleaving.

(** ** The minimal component while a request is pending *)

Module MinimalInterleaving.
Import ChatInterface Exchanges.

(** The component and the number of handlers that wait for their answer;
    their continuation reads nothing of the snapshot. *)
Record Session := { component : State; awaiting : nat }.

Inductive Action :=
| Submit
| Answer (outcome : Outcome)
| Other (e : MinimalRun.Event).

Definition act `{JSONPlatform} (a : Action) (s : Session) : option Session :=
  match a with
  | Submit =>
      if isLoading (component s) then None
      else
        match handleSendMessage_begin (component s) with
        | None => Some s
        | Some (_, ups1) =>
            Some {| component := applyUpdates ups1 (component s); awaiting := S (awaiting s) |}
        end
  | Answer outcome =>
      match awaiting s with
      | O => None
      | S n =>
          ups2 ← handleSendMessage_resume outcome;
          Some {| component := applyUpdates ups2 (component s); awaiting := n |}
      end
  | Other e =>
      match e with
      | MinimalRun.Send _ => None
      | _ => st' ← MinimalRun.step e (component s);
             Some {| component := st'; awaiting := awaiting s |}
      end
  end.

Fixpoint perform `{JSONPlatform} (acts : list Action) (s : Session) : option Session :=
  match acts with
  | [] => Some s
  | a :: acts' => act a s ≫= perform acts'
  end.

Definition idle (st : State) : Session := {| component := st; awaiting := 0 |}.

(** No request is pending, the flag is off and the messages are whole
    exchanges; or one is pending, the flag is on and the messages are
    whole exchanges followed by the user's message that waits for its
    answer. *)
Definition exchanged (s : Session) : Prop :=
  (awaiting s = 0%nat ∧ isLoading (component s) = false ∧ paired (messages (component s)) = true) ∨
  (awaiting s = 1%nat ∧ isLoading (component s) = true ∧
   ∃ ms text, messages (component s) = ms ++ [{| role := user; content := text |}] ∧
              paired ms = true).

End MinimalInterleaving.

(** ** Concrete runs with a pending request *)

Module PendingExamples.
Import EnhancedChatInterface Spec ReferenceJSON Examples MoreExamples.

(** In the second of two chats "hi" is sent; before the reply arrives the
    user opens another chat and chooses another model. *)
Definition busySession : list Interleaving.Action :=
  [Interleaving.Submit 2000;
   Interleaving.Other (NewChat (js "0.m3anwh1le") 2500);
   Interleaving.Other (ModelChange (js "mistral"));
   Interleaving.Answer 0 (Resolved (reply (js "hello"))) 3000].

Definition afterBusySession : Interleaving.Session :=
  default (Interleaving.idle firstRender)
    (Interleaving.perform busySession (Interleaving.idle twoChatsTyped)).

(** The same in the conversation of the first render, which is in no list:
    a message is sent from it, a new chat is opened, the request fails. *)
Definition unlistedSession : list Interleaving.Action :=
  [Interleaving.Other (ModelChange (js "llama"));
   Interleaving.Other (InputChange (js "hello"));
   Interleaving.Submit 2000;
   Interleaving.Other (NewChat (js "0.m3anwh1le") 2500);
   Interleaving.Answer 0 Rejected 3000].

Definition afterUnlistedSession : Interleaving.Session :=
  default (Interleaving.idle firstRender)
    (Interleaving.perform unlistedSession (Interleaving.idle mounted)).

(** A second message in the conversation of [titled]: the state while the
    request is pending, and the state when it has failed after a new chat
    was opened. *)
Definition waiting : Interleaving.Session :=
  default (Interleaving.idle firstRender)
    (Interleaving.perform [Interleaving.Submit 4000] (Interleaving.idle titled)).

Definition interrupted : list Interleaving.Action :=
  [Interleaving.Submit 4000;
   Interleaving.Other (NewChat (js "0.q0q1q2") 4500);
   Interleaving.Answer 0 Rejected 5000].

Definition afterInterrupted : Interleaving.Session :=
  default (Interleaving.idle firstRender)
    (Interleaving.perform interrupted (Interleaving.idle titled)).

(** The minimal component: a message is sent, and the model list arrives
    before the reply does. *)
Definition minimalBusy : list MinimalInterleaving.Action :=
  [MinimalInterleaving.Other (MinimalRun.ModelSelect (js "llama"));
   MinimalInterleaving.Other (MinimalRun.InputChange (js "hi"));
   MinimalInterleaving.Submit;
   MinimalInterleaving.Other
     (MinimalRun.ModelsFetched (Resolved (Invariants.modelList [js "llama"])));
   MinimalInterleaving.Answer (Resolved (reply (js "hello")))].

Definition afterMinimalBusy : MinimalInterleaving.Session :=
  default (MinimalInterleaving.idle ChatInterface.initialState)
    (MinimalInterleaving.perform minimalBusy
       (MinimalInterleaving.idle ChatInterface.initialState)).

Definition minimalWaiting : MinimalInterleaving.Session :=
  default (MinimalInterleaving.idle ChatInterface.initialState)
    (MinimalInterleaving.perform (take 3 minimalBusy)
       (MinimalInterleaving.idle ChatInterface.initialState)).


End PendingExamples.

(** ** Properties *)

Section Basics.

Lemma jsstring_eqb_eq (a b : jsstring) : jsstring_eqb a b = true ↔ a = b.
Proof. unfold jsstring_eqb. apply bool_decide_eq_true. Qed.

Lemma jsstring_eqb_refl (a : jsstring) : jsstring_eqb a a = true.
Proof. by apply jsstring_eqb_eq. Qed.

Lemma jsstring_eqb_neq (a b : jsstring) : jsstring_eqb a b = false ↔ a ≠ b.
Proof. unfold jsstring_eqb. apply bool_decide_eq_false. Qed.

Lemma substring_from_0 (n : nat) (s : jsstring) : substring 0 n s = take n s.
Proof. unfold substring. by rewrite Nat.min_0_l, Nat.max_0_l, Nat.sub_0_r. Qed.

End Basics.

Import EnhancedChatInterface Spec.

Section Properties.
Context `{JSONPlatform}.

Lemma deriveTitle_specTitle (m : jsstring) : deriveTitle m = specTitle m.
Proof.
  unfold deriveTitle, specTitle. rewrite substring_from_0.
  destruct (Nat.ltb_spec 30 (length m)); case_decide; done || lia.
Qed.

Lemma commit_nil (w : World) : commit [] w = w.
Proof. by destruct w. Qed.

Lemma ids_replaceById (i : jsstring) (r : Conversation) (l : list Conversation) :
  id r = i → id <$> replaceById i r l = id <$> l.
Proof.
  intros Hr. unfold replaceById. induction l as [|c l IH]; [done|].
  cbn. rewrite IH. f_equal.
  destruct (jsstring_eqb (id c) i) eqn:E; [|done].
  apply jsstring_eqb_eq in E. congruence.
Qed.

Lemma find_id_absent (i : jsstring) (l : list Conversation) :
  i ∉ id <$> l → List.find (fun c => jsstring_eqb (id c) i) l = None.
Proof.
  induction l as [|c l IH]; [done|].
  cbn. intros Hn. apply not_elem_of_cons in Hn as [Hne Hn].
  destruct (jsstring_eqb (id c) i) eqn:E.
  - apply jsstring_eqb_eq in E. congruence.
  - by apply IH.
Qed.

Lemma find_id_present (i : jsstring) (l : list Conversation) :
  i ∈ id <$> l →
  ∃ before c after,
    l = before ++ c :: after ∧ id c = i ∧ (i ∉ id <$> before) ∧
    List.find (fun c => jsstring_eqb (id c) i) l = Some c.
Proof.
  induction l as [|c l IH]; [by intros ?%elem_of_nil|].
  cbn. intros Hin.
  destruct (jsstring_eqb (id c) i) eqn:E.
  - apply jsstring_eqb_eq in E. exists [], c, l. split_and!; try done.
    cbn. apply not_elem_of_nil.
  - apply jsstring_eqb_neq in E.
    apply elem_of_cons in Hin as [->|Hin]; [done|].
    destruct (IH Hin) as (before & c' & after & -> & Hid & Hnot & Hfind).
    exists (c :: before), c', after. split_and!; try done.
    cbn. apply not_elem_of_cons. done.
Qed.

(** *** Creating and switching conversations *)

Lemma NewChat_step (w : World) (random36 : jsstring) (now : Z) :
  ∃ w', step (NewChat random36 now) w = Some w' ∧
        currentConversation (ui w') =
          created (model (currentConversation (ui w))) (random36, now) ∧
        conversations (ui w') =
          created (model (currentConversation (ui w))) (random36, now)
          :: conversations (ui w).
Proof.
  eexists. split; [reflexivity|].
  destruct w as [[cur cs i l ms d mm sb so ss ts] ls]. by cbn.
Qed.

Lemma SwitchTo_absent (w : World) (i : jsstring) :
  i ∉ ids (ui w) → step (SwitchTo i) w = Some w.
Proof.
  intros Hn. cbn. unfold switchConversation.
  rewrite (find_id_absent _ _ Hn). by rewrite commit_nil.
Qed.

Lemma SwitchTo_present (w : World) (i : jsstring) :
  i ∈ ids (ui w) →
  ∃ before c after w',
    conversations (ui w) = before ++ c :: after ∧ id c = i ∧ (i ∉ id <$> before) ∧
    step (SwitchTo i) w = Some w' ∧
    currentConversation (ui w') = c ∧
    conversations (ui w') = conversations (ui w).
Proof.
  intros Hin.
  destruct (find_id_present _ _ Hin) as (before & c & after & Hl & Hid & Hnot & Hfind).
  exists before, c, after, (commit (switchConversation (ui w) i) w).
  destruct w as [[cur cs i' l ms d mm sb so ss ts] ls]. cbn in *.
  unfold switchConversation. cbn. rewrite Hfind. by cbn.
Qed.

(** C6 (amended): a "new chat" action creates a conversation whose id is
    what [generateId] makes of the random token, its characters 2 to 14;
    the id is not compared with the ids in use.  The conversation has the
    title "New Conversation", no messages, the model of the conversation
    that was active and the current time; it becomes the active one and is
    put at the front of the conversation list, whose other entries stay as
    they were.  When these characters differ from every id of the list, the
    id is new to the list, and the ids of the list stay pairwise distinct
    if they were. *)
Theorem startNewChat_creates (w : World) (random36 : jsstring) (now : Z) :
  let fresh :=
    {| id := take 13 (drop 2 random36); title := js "New Conversation";
       messages := []; model := model (currentConversation (ui w));
       timestamp := now |} in
  ∃ w', step (NewChat random36 now) w = Some w' ∧
        currentConversation (ui w') = fresh ∧
        conversations (ui w') = fresh :: conversations (ui w) ∧
        (take 13 (drop 2 random36) ∉ ids (ui w) →
         (∀ c, c ∈ conversations (ui w) → id c ≠ id (currentConversation (ui w'))) ∧
         (NoDup (ids (ui w)) → NoDup (ids (ui w')))).
Proof.
  intros fresh. exists (commit (startNewChat (ui w) random36 now) w).
  split; [reflexivity|].
  destruct w as [[cur cs i l ms d mm sb so ss ts] ls].
  split; [reflexivity|]. split; [reflexivity|].
  unfold ids. cbn -[js]. intros Hfresh. split.
  - intros c Hc E. apply Hfresh. rewrite <- E. by apply list_elem_of_fmap_2.
  - intros Hnd. by apply NoDup_cons.
Qed.

(** C7: switching to an id that no conversation of the list has changes
    nothing (neither the component's state nor the storage); switching to an
    id of the list makes the first conversation with this id the active one
    and leaves the list as it is. *)
Theorem switchConversation_spec (w : World) (i : jsstring) :
  (i ∉ ids (ui w) → step (SwitchTo i) w = Some w) ∧
  (i ∈ ids (ui w) →
   ∃ before c after w',
     conversations (ui w) = before ++ c :: after ∧ id c = i ∧ (i ∉ id <$> before) ∧
     step (SwitchTo i) w = Some w' ∧
     currentConversation (ui w') = c ∧
     conversations (ui w') = conversations (ui w)).
Proof.
  split.
  - intros Habsent. cbn. unfold switchConversation.
    rewrite (find_id_absent _ _ Habsent). apply f_equal, commit_nil.
  - intros Hpresent.
    destruct (find_id_present _ _ Hpresent)
      as (before & c & after & Hsplit & Hid & Hfirst & Hfind).
    exists before, c, after, (commit [setCurrentConversation c; setIsSidebarOpen false] w).
    split_and!; [done..| | |].
    + cbn. unfold switchConversation. by rewrite Hfind.
    + by destruct w as [[]].
    + by destruct w as [[]].
Qed.

(** *** Sending *)

Lemma aiResponse_replyContent (data : json) :
  aiResponse data = orElse (replyContent data) (JStr (js "No response from AI")).
Proof. reflexivity. Qed.

(** C9: with no model selected (the active conversation's model in the
    enhanced component, the selected model in the minimal one, is the empty
    string) a send issues no request and leaves the whole state, and the
    storage, as they were. *)
Theorem send_without_model_is_noop
    (w : World) (st : ChatInterface.State) (now1 now2 : Z) (outcome : Outcome) :
  (model (currentConversation (ui w)) = js "" →
   handleSendMessage now1 outcome now2 w = Some (None, w) ∧
   step (Send now1 outcome now2) w = Some w) ∧
  (ChatInterface.selectedModel st = js "" →
   ChatInterface.handleSendMessage outcome st = Some (None, st)).
Proof.
  split.
  - intros Hm. unfold step, handleSendMessage, handleSendMessage_begin.
    rewrite Hm. cbn. by rewrite orb_true_r.
  - intros Hm. unfold ChatInterface.handleSendMessage, ChatInterface.handleSendMessage_begin.
    rewrite Hm. cbn. by rewrite orb_true_r.
Qed.

(** C5: a send with a non-blank input and a selected model issues a POST to
    [http://{host}:{port}/v1/chat/completions] (host [localhost] and port
    [1234] in the minimal component) whose body is the JSON text of the
    selected model and a message list of one element, the user message just
    entered; the messages the conversation holds have no part in it: the
    same request is issued whatever the history is. *)
Theorem completion_request_single_message :
  (∀ (snap : State) (now1 : Z),
     nonEmpty (trim (input snap)) = true →
     nonEmpty (model (currentConversation snap)) = true →
     let req :=
       {| url := js "http://" ++ host (serverSettings snap) ++ js ":" ++
                 port (serverSettings snap) ++ js "/v1/chat/completions";
          method := js "POST";
          headers := [(js "Content-Type", js "application/json")];
          body := Some (JSON_stringify
                    (singleMessageBody (model (currentConversation snap)) (input snap))) |} in
     (∃ ups, handleSendMessage_begin snap now1 = Some (req, ups)) ∧
     ∀ history, ∃ ups,
       handleSendMessage_begin (withHistory history snap) now1 = Some (req, ups)) ∧
  (∀ (snap : ChatInterface.State),
     nonEmpty (trim (ChatInterface.input snap)) = true →
     nonEmpty (ChatInterface.selectedModel snap) = true →
     let req :=
       {| url := js "http://" ++ js "localhost" ++ js ":" ++ js "1234" ++
                 js "/v1/chat/completions";
          method := js "POST";
          headers := [(js "Content-Type", js "application/json")];
          body := Some (JSON_stringify
                    (singleMessageBody (ChatInterface.selectedModel snap)
                       (ChatInterface.input snap))) |} in
     (∃ ups, ChatInterface.handleSendMessage_begin snap = Some (req, ups)) ∧
     ∀ history, ∃ ups,
       ChatInterface.handleSendMessage_begin
         (ChatInterface.applyUpdate snap (ChatInterface.setMessages (fun _ => history)))
       = Some (req, ups)).
Proof.
  split.
  - intros [cur cs i l ms d mm sb so [h p] ts] now1 Hi Hm req.
    cbn in *. unfold handleSendMessage_begin. cbn. rewrite Hi, Hm. cbn.
    split; [|intros history]; eexists; reflexivity.
  - intros [msgs i l ms m] Hi Hm req.
    cbn in *. unfold ChatInterface.handleSendMessage_begin. cbn. rewrite Hi, Hm. cbn.
    split; [|intros history]; eexists; reflexivity.
Qed.

(** *** The title *)

Lemma updateConversationTitle_fires (snap : State) (msgs : list Message) :
  updateConversationTitle snap msgs ≠ [] ↔
  length msgs = 2%nat ∧ title (currentConversation snap) = js "New Conversation".
Proof.
  unfold updateConversationTitle.
  destruct (Nat.eqb_spec (length msgs) 2) as [Hl|Hl]; cbn.
  - destruct (jsstring_eqb _ _) eqn:E.
    + apply jsstring_eqb_eq in E. destruct msgs as [|first rest]; [done|]. cbn.
      split; [done|]. by intros _.
    + apply jsstring_eqb_neq in E. split; [done|]. by intros [_ ?].
  - split; [done|]. by intros [? _].
Qed.

Lemma updateConversationTitle_sets (snap : State) (msgs : list Message) :
  length msgs = 2%nat →
  title (currentConversation snap) = js "New Conversation" →
  ∃ first, msgs !! 0%nat = Some first ∧
    ∀ st, let st' := applyUpdates (updateConversationTitle snap msgs) st in
      title (currentConversation st') = specTitle (content first) ∧
      id (currentConversation st') = id (currentConversation snap) ∧
      conversations st' =
        replaceById (id (currentConversation snap)) (currentConversation st')
          (conversations st).
Proof.
  intros Hl Ht. destruct msgs as [|first rest]; [done|].
  exists first. split; [done|]. intros st st'. subst st'.
  unfold updateConversationTitle. rewrite Hl, Ht, jsstring_eqb_refl. cbn.
  rewrite deriveTitle_specTitle. by destruct st.
Qed.

Lemma updateConversationTitle_by_value (snap : State) (msgs : list Message) :
  title (currentConversation snap) ≠ js "New Conversation" →
  updateConversationTitle snap msgs = [].
Proof.
  intros Ht. unfold updateConversationTitle.
  apply jsstring_eqb_neq in Ht. rewrite Ht. by rewrite andb_false_r.
Qed.

Lemma updateConversationTitle_other_length (snap : State) (msgs : list Message) :
  length msgs ≠ 2%nat → updateConversationTitle snap msgs = [].
Proof.
  intros Hl. unfold updateConversationTitle.
  by destruct (Nat.eqb_spec (length msgs) 2).
Qed.

Lemma send_keeps_other_title
    (w w' : World) (now1 now2 : Z) (outcome : Outcome) :
  title (currentConversation (ui w)) ≠ js "New Conversation" →
  step (Send now1 outcome now2) w = Some w' →
  title (currentConversation (ui w')) = title (currentConversation (ui w)).
Proof.
  intros Ht. cbn. unfold handleSendMessage.
  destruct (handleSendMessage_begin (ui w) now1) as [[req ups1]|] eqn:Hb; cbn.
  - unfold handleSendMessage_resume.
    destruct outcome as [|data]; cbn.
    + unfold handleSendMessage_begin in Hb.
      destruct w as [[cur cs i l ms d mm sb so [h p] ts] ls]. cbn in *.
      destruct (_ || _); [done|]. injection Hb as <- <-.
      by intros [= <-].
    + destruct (asString (aiResponse data)) as [reply|]; cbn; [|done].
      rewrite (updateConversationTitle_by_value _ _ Ht).
      unfold handleSendMessage_begin in Hb.
      destruct w as [[cur cs i l ms d mm sb so [h p] ts] ls]. cbn in *.
      destruct (_ || _); [done|]. injection Hb as <- <-.
      by intros [= <-].
  - by intros [= <-].
Qed.

Lemma first_send_sets_title
    (w : World) (now1 now2 : Z) (data : json) (reply : jsstring) :
  messages (currentConversation (ui w)) = [] →
  title (currentConversation (ui w)) = js "New Conversation" →
  nonEmpty (trim (input (ui w))) = true →
  nonEmpty (model (currentConversation (ui w))) = true →
  asString (aiResponse data) = Some reply →
  ∃ w', step (Send now1 (Resolved data) now2) w = Some w' ∧
        title (currentConversation (ui w')) = specTitle (input (ui w)).
Proof.
  intros Hms Ht Hi Hm Hr. cbn. unfold handleSendMessage, handleSendMessage_begin.
  rewrite Hi, Hm. cbn.
  destruct w as [[cur cs i l ms d mm sb so [h p] ts] ls]. cbn in *.
  unfold handleSendMessage_resume. rewrite Hr. cbn.
  unfold updateConversationTitle. cbn. rewrite Hms, Ht. cbn.
  eexists. split; [reflexivity|]. cbn. apply deriveTitle_specTitle.
Qed.

(** C3: the title is derived only when the conversation's title is still
    "New Conversation" and the message list handed over has exactly 2
    entries; the title then becomes the first message's text, cut to its
    first 30 characters followed by "..." when it is longer than 30
    characters and taken as it is otherwise (the first message of a send on
    an empty conversation is the user's input); with any other title nothing
    is derived, whatever the messages are, and a send leaves the title as it
    is. *)
Theorem title_auto_derivation (snap : State) (msgs : list Message) :
  (updateConversationTitle snap msgs ≠ [] ↔
   length msgs = 2%nat ∧ title (currentConversation snap) = js "New Conversation") ∧
  (length msgs = 2%nat →
   title (currentConversation snap) = js "New Conversation" →
   ∃ first, msgs !! 0%nat = Some first ∧
     ∀ st, let st' := applyUpdates (updateConversationTitle snap msgs) st in
       title (currentConversation st') = specTitle (content first) ∧
       id (currentConversation st') = id (currentConversation snap) ∧
       conversations st' =
         replaceById (id (currentConversation snap)) (currentConversation st')
           (conversations st)) ∧
  (∀ (w : World) (now1 now2 : Z) (data : json) (reply : jsstring),
     messages (currentConversation (ui w)) = [] →
     title (currentConversation (ui w)) = js "New Conversation" →
     nonEmpty (trim (input (ui w))) = true →
     nonEmpty (model (currentConversation (ui w))) = true →
     asString (aiResponse data) = Some reply →
     ∃ w', step (Send now1 (Resolved data) now2) w = Some w' ∧
           title (currentConversation (ui w')) = specTitle (input (ui w))) ∧
  (title (currentConversation snap) ≠ js "New Conversation" →
   ∀ msgs', updateConversationTitle snap msgs' = []) ∧
  (∀ (w w' : World) (now1 now2 : Z) (outcome : Outcome),
     title (currentConversation (ui w)) ≠ js "New Conversation" →
     step (Send now1 outcome now2) w = Some w' →
     title (currentConversation (ui w')) = title (currentConversation (ui w))).
Proof.
  split_and!.
  - apply updateConversationTitle_fires.
  - apply updateConversationTitle_sets.
  - apply first_send_sets_title.
  - intros Ht msgs'. by apply updateConversationTitle_by_value.
  - apply send_keeps_other_title.
Qed.

(** *** Series of new chats *)

Lemma run_newChats (draws : list (jsstring * Z)) (w : World) :
  ∃ w', run (newChats draws) w = Some w' ∧
    conversations (ui w') =
      reverse (created (model (currentConversation (ui w))) <$> draws)
      ++ conversations (ui w) ∧
    model (currentConversation (ui w')) = model (currentConversation (ui w)).
Proof.
  revert w. induction draws as [|[r n] draws IH]; intros w.
  - exists w. by cbn.
  - destruct (NewChat_step w r n) as (w1 & Hstep & Hcur & Hcs).
    destruct (IH w1) as (w' & Hrun & Hcs' & Hm').
    exists w'.
    change (run (newChats ((r, n) :: draws)) w)
      with (step (NewChat r n) w ≫= run (newChats draws)).
    rewrite Hstep.
    change (Some w1 ≫= run (newChats draws)) with (run (newChats draws) w1).
    split_and!.
    + exact Hrun.
    + rewrite Hcs', Hcs, Hcur, fmap_cons, reverse_cons, <- (assoc_L (++)). done.
    + rewrite Hm', Hcur. done.
Qed.

(** C2 (amended): after any series of "new chat" actions the conversation
    list holds the created conversations most recent first, followed by the
    conversations it held before, whatever the ids are.  The ids of the
    list are then pairwise distinct exactly when the ids that [generateId]
    returned and the ids the list held before are, taken together,
    pairwise distinct: the generated ids differ from each other and from
    the ids of the list, and the ids of the list differed from each
    other. *)
Theorem new_chats_most_recent_first (draws : list (jsstring * Z)) (w : World) :
  ∃ w', run (newChats draws) w = Some w' ∧
    conversations (ui w') =
      reverse (created (model (currentConversation (ui w))) <$> draws)
      ++ conversations (ui w) ∧
    (NoDup (ids (ui w')) ↔
     NoDup (((fun d => take 13 (drop 2 d.1)) <$> draws) ++ ids (ui w))).
Proof.
  destruct (run_newChats draws w) as (w' & Hrun & Hcs & _).
  exists w'. split_and!; [done..|].
  unfold ids. rewrite Hcs, fmap_app, fmap_reverse, <- list_fmap_compose.
  change (id ∘ created (model (currentConversation (ui w))))
    with (fun d : jsstring * Z => take 13 (drop 2 d.1)).
  by rewrite reverse_Permutation.
Qed.

(** *** Settings and the storage *)

Lemma asServerSettings_encode (s : ServerSettings) :
  asServerSettings (encodeServerSettings s) = Some s.
Proof. by destruct s. Qed.

Lemma storage_keys_differ : js "serverSettings" ≠ js "conversations".
Proof. done. Qed.

Lemma loadConversations_sets (ls : gmap jsstring jsstring) (ups : list Update) :
  loadConversations ls = Some ups →
  existsb isSetServerSettings ups = false ∧
  ∀ st, serverSettings (applyUpdates ups st) = serverSettings st ∧
        tempSettings (applyUpdates ups st) = tempSettings st.
Proof.
  unfold loadConversations. intros Hl.
  assert (ups = [] ∨ (∃ l, ups = [setConversations (fun _ => l)]) ∨
          ∃ l c, ups = [setConversations (fun _ => l); setCurrentConversation c])
    as Hcases.
  { destruct (ls !! js "conversations") as [saved|]; [|left; congruence].
    destruct (nonEmpty saved); [|left; congruence].
    destruct (JSON_parse saved) as [value|]; [|left; congruence].
    destruct (asConversations value) as [[|c l]|]; cbn in Hl; [| |done].
    - right; left. exists []. congruence.
    - right; right. exists (c :: l), c. congruence. }
  destruct Hcases as [->|[[l ->]|(l & c & ->)]]; (split; [done|]); by intros [].
Qed.

Lemma applyUpdates_app (ups1 ups2 : list Update) (st : State) :
  applyUpdates (ups1 ++ ups2) st = applyUpdates ups2 (applyUpdates ups1 st).
Proof. apply fold_left_app. Qed.

Lemma dark_sets (dark : bool) (st : State) :
  let ups := if dark then [setIsDarkMode true] else [] in
  serverSettings (applyUpdates ups st) = serverSettings st ∧
  tempSettings (applyUpdates ups st) = tempSettings st.
Proof. by destruct dark, st. Qed.

Lemma mount_unreadable_settings
    (random36 : jsstring) (now : Z) (dark : bool) (ls : gmap jsstring jsstring) :
  settingsUnreadable ls →
  is_Some (loadConversations ls) →
  ∃ w, mount random36 now dark ls = Some w ∧
       serverSettings (ui w) = defaultSettings ∧
       tempSettings (ui w) = defaultSettings.
Proof.
  intros Hu [cs Hcs]. unfold mount, initialize. rewrite Hcs. cbn.
  assert (loadServerSettings ls = Some []) as ->.
  { unfold loadServerSettings. destruct Hu as [->|(text & -> & ->)]; [done|].
    by destruct (nonEmpty text). }
  cbn. eexists. split; [reflexivity|]. cbn.
  rewrite app_nil_r, applyUpdates_app.
  destruct (loadConversations_sets _ _ Hcs) as [_ Hkeep].
  destruct (Hkeep (applyUpdates (if dark then [setIsDarkMode true] else [])
                     (initialState random36 now))) as [-> ->].
  destruct (dark_sets dark (initialState random36 now)) as [-> ->]. done.
Qed.

Lemma step_SaveSettings (w : World) :
  ∃ w1, step SaveSettings w = Some w1 ∧
    serverSettings (ui w1) = tempSettings (ui w) ∧
    localStorage w1 =
      <[js "serverSettings" :=
          JSON_stringify (encodeServerSettings (tempSettings (ui w)))]> (localStorage w).
Proof.
  destruct w as [[cur convs i l ms d mm sb so ss ts] ls].
  eexists. split; [reflexivity|]. by cbn.
Qed.

Lemma mount_readable_settings
    (random36 : jsstring) (now : Z) (dark : bool) (ls : gmap jsstring jsstring)
    (s : ServerSettings) :
  ls !! js "serverSettings" = Some (JSON_stringify (encodeServerSettings s)) →
  roundTrips (encodeServerSettings s) →
  is_Some (loadConversations ls) →
  ∃ w, mount random36 now dark ls = Some w ∧
       serverSettings (ui w) = s ∧ tempSettings (ui w) = s.
Proof.
  intros Hls [Hne Hrt] [cs Hcs]. unfold mount, initialize. rewrite Hcs.
  assert (loadServerSettings ls = Some [setServerSettings s; setTempSettings s]) as ->.
  { unfold loadServerSettings. rewrite Hls, Hne, Hrt, asServerSettings_encode. done. }
  eexists. split; [reflexivity|].
  unfold commit, ui. rewrite !applyUpdates_app.
  by destruct (applyUpdates cs _).
Qed.

Lemma save_then_mount
    (w : World) (random36 : jsstring) (now : Z) (dark : bool) :
  roundTrips (encodeServerSettings (tempSettings (ui w))) →
  is_Some (loadConversations (localStorage w)) →
  ∃ w1 w2,
    step SaveSettings w = Some w1 ∧
    serverSettings (ui w1) = tempSettings (ui w) ∧
    mount random36 now dark (localStorage w1) = Some w2 ∧
    serverSettings (ui w2) = tempSettings (ui w) ∧
    tempSettings (ui w2) = tempSettings (ui w).
Proof.
  intros Hrt Hcs.
  destruct (step_SaveSettings w) as (w1 & Hstep & Hss & Hls).
  destruct (mount_readable_settings random36 now dark (localStorage w1)
              (tempSettings (ui w))) as (w2 & Hmount & Hss2 & Hts2).
  - rewrite Hls. apply lookup_insert_eq.
  - done.
  - unfold loadConversations in *. rewrite Hls.
    by rewrite lookup_insert_ne by apply storage_keys_differ.
  - by exists w1, w2.
Qed.

Lemma request_after_choosing
    (w : World) (m text : jsstring) (now1 : Z) :
  nonEmpty (trim text) = true →
  nonEmpty m = true →
  ∃ w' req ups,
    run [ModelChange m; InputChange text] w = Some w' ∧
    handleSendMessage_begin (ui w') now1 = Some (req, ups) ∧
    url req =
      js "http://" ++ host (serverSettings (ui w)) ++ js ":" ++
      port (serverSettings (ui w)) ++ js "/v1/chat/completions".
Proof.
  intros Ht Hm.
  exists (commit [setInput text] (commit (handleModelChange (ui w) m) w)).
  destruct w as [[cur cs i l ms d mm sb so [h p] ts] ls].
  unfold handleSendMessage_begin. cbn -[trim js]. rewrite Ht, Hm.
  eexists _, _. split_and!; reflexivity.
Qed.

(** C8: settings that are saved are the settings of the component after a
    reload, and the ones its requests are then made with, when the
    platform's JSON reads back what it writes of them; with a settings
    entry that is missing or is not a JSON text, the component starts with
    host "localhost" and port "1234".  (The conversations entry is taken to
    hold a conversation list, or to be missing or unreadable.) *)
Theorem settings_round_trip
    (w : World) (random36 : jsstring) (now : Z) (dark : bool)
    (ls : gmap jsstring jsstring) :
  (roundTrips (encodeServerSettings (tempSettings (ui w))) →
   is_Some (loadConversations (localStorage w)) →
   ∃ w1 w2,
     step SaveSettings w = Some w1 ∧
     mount random36 now dark (localStorage w1) = Some w2 ∧
     serverSettings (ui w2) = tempSettings (ui w) ∧
     url (fetchModels (ui w2)) =
       js "http://" ++ host (tempSettings (ui w)) ++ js ":" ++
       port (tempSettings (ui w)) ++ js "/v1/models" ∧
     ∀ m text now1,
       nonEmpty (trim text) = true →
       nonEmpty m = true →
       ∃ w3 req ups,
         run [ModelChange m; InputChange text] w2 = Some w3 ∧
         handleSendMessage_begin (ui w3) now1 = Some (req, ups) ∧
         url req =
           js "http://" ++ host (tempSettings (ui w)) ++ js ":" ++
           port (tempSettings (ui w)) ++ js "/v1/chat/completions") ∧
  (settingsUnreadable ls →
   is_Some (loadConversations ls) →
   ∃ w0, mount random36 now dark ls = Some w0 ∧
         serverSettings (ui w0) = {| host := js "localhost"; port := js "1234" |}).
Proof.
  split.
  - intros Hrt Hcs.
    destruct (save_then_mount w random36 now dark Hrt Hcs)
      as (w1 & w2 & Hsave & _ & Hmount & Hss & _).
    exists w1, w2. split_and!; [done..| |].
    + unfold fetchModels. rewrite Hss. by destruct (tempSettings (ui w)).
    + intros m text now1 Ht Hm. rewrite <- Hss.
      by apply request_after_choosing.
  - intros Hu Hcs.
    destruct (mount_unreadable_settings random36 now dark ls Hu Hcs)
      as (w0 & Hmount & Hss & _).
    by exists w0.
Qed.

(** *** What a send appends *)

(** The error text of the [catch] branch. *)
Lemma send_rejected_appends_pair (w : World) (now1 now2 : Z) :
  nonEmpty (trim (input (ui w))) = true →
  nonEmpty (model (currentConversation (ui w))) = true →
  ∃ w', step (Send now1 Rejected now2) w = Some w' ∧
    messages (currentConversation (ui w')) =
      messages (currentConversation (ui w)) ++
      [{| role := user; content := input (ui w) |};
       {| role := assistant;
          content := js "Sorry, there was an error processing your request." |}] ∧
    timestamp (currentConversation (ui w')) = now2.
Proof.
  intros Hi Hm. cbn. unfold handleSendMessage, handleSendMessage_begin.
  rewrite Hi, Hm. cbn.
  destruct w as [[cur cs i l ms d mm sb so [h p] ts] ls]. cbn in *.
  eexists. split; [reflexivity|]. cbn. by rewrite <- (assoc_L (++)).
Qed.

(** A reply, when no title is derived. *)
Lemma send_resolved_appends_pair
    (w : World) (now1 now2 : Z) (data : json) (reply : jsstring) :
  nonEmpty (trim (input (ui w))) = true →
  nonEmpty (model (currentConversation (ui w))) = true →
  asString (aiResponse data) = Some reply →
  messages (currentConversation (ui w)) ≠ [] ∨
    title (currentConversation (ui w)) ≠ js "New Conversation" →
  ∃ w', step (Send now1 (Resolved data) now2) w = Some w' ∧
    messages (currentConversation (ui w')) =
      messages (currentConversation (ui w)) ++
      [{| role := user; content := input (ui w) |};
       {| role := assistant; content := reply |}] ∧
    timestamp (currentConversation (ui w')) = now2.
Proof.
  intros Hi Hm Hr Hno. cbn. unfold handleSendMessage, handleSendMessage_begin.
  rewrite Hi, Hm. cbn.
  destruct w as [[cur cs i l ms d mm sb so [h p] ts] ls]. cbn in *.
  unfold handleSendMessage_resume. rewrite Hr. cbn.
  assert (updateConversationTitle
            {| currentConversation := cur; conversations := cs; input := i;
               isLoading := l; models := ms; isDarkMode := d;
               isMobileMenuOpen := mm; isSidebarOpen := sb; isSettingsOpen := so;
               serverSettings := {| host := h; port := p |}; tempSettings := ts |}
            ((messages cur ++ [{| role := user; content := i |}]) ++
             [{| role := assistant; content := reply |}]) = []) as ->.
  { destruct Hno as [Hms|Ht]; [|by apply updateConversationTitle_by_value].
    apply updateConversationTitle_other_length. rewrite !length_app. cbn.
    destruct (messages cur); [done|]. cbn. lia. }
  eexists. split; [reflexivity|]. cbn. by rewrite <- (assoc_L (++)).
Qed.

(** The first reply of a conversation: the title is derived from the
    snapshot, and the conversation of the snapshot, with its empty message
    list and its old time stamp, replaces the one that held the exchange. *)
Lemma first_send_keeps_snapshot
    (w : World) (now1 now2 : Z) (data : json) (reply : jsstring) :
  messages (currentConversation (ui w)) = [] →
  title (currentConversation (ui w)) = js "New Conversation" →
  nonEmpty (trim (input (ui w))) = true →
  nonEmpty (model (currentConversation (ui w))) = true →
  asString (aiResponse data) = Some reply →
  ∃ w', step (Send now1 (Resolved data) now2) w = Some w' ∧
    messages (currentConversation (ui w')) = [] ∧
    timestamp (currentConversation (ui w')) = timestamp (currentConversation (ui w)).
Proof.
  intros Hms Ht Hi Hm Hr. cbn. unfold handleSendMessage, handleSendMessage_begin.
  rewrite Hi, Hm. cbn.
  destruct w as [[cur cs i l ms d mm sb so [h p] ts] ls]. cbn in *.
  unfold handleSendMessage_resume. rewrite Hr. cbn.
  unfold updateConversationTitle. cbn. rewrite Hms, Ht. cbn.
  eexists. split; [reflexivity|]. by cbn.
Qed.

(** The minimal component appends through [prev]: always a pair. *)
Lemma minimal_send_appends_pair
    (st : ChatInterface.State) (outcome : Outcome) (reply : jsstring) :
  nonEmpty (trim (ChatInterface.input st)) = true →
  nonEmpty (ChatInterface.selectedModel st) = true →
  match outcome with
  | Rejected => reply = js "Sorry, there was an error processing your request."
  | Resolved data => asString (aiResponse data) = Some reply
  end →
  ∃ req st', ChatInterface.handleSendMessage outcome st = Some (Some req, st') ∧
    ChatInterface.messages st' =
      ChatInterface.messages st ++
      [{| role := user; content := ChatInterface.input st |};
       {| role := assistant; content := reply |}].
Proof.
  intros Hi Hm Hr.
  unfold ChatInterface.handleSendMessage, ChatInterface.handleSendMessage_begin.
  rewrite Hi, Hm. cbn. destruct st as [msgs i l ms m]. cbn in *.
  destruct outcome as [|data]; cbn.
  - subst reply. eexists _, _. split; [reflexivity|]. cbn.
    by rewrite <- (assoc_L (++)).
  - rewrite Hr. cbn. eexists _, _. split; [reflexivity|]. cbn.
    by rewrite <- (assoc_L (++)).
Qed.

(** C10: when the reply's [choices[0].message.content] is the empty string,
    the content that is extracted is "No response from AI", as for a reply
    without the field.  In the minimal component the handler then appends
    an assistant message with this text to the message list, whatever the
    list is at that time.  In the enhanced component the handler makes
    active, and writes to the list, the conversation of its snapshot with
    the user's message and an assistant message with this text appended,
    before the title derivation and the end of loading; after the send the
    active conversation holds the messages it held and these two.  The
    first exchange of a conversation still titled "New Conversation" is
    left out of this last statement: there the title derivation puts the
    conversation of the snapshot back (the defect of C4). *)
Theorem empty_content_falls_back (data : json) :
  replyContent data = Some (JStr (js "")) →
  aiResponse data = JStr (js "No response from AI") ∧
  aiResponse data = aiResponse (JObj []) ∧
  (∃ ups, ChatInterface.handleSendMessage_resume (Resolved data) = Some ups ∧
     ∀ st, ChatInterface.messages (ChatInterface.applyUpdates ups st) =
           ChatInterface.messages st ++
           [{| role := assistant; content := js "No response from AI" |}]) ∧
  (∀ (snap : State) (now2 : Z),
     let final :=
       {| id := id (currentConversation snap);
          title := title (currentConversation snap);
          messages := messages (currentConversation snap) ++
            [{| role := user; content := input snap |};
             {| role := assistant; content := js "No response from AI" |}];
          model := model (currentConversation snap);
          timestamp := now2 |} in
     handleSendMessage_resume snap (Resolved data) now2 =
       Some ([setCurrentConversation final;
              setConversations (replaceById (id (currentConversation snap)) final)]
             ++ updateConversationTitle snap (messages final)
             ++ [setIsLoading false])) ∧
  (∀ (w : World) (now1 now2 : Z),
     nonEmpty (trim (input (ui w))) = true →
     nonEmpty (model (currentConversation (ui w))) = true →
     messages (currentConversation (ui w)) ≠ [] ∨
       title (currentConversation (ui w)) ≠ js "New Conversation" →
     ∃ w', step (Send now1 (Resolved data) now2) w = Some w' ∧
       messages (currentConversation (ui w')) =
         messages (currentConversation (ui w)) ++
         [{| role := user; content := input (ui w) |};
          {| role := assistant; content := js "No response from AI" |}] ∧
       timestamp (currentConversation (ui w')) = now2).
Proof.
  intros Hc.
  assert (Ha : aiResponse data = JStr (js "No response from AI")).
  { rewrite aiResponse_replyContent, Hc. reflexivity. }
  split_and!; [done | by rewrite Ha | | |].
  - unfold ChatInterface.handleSendMessage_resume. rewrite Ha. cbn.
    eexists. split; [reflexivity|]. by intros [].
  - intros snap now2 final. subst final.
    unfold handleSendMessage_resume. rewrite Ha.
    cbn -[js updateConversationTitle]. by rewrite <- (assoc_L (++)).
  - intros w now1 now2 Hi Hm Hno.
    apply send_resolved_appends_pair; [done..| |done]. by rewrite Ha.
Qed.

(** *** The active conversation and the list *)

Lemma send_keeps_ids (w w' : World) (now1 now2 : Z) (outcome : Outcome) :
  step (Send now1 outcome now2) w = Some w' →
  id (currentConversation (ui w')) = id (currentConversation (ui w)) ∧
  ids (ui w') = ids (ui w).
Proof.
  cbn. unfold handleSendMessage, handleSendMessage_begin.
  destruct (_ || _); cbn; [by intros [= <-]|].
  destruct w as [[cur cs i l ms d mm sb so [h p] ts] ls]. cbn.
  unfold handleSendMessage_resume, ids.
  destruct outcome as [|data]; cbn.
  - intros [= <-]. cbn. by rewrite !ids_replaceById.
  - destruct (asString (aiResponse data)) as [reply|]; cbn; [|done].
    unfold updateConversationTitle. cbn.
    destruct (_ && _); [destruct (_ !! _)|]; intros [= <-]; cbn;
      by rewrite !ids_replaceById.
Qed.

Lemma ModelsFetched_keeps_conversations (outcome : Outcome) (w w' : World) :
  step (ModelsFetched outcome) w = Some w' →
  currentConversation (ui w') = currentConversation (ui w) ∧
  conversations (ui w') = conversations (ui w).
Proof.
  cbn. destruct (fetchModels_then outcome) as [ups|] eqn:Hups; [|done].
  intros [= <-].
  assert (ups = [] ∨ ∃ v, ups = [setModels v]) as Hcases.
  { unfold fetchModels_then in Hups.
    destruct outcome as [|data]; [left; congruence|].
    destruct (getProp (js "data") data) as [[| | | |items|]|];
      try (left; congruence).
    destruct (existsb isNull items); [left; congruence|].
    destruct (mapM _ items) as [v|]; cbn in Hups; [|done].
    right. exists v. congruence. }
  destruct w as [[]]. by destruct Hcases as [->|[v ->]].
Qed.

(** Every action keeps the active conversation in the list once it is
    there, and "new chat" puts it there. *)
Lemma step_keeps_activeListed (e : Event) (w w' : World) :
  step e w = Some w' →
  activeListed (ui w) ∨ (∃ random36 now, e = NewChat random36 now) →
  activeListed (ui w').
Proof.
  unfold activeListed. intros Hstep Hpre.
  destruct e as [outcome|text|random36 now|i|now1 outcome now2|m|v|v|].
  - destruct Hpre as [Hin|(? & ? & ?)]; [|done].
    destruct (ModelsFetched_keeps_conversations _ _ _ Hstep) as [Hcur Hcs].
    unfold ids. by rewrite Hcur, Hcs.
  - destruct Hpre as [Hin|(? & ? & ?)]; [|done].
    injection Hstep as <-. by destruct w as [[]].
  - destruct (NewChat_step w random36 now) as (w1 & Hs & Hcur & Hcs).
    rewrite Hs in Hstep. injection Hstep as <-.
    unfold ids. rewrite Hcur, Hcs. cbn. apply list_elem_of_here.
  - destruct Hpre as [Hin|(? & ? & ?)]; [|done].
    destruct (decide (i ∈ ids (ui w))) as [Hi|Hi].
    + destruct (SwitchTo_present w i Hi)
        as (before & c & after & w1 & Hl & Hid & _ & Hs & Hcur & Hcs).
      rewrite Hs in Hstep. injection Hstep as <-.
      unfold ids in *. rewrite Hcur, Hcs, Hid. done.
    + rewrite (SwitchTo_absent w i Hi) in Hstep.
      by injection Hstep as <-.
  - destruct Hpre as [Hin|(? & ? & ?)]; [|done].
    destruct (send_keeps_ids _ _ _ _ _ Hstep) as [-> ->]. done.
  - destruct Hpre as [Hin|(? & ? & ?)]; [|done].
    injection Hstep as <-. destruct w as [[cur cs i l ms d mm sb so ss ts] ls].
    unfold ids in *. cbn in *. by rewrite ids_replaceById.
  - destruct Hpre as [Hin|(? & ? & ?)]; [|done].
    injection Hstep as <-. by destruct w as [[]].
  - destruct Hpre as [Hin|(? & ? & ?)]; [|done].
    injection Hstep as <-. by destruct w as [[]].
  - destruct Hpre as [Hin|(? & ? & ?)]; [|done].
    injection Hstep as <-. by destruct w as [[]].
Qed.

(** Without a "new chat" an empty list stays empty: what is done in the
    conversation of the first render reaches neither the list nor the
    storage. *)
Lemma step_keeps_empty_list (e : Event) (w w' : World) :
  step e w = Some w' →
  conversations (ui w) = [] →
  (∀ random36 now, e ≠ NewChat random36 now) →
  conversations (ui w') = [].
Proof.
  intros Hstep Hnil Hno.
  destruct e as [outcome|text|random36 now|i|now1 outcome now2|m|v|v|].
  - destruct (ModelsFetched_keeps_conversations _ _ _ Hstep) as [_ Hcs]. congruence.
  - injection Hstep as <-. by destruct w as [[]].
  - by destruct (Hno random36 now).
  - rewrite (SwitchTo_absent w i) in Hstep.
    + by injection Hstep as <-.
    + unfold ids. rewrite Hnil. apply not_elem_of_nil.
  - destruct (send_keeps_ids _ _ _ _ _ Hstep) as [_ Hids].
    unfold ids in Hids. rewrite Hnil in Hids.
    by destruct (conversations (ui w')).
  - injection Hstep as <-. destruct w as [[cur cs i l ms d mm sb so ss ts] ls].
    cbn in *. by subst cs.
  - injection Hstep as <-. by destruct w as [[]].
  - injection Hstep as <-. by destruct w as [[]].
  - injection Hstep as <-. by destruct w as [[]].
Qed.

(** The first render on an empty storage: no list entry for the active
    conversation. *)
Lemma mount_empty_storage (random36 : jsstring) (now : Z) (dark : bool) :
  ∃ w, mount random36 now dark ∅ = Some w ∧
       id (currentConversation (ui w)) = generateId random36 ∧
       conversations (ui w) = [] ∧
       ¬ activeListed (ui w).
Proof.
  eexists. split; [reflexivity|]. destruct dark; cbn.
  all: split_and!; [done..|]; unfold activeListed, ids; cbn; apply not_elem_of_nil.
Qed.

End Properties.

(** ** The reference platform reads back the settings it writes *)

Section ReferencePlatform.
Import ReferenceJSON.

Lemma hexValue_hexDigit (n : N) : (n < 16)%N → hexValue (hexDigit n) = Some n.
Proof.
  intros Hn. unfold hexDigit, hexValue.
  destruct (N.ltb_spec n 10).
  - replace ((48 <=? 48 + n) && (48 + n <=? 57))%N with true.
    + f_equal. lia.
    + symmetry. apply andb_true_intro. split; apply N.leb_le; lia.
  - replace ((48 <=? 87 + n) && (87 + n <=? 57))%N with false.
    + replace ((97 <=? 87 + n) && (87 + n <=? 102))%N with true.
      * f_equal. lia.
      * symmetry. apply andb_true_intro. split; apply N.leb_le; lia.
    + symmetry. apply andb_false_iff. right. apply N.leb_gt. lia.
Qed.

Lemma readString_escapeUnit (c : code_unit) (s acc : jsstring) :
  readString (escapeUnit c ++ s) acc = readString s (c :: acc).
Proof.
  unfold escapeUnit.
  destruct (N.eqb_spec c 34) as [->|H34]; [reflexivity|].
  destruct (N.eqb_spec c 92) as [->|H92]; [reflexivity|].
  destruct (N.eqb_spec c 8) as [->|H8]; [reflexivity|].
  destruct (N.eqb_spec c 9) as [->|H9]; [reflexivity|].
  destruct (N.eqb_spec c 10) as [->|H10]; [reflexivity|].
  destruct (N.eqb_spec c 12) as [->|H12]; [reflexivity|].
  destruct (N.eqb_spec c 13) as [->|H13]; [reflexivity|].
  destruct (N.ltb_spec c 32) as [Hlt|Hge].
  - change (readString ((js "\u00" ++ [hexDigit (c / 16); hexDigit (c mod 16)]) ++ s) acc)
      with (v1 ← hexValue (hexDigit (c / 16)); v2 ← hexValue (hexDigit (c mod 16));
            readString s ((((0 * 16 + 0) * 16 + v1) * 16 + v2)%N :: acc)).
    assert (c / 16 < 16)%N as Hd by (apply N.Div0.div_lt_upper_bound; lia).
    assert (c mod 16 < 16)%N as Hm by (apply N.mod_lt; lia).
    rewrite (hexValue_hexDigit _ Hd), (hexValue_hexDigit _ Hm).
    cbn [mbind option_bind]. do 2 f_equal. pose proof (N.div_mod c 16). lia.
  - cbn [app readString].
    destruct (N.eqb_spec c 34); [done|]. destruct (N.eqb_spec c 92); [done|].
    destruct (N.ltb_spec c 32); [lia|]. reflexivity.
Qed.

Lemma readString_quoted (s rest acc : jsstring) :
  readString (concat (escapeUnit <$> s) ++ 34%N :: rest) acc = Some (reverse acc ++ s, rest).
Proof.
  revert acc. induction s as [|c s IH]; intros acc.
  - cbn. by rewrite app_nil_r.
  - rewrite fmap_cons. cbn [concat]. rewrite <- (assoc_L (++)), readString_escapeUnit, IH.
    by rewrite reverse_cons, <- (assoc_L (++)).
Qed.


Lemma quote_app (s rest : jsstring) :
  quote s ++ rest = 34%N :: concat (escapeUnit <$> s) ++ 34%N :: rest.
Proof. unfold quote. by rewrite <- !(assoc_L (++)). Qed.

Lemma readValue_string (fuel : nat) (s rest : jsstring) :
  readValue (S fuel) (quote s ++ rest) = Some (JStr s, rest).
Proof.
  rewrite quote_app.
  change (readValue (S fuel) (34%N :: concat (escapeUnit <$> s) ++ 34%N :: rest))
    with ('(str, rest') ← readString (concat (escapeUnit <$> s) ++ 34%N :: rest) [];
          Some (JStr str, rest')).
  by rewrite readString_quoted.
Qed.

Lemma readMembers_string (fuel : nat) (k s rest : jsstring) (acc : list (jsstring * json)) :
  readMembers (S (S fuel)) (quote k ++ 58%N :: quote s ++ rest) acc =
  match skipWs rest with
  | 44%N :: rest' => readMembers (S fuel) rest' (setField k (JStr s) acc)
  | 125%N :: rest' => Some (setField k (JStr s) acc, rest')
  | _ => None
  end.
Proof.
  rewrite (quote_app k).
  change (readMembers (S (S fuel)) (34%N :: concat (escapeUnit <$> k) ++ 34%N :: 58%N :: quote s ++ rest) acc)
    with ('(k', rest1) ← readString (concat (escapeUnit <$> k) ++ 34%N :: 58%N :: quote s ++ rest) [];
          match skipWs rest1 with
          | 58%N :: rest2 =>
              '(v, rest3) ← readValue (S fuel) rest2;
              match skipWs rest3 with
              | 44%N :: rest' => readMembers (S fuel) rest' (setField k' v acc)
              | 125%N :: rest' => Some (setField k' v acc, rest')
              | _ => None
              end
          | _ => None
          end).
  rewrite readString_quoted.
  change (('(v, rest3) ← readValue (S fuel) (quote s ++ rest);
          match skipWs rest3 with
          | 44%N :: rest' => readMembers (S fuel) rest' (setField k v acc)
          | 125%N :: rest' => Some (setField k v acc, rest')
          | _ => None
          end) = match skipWs rest with
  | 44%N :: rest' => readMembers (S fuel) rest' (setField k (JStr s) acc)
  | 125%N :: rest' => Some (setField k (JStr s) acc, rest')
  | _ => None
  end).
  by rewrite readValue_string.
Qed.

Lemma stringify_settings (s : ServerSettings) :
  stringify (encodeServerSettings s) =
  123%N :: quote (js "host") ++ 58%N :: quote (host s) ++
  44%N :: quote (js "port") ++ 58%N :: quote (port s) ++ [125%N].
Proof.
  change (stringify (encodeServerSettings s))
    with ([123%N] ++ ((quote (js "host") ++ [58%N] ++ quote (host s)) ++ [44%N] ++
                      (quote (js "port") ++ [58%N] ++ quote (port s))) ++ [125%N]).
  by rewrite <- !(assoc_L (++)).
Qed.

Lemma readValue_settings (fuel : nat) (s : ServerSettings) :
  readValue (S (S (S (S fuel)))) (stringify (encodeServerSettings s)) =
  Some (encodeServerSettings s, []).
Proof.
  rewrite stringify_settings.
  change (readValue (S (S (S (S fuel)))) (123%N :: quote (js "host") ++ 58%N :: quote (host s) ++
             44%N :: quote (js "port") ++ 58%N :: quote (port s) ++ [125%N]))
    with ('(fields, rest') ← readMembers (S (S (S fuel))) (quote (js "host") ++ 58%N :: quote (host s) ++
             44%N :: quote (js "port") ++ 58%N :: quote (port s) ++ [125%N]) [];
          Some (JObj fields, rest')).
  rewrite readMembers_string.
  change (skipWs (44%N :: quote (js "port") ++ 58%N :: quote (port s) ++ [125%N]))
    with (44%N :: quote (js "port") ++ 58%N :: quote (port s) ++ [125%N]).
  cbv iota beta.
  rewrite readMembers_string.
  reflexivity.
Qed.

Lemma parse_settings (s : ServerSettings) :
  parse (stringify (encodeServerSettings s)) = Some (encodeServerSettings s).
Proof.
  unfold parse.
  assert (∃ fuel, (2 * length (stringify (encodeServerSettings s)) + 2 =
                   S (S (S (S fuel))))%nat) as [fuel ->].
  { destruct (stringify (encodeServerSettings s)) as [|c text] eqn:E.
    - by rewrite stringify_settings in E.
    - exists (2 * length text)%nat. cbn [length]. lia. }
  by rewrite readValue_settings.
Qed.

Lemma reference_roundTrips (s : ServerSettings) :
  roundTrips (encodeServerSettings s).
Proof.
  split; [by rewrite stringify_settings | apply parse_settings].
Qed.

(** On the reference platform the saved settings are the settings after a
    reload, whatever they are. *)
Corollary reference_settings_reload
    (w : World) (random36 : jsstring) (now : Z) (dark : bool) :
  is_Some (loadConversations (localStorage w)) →
  ∃ w1 w2,
    step SaveSettings w = Some w1 ∧
    mount random36 now dark (localStorage w1) = Some w2 ∧
    serverSettings (ui w2) = tempSettings (ui w).
Proof.
  intros Hcs.
  destruct (save_then_mount w random36 now dark (reference_roundTrips _) Hcs)
    as (w1 & w2 & Hsave & _ & Hmount & Hss & _).
  by exists w1, w2.
Qed.

End ReferencePlatform.

(** ** The properties on concrete runs *)

Section Runs.
Import ReferenceJSON Examples.

(** Closes a goal about closed terms by evaluating them. *)
Ltac evaluate :=
  first [ reflexivity
        | vm_compute; reflexivity
        | apply (bool_decide_unpack _); vm_compute; exact I ].

(** C1: the conversation of the first render is not in the conversation
    list: mounted on an empty storage, the component has an active
    conversation and an empty list, and choosing a model and sending a
    message in that conversation changes the active conversation only; the
    list, and with it the stored list, stay empty. *)
Theorem startup_conversation_unlisted :
  mount (js "0.k3j9x2m1p") 1000 false ∅ = Some mounted ∧
  ¬ activeListed (ui mounted) ∧
  ∃ w, startupChat = Some w ∧
    id (currentConversation (ui w)) = js "k3j9x2m1p" ∧
    messages (currentConversation (ui w)) =
      [{| role := user; content := js "hello" |};
       {| role := assistant;
          content := js "Sorry, there was an error processing your request." |}] ∧
    conversations (ui w) = [] ∧
    ¬ activeListed (ui w) ∧
    localStorage w !! js "conversations" = Some (js "[]").
Proof.
  split; [evaluate|]. split; [evaluate|].
  eexists. split; [evaluate|]. split_and!; evaluate.
Qed.

(** C2 (as stated, refuted): two "new chat" actions for which [Math.random]
    yields the same number create two conversations with the same id. *)
Lemma new_chats_same_token_same_id :
  ∃ w, run (newChats sameToken) mounted = Some w ∧
       ids (ui w) = [js "4fzyo82mvy"; js "4fzyo82mvy"] ∧
       ¬ NoDup (ids (ui w)).
Proof.
  eexists. split; [evaluate|]. split; evaluate.
Qed.

Lemma new_chats_most_recent_first_witness :
  ∃ w', run (newChats otherTokens) mounted = Some w' ∧
    conversations (ui w') =
      reverse (created (model (currentConversation (ui mounted))) <$> otherTokens)
      ++ conversations (ui mounted) ∧
    NoDup (ids (ui w')).
Proof.
  destruct (new_chats_most_recent_first otherTokens mounted)
    as (w' & Hrun & Hcs & Hnd).
  exists w'. split_and!; [exact Hrun | exact Hcs |].
  apply Hnd. evaluate.
Defined.

(** C6 (as stated, refuted): the id of a new conversation is not always a
    fresh one: with two chats in the list, a "new chat" for which
    [Math.random] yields the number it yielded for the first of them
    creates a conversation whose id is the id of that chat. *)
Lemma new_chat_id_in_use :
  ∃ w', step (NewChat (js "0.4fzyo82mvy") 1700) twoChats = Some w' ∧
    id (currentConversation (ui w')) = js "4fzyo82mvy" ∧
    id (currentConversation (ui w')) ∈ ids (ui twoChats) ∧
    ids (ui w') = [js "4fzyo82mvy"; js "9x1cb05f3k"; js "4fzyo82mvy"] ∧
    ¬ NoDup (ids (ui w')).
Proof.
  eexists. split; [evaluate|]. split_and!; evaluate.
Qed.

Lemma startNewChat_creates_witness :
  ∃ w', step (NewChat (js "0.m3anwh1le") 1700) twoChats = Some w' ∧
    currentConversation (ui w') =
      {| id := js "m3anwh1le"; title := js "New Conversation"; messages := [];
         model := js ""; timestamp := 1700 |} ∧
    conversations (ui w') = currentConversation (ui w') :: conversations (ui twoChats) ∧
    (∀ c, c ∈ conversations (ui twoChats) → id c ≠ id (currentConversation (ui w'))) ∧
    NoDup (ids (ui w')).
Proof.
  destruct (startNewChat_creates twoChats (js "0.m3anwh1le") 1700)
    as (w' & Hstep & Hcur & Hcs & Hfresh).
  destruct Hfresh as [Hnew Hnd]; [evaluate|].
  exists w'. split_and!; [exact Hstep | exact Hcur | by rewrite Hcur | exact Hnew |].
  apply Hnd. evaluate.
Defined.

(** C4: the first exchange of a conversation is not kept: in a new chat
    with a model chosen, sending "hi" and receiving "hello" leaves the
    active conversation, and its list entry, with the derived title, no
    message and the time stamp it had before. *)
Theorem first_exchange_drops_messages :
  run [NewChat (js "0.7p2q8r") 1500; ModelChange (js "llama"); InputChange (js "hi")]
    mounted = Some beforeFirstSend ∧
  activeListed (ui beforeFirstSend) ∧
  messages (currentConversation (ui beforeFirstSend)) = [] ∧
  timestamp (currentConversation (ui beforeFirstSend)) = 1500%Z ∧
  ∃ req w,
    handleSendMessage 2000 (Resolved (reply (js "hello"))) 3000 beforeFirstSend
      = Some (Some req, w) ∧
    currentConversation (ui w) =
      {| id := js "7p2q8r"; title := js "hi"; messages := [];
         model := js "llama"; timestamp := 1500 |} ∧
    conversations (ui w) = [currentConversation (ui w)] ∧
    localStorage w !! js "conversations" =
      Some (JSON_stringify (JArr [encodeConversation (currentConversation (ui w))])).
Proof.
  split_and!; [evaluate..|].
  eexists _, _. split; [evaluate|]. split_and!; evaluate.
Qed.

Lemma title_auto_derivation_witness :
  (∃ first, exchange !! 0%nat = Some first ∧
     ∀ st, let st' := applyUpdates
                        (updateConversationTitle (ui beforeFirstSend) exchange) st in
       title (currentConversation st') = specTitle (content first) ∧
       id (currentConversation st') = id (currentConversation (ui beforeFirstSend)) ∧
       conversations st' =
         replaceById (id (currentConversation (ui beforeFirstSend)))
           (currentConversation st') (conversations st)) ∧
  specTitle longMessage = js "What is the capital of France,..." ∧
  (∃ w', step (Send 2000 (Resolved (reply (js "hello"))) 3000) beforeFirstSend = Some w' ∧
         title (currentConversation (ui w')) = specTitle (input (ui beforeFirstSend))) ∧
  (∀ msgs', updateConversationTitle (ui titled) msgs' = []) ∧
  (∃ w', step (Send 4000 (Resolved (reply (js "Spain."))) 5000) titled = Some w' ∧
         title (currentConversation (ui w')) = js "hi").
Proof.
  destruct (title_auto_derivation (ui beforeFirstSend) exchange)
    as (_ & Hsets & Hfirst & _ & _).
  destruct (title_auto_derivation (ui titled) exchange)
    as (_ & _ & _ & Hvalue & Hkeeps).
  split_and!.
  - apply Hsets; evaluate.
  - evaluate.
  - apply (Hfirst beforeFirstSend 2000%Z 3000%Z (reply (js "hello")) (js "hello"));
      evaluate.
  - apply Hvalue. evaluate.
  - eexists. split; [evaluate|].
    refine (Hkeeps titled _ 4000%Z 5000%Z (Resolved (reply (js "Spain."))) _ _);
      evaluate.
Defined.

Lemma completion_request_single_message_witness :
  (∃ ups, handleSendMessage_begin (ui titled) 4000 =
     Some ({| url := js "http://localhost:1234/v1/chat/completions";
              method := js "POST";
              headers := [(js "Content-Type", js "application/json")];
              body := Some (JSON_stringify
                        (singleMessageBody (js "llama")
                           (js "and what is the capital of the country next to it?"))) |},
           ups)) ∧
  (∃ ups, ChatInterface.handleSendMessage_begin
            {| ChatInterface.messages := exchange;
               ChatInterface.input := js "and of Italy?";
               ChatInterface.isLoading := false;
               ChatInterface.models := [js "llama"];
               ChatInterface.selectedModel := js "llama" |} =
     Some ({| url := js "http://localhost:1234/v1/chat/completions";
              method := js "POST";
              headers := [(js "Content-Type", js "application/json")];
              body := Some (JSON_stringify
                        (singleMessageBody (js "llama") (js "and of Italy?"))) |},
           ups)).
Proof.
  destruct (@completion_request_single_message platform) as [Henhanced Hminimal].
  split.
  - refine (proj1 (Henhanced (ui titled) 4000%Z _ _)); evaluate.
  - refine (proj1 (Hminimal
       {| ChatInterface.messages := exchange;
          ChatInterface.input := js "and of Italy?";
          ChatInterface.isLoading := false;
          ChatInterface.models := [js "llama"];
          ChatInterface.selectedModel := js "llama" |} _ _)); evaluate.
Defined.

Lemma switchConversation_spec_witness :
  step (SwitchTo (js "k3j9x2m1p")) twoChats = Some twoChats ∧
  ∃ before c after w',
    conversations (ui twoChats) = before ++ c :: after ∧
    id c = js "4fzyo82mvy" ∧ (js "4fzyo82mvy" ∉ id <$> before) ∧
    step (SwitchTo (js "4fzyo82mvy")) twoChats = Some w' ∧
    currentConversation (ui w') = c ∧
    conversations (ui w') = conversations (ui twoChats).
Proof.
  split.
  - apply (proj1 (switchConversation_spec twoChats (js "k3j9x2m1p"))). evaluate.
  - apply (proj2 (switchConversation_spec twoChats (js "4fzyo82mvy"))). evaluate.
Defined.

Lemma settings_round_trip_witness :
  (∃ w1 w2,
     step SaveSettings settingsEdited = Some w1 ∧
     mount (js "0.u5d0c1") 9000 false (localStorage w1) = Some w2 ∧
     serverSettings (ui w2) = {| host := js "example.com"; port := js "8080" |} ∧
     url (fetchModels (ui w2)) = js "http://example.com:8080/v1/models" ∧
     ∃ w3 req ups,
       run [ModelChange (js "llama"); InputChange (js "hi")] w2 = Some w3 ∧
       handleSendMessage_begin (ui w3) 9500 = Some (req, ups) ∧
       url req = js "http://example.com:8080/v1/chat/completions") ∧
  (∃ w0, mount (js "0.u5d0c1") 9000 false brokenStorage = Some w0 ∧
         serverSettings (ui w0) = {| host := js "localhost"; port := js "1234" |}).
Proof.
  destruct (settings_round_trip settingsEdited (js "0.u5d0c1") 9000 false brokenStorage)
    as [Hsaved Hbroken].
  split.
  - destruct Hsaved as (w1 & w2 & Hsave & Hmount & Hss & Hmodels & Hsend).
    + split; evaluate.
    + eexists. evaluate.
    + exists w1, w2. split_and!; [exact Hsave | exact Hmount | exact Hss | exact Hmodels |].
      apply (Hsend (js "llama") (js "hi") 9500%Z); evaluate.
  - apply Hbroken.
    + right. eexists. split; evaluate.
    + eexists. evaluate.
Defined.

Lemma send_without_model_is_noop_witness :
  input (ui MoreExamples.typedWithoutModel) = js "hi" ∧
  (handleSendMessage 2000 (Resolved (reply (js "hello"))) 3000
     MoreExamples.typedWithoutModel
     = Some (None, MoreExamples.typedWithoutModel) ∧
   step (Send 2000 (Resolved (reply (js "hello"))) 3000) MoreExamples.typedWithoutModel
     = Some MoreExamples.typedWithoutModel) ∧
  ChatInterface.handleSendMessage (Resolved (reply (js "hello")))
    (ChatInterface.applyUpdate ChatInterface.initialState
       (ChatInterface.setInput (js "hi")))
  = Some (None, ChatInterface.applyUpdate ChatInterface.initialState
                  (ChatInterface.setInput (js "hi"))).
Proof.
  split; [evaluate|].
  destruct (send_without_model_is_noop MoreExamples.typedWithoutModel
              (ChatInterface.applyUpdate ChatInterface.initialState
                 (ChatInterface.setInput (js "hi")))
              2000 3000 (Resolved (reply (js "hello")))) as [Henhanced Hminimal].
  split; [apply Henhanced | apply Hminimal]; evaluate.
Defined.

Lemma empty_content_falls_back_witness :
  replyContent emptyReply = Some (JStr (js "")) ∧
  aiResponse emptyReply = JStr (js "No response from AI") ∧
  (∃ ups, ChatInterface.handleSendMessage_resume (Resolved emptyReply) = Some ups ∧
     ∀ st, ChatInterface.messages (ChatInterface.applyUpdates ups st) =
           ChatInterface.messages st ++
           [{| role := assistant; content := js "No response from AI" |}]) ∧
  (∃ rest,
     handleSendMessage_resume (ui beforeFirstSend) (Resolved emptyReply) 3000 =
       Some (setCurrentConversation
               {| id := js "7p2q8r"; title := js "New Conversation";
                  messages := [{| role := user; content := js "hi" |};
                               {| role := assistant;
                                  content := js "No response from AI" |}];
                  model := js "llama"; timestamp := 3000 |} :: rest) ∧
     length rest = 4%nat) ∧
  ∃ w', step (Send 4000 (Resolved emptyReply) 5000) titled = Some w' ∧
    messages (currentConversation (ui w')) =
      [{| role := user; content := js "hi" |};
       {| role := assistant; content := js "hello" |};
       {| role := user;
          content := js "and what is the capital of the country next to it?" |};
       {| role := assistant; content := js "No response from AI" |}] ∧
    timestamp (currentConversation (ui w')) = 5000%Z.
Proof.
  assert (replyContent emptyReply = Some (JStr (js ""))) as Hc by evaluate.
  split; [exact Hc|].
  destruct (empty_content_falls_back emptyReply Hc)
    as (Ha & _ & Hminimal & Hqueue & Henhanced).
  split; [exact Ha|]. split; [exact Hminimal|]. split.
  - eexists. split; [exact (Hqueue (ui beforeFirstSend) 3000%Z)|]. evaluate.
  - apply (Henhanced titled 4000%Z 5000%Z); [evaluate | evaluate |].
    right. evaluate.
Defined.

End Runs.

(** ** Further properties: the storage *)

Import Invariants.

Section Storage.
Context `{JSONPlatform}.

Lemma applyUpdates_keeps_conversations (ups : list Update) (st : State) :
  existsb isSetConversations ups = false →
  conversations (applyUpdates ups st) = conversations st.
Proof.
  revert st. induction ups as [|u ups IH]; intros st Hno; [done|].
  cbn in Hno. apply orb_false_elim in Hno as [Hu Hups].
  change (applyUpdates (u :: ups) st) with (applyUpdates ups (applyUpdate st u)).
  rewrite (IH _ Hups). by destruct u, st.
Qed.

Lemma applyUpdates_keeps_serverSettings (ups : list Update) (st : State) :
  existsb isSetServerSettings ups = false →
  serverSettings (applyUpdates ups st) = serverSettings st.
Proof.
  revert st. induction ups as [|u ups IH]; intros st Hno; [done|].
  cbn in Hno. apply orb_false_elim in Hno as [Hu Hups].
  change (applyUpdates (u :: ups) st) with (applyUpdates ups (applyUpdate st u)).
  rewrite (IH _ Hups). by destruct u, st.
Qed.

Lemma commit_persisted (ups : list Update) (w : World) :
  persisted w → persisted (commit ups w).
Proof.
  destruct w as [st ls]. unfold persisted, commit, runEffects.
  unfold ui, localStorage. intros [Hcs Hss].
  destruct (existsb isSetConversations ups) eqn:Ec;
    destruct (existsb isSetServerSettings ups) eqn:Es;
    unfold saveConversations, saveServerSettings.
  - split.
    + rewrite lookup_insert_ne by apply storage_keys_differ. apply lookup_insert_eq.
    + apply lookup_insert_eq.
  - split.
    + apply lookup_insert_eq.
    + rewrite lookup_insert_ne by (symmetry; apply storage_keys_differ).
      by rewrite applyUpdates_keeps_serverSettings.
  - split.
    + rewrite lookup_insert_ne by apply storage_keys_differ.
      by rewrite applyUpdates_keeps_conversations.
    + apply lookup_insert_eq.
  - by rewrite applyUpdates_keeps_conversations, applyUpdates_keeps_serverSettings.
Qed.

Lemma mount_persisted
    (random36 : jsstring) (now : Z) (dark : bool) (ls : gmap jsstring jsstring)
    (w : World) :
  mount random36 now dark ls = Some w → persisted w.
Proof.
  unfold mount. destruct (initialize dark ls) as [ups|]; [|done].
  intros [= <-]. apply commit_persisted.
  unfold persisted, saveServerSettings, saveConversations. cbn [localStorage ui].
  split.
  - rewrite lookup_insert_ne by apply storage_keys_differ. apply lookup_insert_eq.
  - apply lookup_insert_eq.
Qed.

Lemma step_persisted (e : Event) (w w' : World) :
  step e w = Some w' → persisted w → persisted w'.
Proof.
  intros Hstep Hp.
  destruct e as [outcome|text|random36 now|i|now1 outcome now2|m|v|v|];
    cbn in Hstep.
  - destruct (fetchModels_then outcome); [|done].
    injection Hstep as <-. by apply commit_persisted.
  - injection Hstep as <-. by apply commit_persisted.
  - injection Hstep as <-. by apply commit_persisted.
  - injection Hstep as <-. by apply commit_persisted.
  - unfold handleSendMessage in Hstep.
    destruct (handleSendMessage_begin (ui w) now1) as [[req ups1]|].
    + destruct (handleSendMessage_resume (ui w) outcome now2) as [ups2|]; [|done].
      injection Hstep as <-. by do 2 apply commit_persisted.
    + by injection Hstep as <-.
  - injection Hstep as <-. by apply commit_persisted.
  - injection Hstep as <-. by apply commit_persisted.
  - injection Hstep as <-. by apply commit_persisted.
  - injection Hstep as <-. by apply commit_persisted.
Qed.

Lemma run_persisted (es : list Event) (w w' : World) :
  run es w = Some w' → persisted w → persisted w'.
Proof.
  revert w. induction es as [|e es IH]; intros w Hrun Hp.
  - by injection Hrun as <-.
  - cbn in Hrun. destruct (step e w) as [w1|] eqn:Hstep; [|done].
    eapply IH; [exact Hrun|]. by eapply step_persisted.
Qed.

End Storage.

(** ** Further properties: reloading *)

Section Reload.
Context `{JSONPlatform}.

Lemma asMessage_encode (m : Message) : asMessage (encodeMessage m) = Some m.
Proof. by destruct m as [[] c]. Qed.

Lemma asMessages_encode (ms : list Message) :
  asMessages (JArr (encodeMessage <$> ms)) = Some ms.
Proof. unfold asMessages. cbn. apply mapM_fmap_Some, asMessage_encode. Qed.

Lemma asConversation_encode (c : Conversation) :
  asConversation (encodeConversation c) = Some c.
Proof.
  destruct c as [i t ms m ts]. unfold asConversation, encodeConversation.
  cbn [id title messages model timestamp].
  rewrite !jsstring_eqb_refl. cbn [andb asString asNumber mbind option_bind].
  by rewrite asMessages_encode.
Qed.

Lemma asConversations_encode (cs : list Conversation) :
  asConversations (JArr (encodeConversation <$> cs)) = Some cs.
Proof. unfold asConversations. cbn. apply mapM_fmap_Some, asConversation_encode. Qed.

(** The casts take nothing but what the encoders give: the record is the
    stored object, key for key and in the stored order. *)

Lemma asString_exact (v : json) (s : jsstring) : asString v = Some s → v = JStr s.
Proof. destruct v; cbn; congruence. Qed.

Lemma asNumber_exact (v : json) (z : Z) : asNumber v = Some z → v = JNum z.
Proof. destruct v; cbn; congruence. Qed.

Lemma asRole_exact (v : json) (r : Role) : asRole v = Some r → v = encodeRole r.
Proof.
  unfold asRole. destruct v as [| | |s| |]; cbn -[js]; try done.
  destruct (jsstring_eqb s (js "user")) eqn:Hu.
  { apply jsstring_eqb_eq in Hu. intros [= <-]. by rewrite Hu. }
  destruct (jsstring_eqb s (js "assistant")) eqn:Ha; [|done].
  apply jsstring_eqb_eq in Ha. intros [= <-]. by rewrite Ha.
Qed.

Lemma asMessage_exact (v : json) (m : Message) :
  asMessage v = Some m → encodeMessage m = v.
Proof.
  unfold asMessage.
  destruct v as [| | | | |[|[k1 v1] [|[k2 v2] [|]]]]; try done.
  destruct (jsstring_eqb k1 (js "role")) eqn:H1; [|done].
  destruct (jsstring_eqb k2 (js "content")) eqn:H2; [|done].
  apply jsstring_eqb_eq in H1, H2. subst k1 k2. cbn [andb].
  destruct (asRole v1) as [r|] eqn:Hr; [|done].
  destruct (asString v2) as [c|] eqn:Hc; [|done].
  intros [= <-]. apply asRole_exact in Hr. apply asString_exact in Hc.
  by subst.
Qed.

Lemma mapM_exact {A} (cast : json → option A) (encode : A → json) :
  (∀ v a, cast v = Some a → encode a = v) →
  ∀ l xs, mapM cast l = Some xs → encode <$> xs = l.
Proof.
  intros Hexact l xs Hl. apply mapM_Some in Hl.
  induction Hl as [|v a l xs Hv _ IH]; [done|].
  cbn. by rewrite (Hexact _ _ Hv), IH.
Qed.

Lemma asMessages_exact (v : json) (ms : list Message) :
  asMessages v = Some ms → JArr (encodeMessage <$> ms) = v.
Proof.
  unfold asMessages. destruct v as [| | | |l|]; try done. cbn.
  intros Hl. f_equal. by apply (mapM_exact asMessage), Hl; apply asMessage_exact.
Qed.

Lemma asConversation_exact (v : json) (c : Conversation) :
  asConversation v = Some c → encodeConversation c = v.
Proof.
  unfold asConversation.
  destruct v as [| | | | |[|[k1 v1] [|[k2 v2] [|[k3 v3] [|[k4 v4] [|[k5 v5] [|]]]]]]];
    try done.
  destruct (jsstring_eqb k1 (js "id")) eqn:H1; [|done].
  destruct (jsstring_eqb k2 (js "title")) eqn:H2; [|done].
  destruct (jsstring_eqb k3 (js "messages")) eqn:H3; [|done].
  destruct (jsstring_eqb k4 (js "model")) eqn:H4; [|done].
  destruct (jsstring_eqb k5 (js "timestamp")) eqn:H5; [|done].
  apply jsstring_eqb_eq in H1, H2, H3, H4, H5. subst k1 k2 k3 k4 k5. cbn [andb].
  destruct (asString v1) as [i|] eqn:Hi; [|done].
  destruct (asString v2) as [t|] eqn:Ht; [|done].
  destruct (asMessages v3) as [ms|] eqn:Hms; [|done].
  destruct (asString v4) as [m|] eqn:Hm; [|done].
  destruct (asNumber v5) as [ts|] eqn:Hts; [|done].
  intros [= <-]. apply asString_exact in Hi, Ht, Hm.
  apply asMessages_exact in Hms. apply asNumber_exact in Hts.
  unfold encodeConversation. cbn [id title messages model timestamp].
  by subst.
Qed.

Lemma asConversations_exact (v : json) (cs : list Conversation) :
  asConversations v = Some cs → JArr (encodeConversation <$> cs) = v.
Proof.
  unfold asConversations. destruct v as [| | | |l|]; try done. cbn.
  intros Hl. f_equal. by apply (mapM_exact asConversation), Hl; apply asConversation_exact.
Qed.

Lemma asServerSettings_exact (v : json) (s : ServerSettings) :
  asServerSettings v = Some s → encodeServerSettings s = v.
Proof.
  unfold asServerSettings.
  destruct v as [| | | | |[|[k1 v1] [|[k2 v2] [|]]]]; try done.
  destruct (jsstring_eqb k1 (js "host")) eqn:H1; [|done].
  destruct (jsstring_eqb k2 (js "port")) eqn:H2; [|done].
  apply jsstring_eqb_eq in H1, H2. subst k1 k2. cbn [andb].
  destruct (asString v1) as [h|] eqn:Hh; [|done].
  destruct (asString v2) as [p|] eqn:Hp; [|done].
  intros [= <-]. apply asString_exact in Hh, Hp. by subst.
Qed.

Lemma loadServerSettings_sets (ls : gmap jsstring jsstring) (ups : list Update) :
  loadServerSettings ls = Some ups →
  ups = [] ∨ ∃ parsed, ups = [setServerSettings parsed; setTempSettings parsed].
Proof.
  unfold loadServerSettings.
  destruct (ls !! js "serverSettings") as [saved|]; [|left; congruence].
  destruct (nonEmpty saved); [|left; congruence].
  destruct (JSON_parse saved) as [value|]; [|left; congruence].
  destruct (asServerSettings value) as [parsed|]; cbn; [|done].
  right. exists parsed. congruence.
Qed.

(** X2: a reload brings back what the storage mirrors: the conversation
    list and the server settings are the ones the component had, and the
    active conversation is the first one of the list, whichever was active
    before; with an empty list it is the conversation of the first render.
    (The platform's JSON is taken to read back the two texts it wrote.) *)
Theorem reload_restores
    (w : World) (random36 : jsstring) (now : Z) (dark : bool) :
  persisted w →
  roundTrips (JArr (encodeConversation <$> conversations (ui w))) →
  roundTrips (encodeServerSettings (serverSettings (ui w))) →
  ∃ w', mount random36 now dark (localStorage w) = Some w' ∧
    conversations (ui w') = conversations (ui w) ∧
    serverSettings (ui w') = serverSettings (ui w) ∧
    currentConversation (ui w') =
      match conversations (ui w) with
      | first :: _ => first
      | [] => currentConversation (initialState random36 now)
      end.
Proof.
  intros [Hcs Hss] [Hne1 Hrt1] [Hne2 Hrt2].
  unfold mount, initialize, loadConversations, loadServerSettings.
  rewrite Hcs, Hss, Hne1, Hne2, Hrt1, Hrt2.
  rewrite asConversations_encode, asServerSettings_encode.
  eexists. split; [reflexivity|].
  unfold commit. cbn [ui].
  destruct (conversations (ui w)) as [|first rest], dark; by cbn.
Qed.

(** X3: a conversations entry that is missing or is not a JSON text is
    left aside: the component starts with an empty conversation list and
    the conversation of its first render. *)
Theorem mount_without_conversations
    (random36 : jsstring) (now : Z) (dark : bool) (ls : gmap jsstring jsstring) :
  conversationsUnreadable ls →
  is_Some (loadServerSettings ls) →
  ∃ w, mount random36 now dark ls = Some w ∧
    conversations (ui w) = [] ∧
    currentConversation (ui w) =
      {| id := generateId random36; title := js "New Conversation";
         messages := []; model := js ""; timestamp := now |}.
Proof.
  intros Hu [ss Hss]. unfold mount, initialize. rewrite Hss.
  assert (loadConversations ls = Some []) as ->.
  { unfold loadConversations. destruct Hu as [->|(text & -> & ->)]; [done|].
    by destruct (nonEmpty text). }
  eexists. split; [reflexivity|].
  unfold commit. cbn [ui].
  destruct (loadServerSettings_sets _ _ Hss) as [->|[parsed ->]];
    by destruct dark.
Qed.

End Reload.

(** ** Further properties: sending *)

Section Sending.
Context `{JSONPlatform}.

Lemma trimStart_blank (s : jsstring) : blank s → trimStart s = [].
Proof. induction 1 as [|c s Hc _ IH]; [done|]. cbn. by rewrite Hc. Qed.

Lemma trimStart_nil (s : jsstring) : trimStart s = [] → blank s.
Proof.
  induction s as [|c s IH]; [constructor|].
  cbn. destruct (isWhiteSpace c) eqn:Hc; [|done].
  intros Hs. constructor; [done|]. by apply IH.
Qed.

Lemma trimStart_head (s r : jsstring) (c : code_unit) :
  trimStart s = c :: r → isWhiteSpace c = false.
Proof.
  induction s as [|c' s IH]; [done|].
  cbn. destruct (isWhiteSpace c') eqn:Hc; [done|]. by intros [= <- _].
Qed.

Lemma trim_blank (s : jsstring) : nonEmpty (trim s) = false ↔ blank s.
Proof.
  unfold trim. split.
  - intros Hn.
    destruct (reverse (trimStart (reverse (trimStart s)))) as [|c r] eqn:E; [|done].
    apply (f_equal reverse) in E. rewrite reverse_involutive in E.
    apply trimStart_nil in E. unfold blank in E. rewrite Forall_reverse in E.
    destruct (trimStart s) as [|c r] eqn:Es; [by apply trimStart_nil|].
    apply trimStart_head in Es. apply Forall_cons in E as [Hc _]. congruence.
  - intros Hb. by rewrite (trimStart_blank _ Hb).
Qed.

(** X4: a send is given up, with no request and no change of state or
    storage, exactly when the input is empty or white space only, or no
    model is selected; this holds in both components. *)
Theorem send_proceeds_iff (snap : State) (st : ChatInterface.State) (now1 : Z) :
  (handleSendMessage_begin snap now1 = None ↔
   blank (input snap) ∨ model (currentConversation snap) = []) ∧
  (ChatInterface.handleSendMessage_begin st = None ↔
   blank (ChatInterface.input st) ∨ ChatInterface.selectedModel st = []) ∧
  (∀ w now2 outcome,
     blank (input (ui w)) → handleSendMessage now1 outcome now2 w = Some (None, w)) ∧
  (∀ outcome,
     blank (ChatInterface.input st) →
     ChatInterface.handleSendMessage outcome st = Some (None, st)).
Proof.
  assert (∀ i m : jsstring,
            negb (nonEmpty (trim i)) || negb (nonEmpty m) = true ↔ blank i ∨ m = [])
    as Hguard.
  { intros i m. rewrite orb_true_iff, !negb_true_iff, trim_blank.
    destruct m as [|c m]; cbn.
    - split; intros _; by right.
    - split; (intros [?|?]; [by left|done]). }
  split_and!.
  - unfold handleSendMessage_begin. rewrite <- Hguard.
    destruct (_ || _); [done|]. by destruct (serverSettings snap).
  - unfold ChatInterface.handleSendMessage_begin. rewrite <- Hguard.
    by destruct (_ || _).
  - intros w now2 outcome Hb. unfold handleSendMessage, handleSendMessage_begin.
    apply trim_blank in Hb. by rewrite Hb.
  - intros outcome Hb.
    unfold ChatInterface.handleSendMessage, ChatInterface.handleSendMessage_begin.
    apply trim_blank in Hb. by rewrite Hb.
Qed.

Lemma replaceById_twice (i : jsstring) (a b : Conversation) (l : list Conversation) :
  id a = i → replaceById i b (replaceById i a l) = replaceById i b l.
Proof.
  intros Ha. unfold replaceById. rewrite List.map_map. apply List.map_ext.
  intros c. destruct (jsstring_eqb (id c) i) eqn:E; [|by rewrite E].
  subst i. by rewrite jsstring_eqb_refl.
Qed.

Lemma replaceById_other (i : jsstring) (r c : Conversation) (l : list Conversation) (k : nat) :
  l !! k = Some c → id c ≠ i → replaceById i r l !! k = Some c.
Proof.
  intros Hk Hne. unfold replaceById.
  change (List.map ?f l) with (f <$> l). rewrite list_lookup_fmap, Hk. cbn.
  apply jsstring_eqb_neq in Hne. by rewrite Hne.
Qed.

Lemma replaceById_same (i : jsstring) (r c : Conversation) (l : list Conversation) (k : nat) :
  l !! k = Some c → id c = i → replaceById i r l !! k = Some r.
Proof.
  intros Hk He. unfold replaceById.
  change (List.map ?f l) with (f <$> l). rewrite list_lookup_fmap, Hk. cbn.
  apply jsstring_eqb_eq in He. by rewrite He.
Qed.

Lemma replaceById_length (i : jsstring) (r : Conversation) (l : list Conversation) :
  length (replaceById i r l) = length l.
Proof. unfold replaceById. apply length_map. Qed.

Lemma replaceById_lookup
    (i : jsstring) (r c : Conversation) (l : list Conversation) (k : nat) :
  l !! k = Some c →
  replaceById i r l !! k = Some (if bool_decide (id c = i) then r else c).
Proof.
  intros Hk. case_bool_decide as He.
  - by apply (replaceById_same _ _ c).
  - by apply replaceById_other.
Qed.

Lemma elem_of_replaceById (i : jsstring) (r c : Conversation) (l : list Conversation) :
  c ∈ replaceById i r l → c = r ∨ (c ∈ l ∧ id c ≠ i).
Proof.
  unfold replaceById. change (List.map ?f l) with (f <$> l).
  intros (c0 & Hc & Hin)%list_elem_of_fmap.
  destruct (jsstring_eqb (id c0) i) eqn:E; [by left|].
  apply jsstring_eqb_neq in E. right. by subst c.
Qed.

(** X5: a send that goes on leaves the conversation list as it was, entry
    by entry, except that every entry with the id of the active
    conversation becomes the new active conversation: no entry is added,
    removed or moved, and the conversations with another id are not
    touched. *)
Theorem send_replaces_by_id
    (w : World) (now1 now2 : Z) (outcome : Outcome) :
  nonEmpty (trim (input (ui w))) = true →
  nonEmpty (model (currentConversation (ui w))) = true →
  typedReply outcome →
  ∃ w', step (Send now1 outcome now2) w = Some w' ∧
    id (currentConversation (ui w')) = id (currentConversation (ui w)) ∧
    length (conversations (ui w')) = length (conversations (ui w)) ∧
    (∀ k c, conversations (ui w) !! k = Some c →
            id c = id (currentConversation (ui w)) →
            conversations (ui w') !! k = Some (currentConversation (ui w'))) ∧
    (∀ k c, conversations (ui w) !! k = Some c →
            id c ≠ id (currentConversation (ui w)) →
            conversations (ui w') !! k = Some c).
Proof.
  intros Hi Hm Ht.
  assert (∃ w', step (Send now1 outcome now2) w = Some w' ∧
    id (currentConversation (ui w')) = id (currentConversation (ui w)) ∧
    conversations (ui w') =
      replaceById (id (currentConversation (ui w))) (currentConversation (ui w'))
        (conversations (ui w))) as (w' & Hstep & Hid & Hcs).
  { cbn. unfold handleSendMessage, handleSendMessage_begin. rewrite Hi, Hm. cbn.
    destruct w as [[cur cs i l ms d mm sb so [h p] ts] ls]. cbn in *.
    unfold handleSendMessage_resume.
    destruct outcome as [|data]; cbn.
    - eexists. split; [reflexivity|]. cbn. split; [done|].
      by rewrite replaceById_twice.
    - destruct Ht as [reply Hr]. rewrite Hr. cbn.
      unfold updateConversationTitle. cbn.
      destruct (_ && _); [destruct (_ !! _)|];
        (eexists; split; [reflexivity|]; cbn; split; [done|]);
        by rewrite !replaceById_twice. }
  exists w'. split_and!; [done..| | |].
  - rewrite Hcs. apply replaceById_length.
  - intros k c Hk He. rewrite Hcs. by apply (replaceById_same _ _ c).
  - intros k c Hk Hne. rewrite Hcs. by apply replaceById_other.
Qed.

(** X6: while the request of a send is pending the input is empty, and the
    text input and the submit button are disabled; when the handler ends,
    on a reply or on a failure, the loading flag is off again and the
    input is still empty, so that the submit button stays disabled until
    the user types. *)
Theorem send_disables_controls
    (w : World) (now1 now2 : Z) (outcome : Outcome) :
  nonEmpty (trim (input (ui w))) = true →
  nonEmpty (model (currentConversation (ui w))) = true →
  typedReply outcome →
  ∃ req ups1 w',
    handleSendMessage_begin (ui w) now1 = Some (req, ups1) ∧
    input (ui (commit ups1 w)) = [] ∧
    View.inputDisabled (ui (commit ups1 w)) = true ∧
    View.submitDisabled (ui (commit ups1 w)) = true ∧
    step (Send now1 outcome now2) w = Some w' ∧
    isLoading (ui w') = false ∧
    input (ui w') = [] ∧
    View.inputDisabled (ui w') = false ∧
    View.submitDisabled (ui w') = true.
Proof.
  intros Hi Hm Ht.
  assert (∃ w', step (Send now1 outcome now2) w = Some w' ∧
            isLoading (ui w') = false ∧ input (ui w') = [] ∧
            View.inputDisabled (ui w') = false ∧
            View.submitDisabled (ui w') = true) as (w' & Hstep & Hfinal).
  { cbn. unfold handleSendMessage, handleSendMessage_begin. rewrite Hi, Hm.
    destruct w as [[cur cs i l ms d mm sb so [h p] ts] ls]. cbn -[js] in *.
    unfold View.inputDisabled, View.submitDisabled, handleSendMessage_resume.
    destruct outcome as [|data]; cbn -[js].
    - eexists. split; [reflexivity|]. cbn. by rewrite Hm.
    - destruct Ht as [reply Hr]. rewrite Hr. cbn -[js].
      unfold updateConversationTitle. cbn -[js].
      destruct (_ && _); [destruct (_ !! _)|];
        (eexists; split; [reflexivity|]; cbn; by rewrite Hm). }
  unfold handleSendMessage_begin. rewrite Hi, Hm.
  destruct w as [[cur cs i l ms d mm sb so [h p] ts] ls].
  eexists _, _, w'. split; [reflexivity|].
  unfold View.inputDisabled, View.submitDisabled. cbn -[js].
  by do 4 (split; [done|]).
Qed.

End Sending.

(** ** Further properties: the conversation list *)

Section Conversations.
Context `{JSONPlatform}.

Lemma replaceById_elem (i : jsstring) (r : Conversation) (l : list Conversation) :
  i ∈ (id <$> l) → r ∈ replaceById i r l.
Proof.
  induction l as [|c l IH]; [by intros ?%elem_of_nil|].
  cbn. destruct (jsstring_eqb (id c) i) eqn:E.
  - intros _. apply list_elem_of_here.
  - apply jsstring_eqb_neq in E. intros [?|Hin]%elem_of_cons; [congruence|].
    apply list_elem_of_further. by apply IH.
Qed.

Lemma mirrored_listed (st : State) : activeMirrored st → activeListed st.
Proof. intros Hm. unfold activeListed, ids. by apply list_elem_of_fmap_2. Qed.

(** What a send does to the active conversation and to the list. *)
Lemma send_result (w w' : World) (now1 now2 : Z) (outcome : Outcome) :
  step (Send now1 outcome now2) w = Some w' →
  w' = w ∨
  (id (currentConversation (ui w')) = id (currentConversation (ui w)) ∧
   conversations (ui w') =
     replaceById (id (currentConversation (ui w))) (currentConversation (ui w'))
       (conversations (ui w))).
Proof.
  cbn. unfold handleSendMessage, handleSendMessage_begin.
  destruct (_ || _); cbn -[js]; [intros [= <-]; by left|].
  destruct w as [[cur cs i l ms d mm sb so [h p] ts] ls]. cbn -[js].
  unfold handleSendMessage_resume.
  destruct outcome as [|data]; cbn -[js].
  - intros [= <-]. right. cbn. split; [done|]. by rewrite replaceById_twice.
  - destruct (asString (aiResponse data)) as [reply|]; cbn -[js]; [|done].
    unfold updateConversationTitle. cbn -[js].
    destruct (_ && _); [destruct (_ !! _)|]; intros [= <-]; right; cbn;
      (split; [done|]); by rewrite !replaceById_twice.
Qed.

Lemma step_keeps_activeMirrored (e : Event) (w w' : World) :
  step e w = Some w' →
  activeMirrored (ui w) ∨ (∃ random36 now, e = NewChat random36 now) →
  activeMirrored (ui w').
Proof.
  unfold activeMirrored. intros Hstep Hpre.
  destruct e as [outcome|text|random36 now|i|now1 outcome now2|m|v|v|].
  - destruct Hpre as [Hin|(? & ? & ?)]; [|done].
    destruct (ModelsFetched_keeps_conversations _ _ _ Hstep) as [-> ->]. done.
  - destruct Hpre as [Hin|(? & ? & ?)]; [|done].
    injection Hstep as <-. by destruct w as [[]].
  - destruct (NewChat_step w random36 now) as (w1 & Hs & Hcur & Hcs).
    rewrite Hs in Hstep. injection Hstep as <-.
    rewrite Hcur, Hcs. apply list_elem_of_here.
  - destruct Hpre as [Hin|(? & ? & ?)]; [|done].
    destruct (decide (i ∈ ids (ui w))) as [Hi|Hi].
    + destruct (SwitchTo_present w i Hi)
        as (before & c & after & w1 & Hl & Hid & _ & Hs & Hcur & Hcs).
      rewrite Hs in Hstep. injection Hstep as <-.
      rewrite Hcur, Hcs, Hl. apply elem_of_app. right. apply list_elem_of_here.
    + rewrite (SwitchTo_absent w i Hi) in Hstep. by injection Hstep as <-.
  - destruct Hpre as [Hin|(? & ? & ?)]; [|done].
    destruct (send_result _ _ _ _ _ Hstep) as [->|[Hid Hcs]]; [done|].
    rewrite Hcs. apply replaceById_elem. by apply (mirrored_listed (ui w)).
  - destruct Hpre as [Hin|(? & ? & ?)]; [|done].
    injection Hstep as <-. apply mirrored_listed in Hin as Hl.
    destruct w as [[cur cs i l ms d mm sb so ss ts] ls].
    unfold activeListed, ids in *. cbn in *. by apply replaceById_elem.
  - destruct Hpre as [Hin|(? & ? & ?)]; [|done].
    injection Hstep as <-. by destruct w as [[]].
  - destruct Hpre as [Hin|(? & ? & ?)]; [|done].
    injection Hstep as <-. by destruct w as [[]].
  - destruct Hpre as [Hin|(? & ? & ?)]; [|done].
    injection Hstep as <-. by destruct w as [[]].
Qed.

Lemma find_unique (c : Conversation) (l : list Conversation) :
  NoDup (id <$> l) → c ∈ l →
  List.find (fun c' => jsstring_eqb (id c') (id c)) l = Some c.
Proof.
  induction l as [|c' l IH]; [by intros _ ?%elem_of_nil|].
  rewrite fmap_cons. intros [Hnot Hnd]%NoDup_cons [->|Hin]%elem_of_cons; cbn.
  - by rewrite jsstring_eqb_refl.
  - destruct (jsstring_eqb (id c') (id c)) eqn:E; [|by apply IH].
    apply jsstring_eqb_eq in E. destruct Hnot. rewrite E.
    by apply list_elem_of_fmap_2.
Qed.

(** X8: a new chat does not lose the conversation that was active: when
    the ids are distinct and the active conversation is in the list,
    opening a new chat and then selecting the former conversation makes it
    active again as it was, below the new one in the list. *)
Theorem new_chat_then_back (w : World) (random36 : jsstring) (now : Z) :
  activeMirrored (ui w) →
  NoDup (generateId random36 :: ids (ui w)) →
  ∃ w', run [NewChat random36 now; SwitchTo (id (currentConversation (ui w)))] w
          = Some w' ∧
    currentConversation (ui w') = currentConversation (ui w) ∧
    conversations (ui w') =
      created (model (currentConversation (ui w))) (random36, now)
      :: conversations (ui w).
Proof.
  intros Hm [Hfresh Hnd]%NoDup_cons.
  destruct w as [[cur cs i l ms d mm sb so ss ts] ls].
  unfold activeMirrored, ids in *. cbn -[js generateId] in *.
  unfold switchConversation. cbn -[js generateId].
  assert (jsstring_eqb (generateId random36) (id cur) = false) as ->.
  { apply jsstring_eqb_neq. intros E. apply Hfresh. rewrite E.
    by apply list_elem_of_fmap_2. }
  rewrite (find_unique cur cs Hnd Hm). eexists. split; [reflexivity|]. by cbn.
Qed.

(** X9: choosing a model changes the model of the active conversation and
    nothing else of it; every list entry with its id becomes this
    conversation, the other entries stay as they are, none is added or
    removed; the next message is sent to this model, and the
    conversations that are opened afterwards start with it. *)
Theorem model_change_carries_over
    (w : World) (m random36 : jsstring) (now : Z) :
  ∃ w1 w2,
    step (ModelChange m) w = Some w1 ∧
    currentConversation (ui w1) =
      {| id := id (currentConversation (ui w));
         title := title (currentConversation (ui w));
         messages := messages (currentConversation (ui w));
         model := m;
         timestamp := timestamp (currentConversation (ui w)) |} ∧
    length (conversations (ui w1)) = length (conversations (ui w)) ∧
    (∀ k c, conversations (ui w) !! k = Some c →
       conversations (ui w1) !! k =
         Some (if bool_decide (id c = id (currentConversation (ui w)))
               then currentConversation (ui w1) else c)) ∧
    (∀ text now1,
       nonEmpty (trim text) = true → nonEmpty m = true →
       ∃ w1' req ups,
         step (InputChange text) w1 = Some w1' ∧
         handleSendMessage_begin (ui w1') now1 = Some (req, ups) ∧
         body req = Some (JSON_stringify (singleMessageBody m text))) ∧
    step (NewChat random36 now) w1 = Some w2 ∧
    model (currentConversation (ui w2)) = m ∧
    messages (currentConversation (ui w2)) = [].
Proof.
  destruct w as [[cur cs i l ms d mm sb so [h p] ts] ls].
  eexists _, _. split; [reflexivity|]. cbn -[js trim].
  split_and!; [reflexivity | apply replaceById_length | | | reflexivity..].
  - intros k c Hk. by apply replaceById_lookup.
  - intros text now1 Ht Hm. eexists _, _, _. split; [reflexivity|].
    unfold handleSendMessage_begin. cbn -[js trim]. rewrite Ht, Hm.
    split; reflexivity.
Qed.

End Conversations.

(** ** Further properties: settings, models, pending requests *)

Section Services.
Context `{JSONPlatform}.

Lemma commit_keeps_settings (ups : list Update) (w : World) :
  existsb isSetServerSettings ups = false →
  serverSettings (ui (commit ups w)) = serverSettings (ui w) ∧
  localStorage (commit ups w) !! js "serverSettings" =
    localStorage w !! js "serverSettings".
Proof.
  intros Hno. destruct w as [st ls]. unfold commit, runEffects.
  unfold ui, localStorage. rewrite Hno. split.
  - by apply applyUpdates_keeps_serverSettings.
  - destruct (existsb isSetConversations ups); [|done].
    unfold saveConversations.
    by rewrite lookup_insert_ne by (symmetry; apply storage_keys_differ).
Qed.

Lemma begin_sets_no_settings (snap : State) (now1 : Z) (req : Request) (ups : list Update) :
  handleSendMessage_begin snap now1 = Some (req, ups) →
  existsb isSetServerSettings ups = false.
Proof.
  unfold handleSendMessage_begin. destruct (_ || _); [done|].
  destruct (serverSettings snap). by intros [= _ <-].
Qed.

Lemma resume_sets_no_settings (snap : State) (outcome : Outcome) (now2 : Z) (ups : list Update) :
  handleSendMessage_resume snap outcome now2 = Some ups →
  existsb isSetServerSettings ups = false.
Proof.
  unfold handleSendMessage_resume. destruct outcome as [|data].
  - by intros [= <-].
  - destruct (asString (aiResponse data)) as [reply|]; cbn -[js]; [|done].
    unfold updateConversationTitle.
    destruct (_ && _); [destruct (_ !! _)|]; by intros [= <-].
Qed.

Lemma fetchModels_then_sets (outcome : Outcome) (ups : list Update) :
  fetchModels_then outcome = Some ups →
  ups = [] ∨ ∃ v, ups = [setModels v].
Proof.
  unfold fetchModels_then. destruct outcome as [|data]; [left; congruence|].
  destruct (getProp (js "data") data) as [[| | | |items|]|];
    try (left; congruence).
  destruct (existsb isNull items); [left; congruence|].
  destruct (mapM _ items) as [v|]; cbn; [|done].
  right. exists v. congruence.
Qed.

(** X10: the server settings in use, and their storage entry, change only
    when the settings form is saved: typing in the form, and every other
    action, leave them as they are; saving puts the form's values in use,
    keeps them in the form and closes the form. *)
Theorem settings_change_only_on_save (e : Event) (w w' : World) :
  step e w = Some w' →
  (e ≠ SaveSettings →
   serverSettings (ui w') = serverSettings (ui w) ∧
   localStorage w' !! js "serverSettings" = localStorage w !! js "serverSettings") ∧
  (e = SaveSettings →
   serverSettings (ui w') = tempSettings (ui w) ∧
   tempSettings (ui w') = tempSettings (ui w) ∧
   isSettingsOpen (ui w') = false).
Proof.
  intros Hstep. split.
  - intros Hne.
    destruct e as [outcome|text|random36 now|i|now1 outcome now2|m|v|v|];
      cbn -[js] in Hstep; [| | | | | | | |done].
    + destruct (fetchModels_then outcome) as [ups|] eqn:Hups; [|done].
      injection Hstep as <-. apply commit_keeps_settings.
      by destruct (fetchModels_then_sets _ _ Hups) as [->|[v ->]].
    + injection Hstep as <-. by apply commit_keeps_settings.
    + injection Hstep as <-. by apply commit_keeps_settings.
    + injection Hstep as <-. apply commit_keeps_settings.
      unfold switchConversation. by destruct (List.find _ _).
    + unfold handleSendMessage in Hstep.
      destruct (handleSendMessage_begin (ui w) now1) as [[req ups1]|] eqn:Hb.
      * destruct (handleSendMessage_resume (ui w) outcome now2) as [ups2|] eqn:Hr;
          [|done].
        injection Hstep as <-.
        destruct (commit_keeps_settings ups2 (commit ups1 w)
                    (resume_sets_no_settings _ _ _ _ Hr)) as [-> ->].
        apply commit_keeps_settings. by eapply begin_sets_no_settings.
      * by injection Hstep as <-.
    + injection Hstep as <-. by apply commit_keeps_settings.
    + injection Hstep as <-. by apply commit_keeps_settings.
    + injection Hstep as <-. by apply commit_keeps_settings.
  - intros ->. injection Hstep as <-. by destruct w as [[]].
Qed.

Lemma modelList_has_no_null (modelIds : list jsstring) :
  existsb isNull
    ((fun i => JObj [(js "id", JStr i); (js "object", JStr (js "model"))])
     <$> modelIds) = false.
Proof. induction modelIds as [|i l IH]; [done|]. by rewrite fmap_cons. Qed.

Lemma fetchModels_then_modelList (modelIds : list jsstring) :
  fetchModels_then (Resolved (modelList modelIds)) = Some [setModels modelIds].
Proof.
  unfold fetchModels_then.
  assert (getProp (js "data") (modelList modelIds) =
          Some (JArr ((fun i => JObj [(js "id", JStr i);
                                      (js "object", JStr (js "model"))])
                      <$> modelIds))) as -> by reflexivity.
  rewrite modelList_has_no_null.
  by rewrite (mapM_fmap_Some (field "id" asString)
                (fun i => JObj [(js "id", JStr i); (js "object", JStr (js "model"))])).
Qed.



(** What the continuation of a send leaves, whatever the state is that
    its queue is applied to. *)
Lemma resume_final (snap : State) (outcome : Outcome) (now2 : Z) (reply : jsstring) :
  Pending.replyText outcome reply →
  ∃ ups2, handleSendMessage_resume snap outcome now2 = Some ups2 ∧
    ∀ st,
      currentConversation (applyUpdates ups2 st) =
        Pending.sender snap outcome reply now2 ∧
      conversations (applyUpdates ups2 st) =
        replaceById (id (currentConversation snap))
          (Pending.sender snap outcome reply now2) (conversations st) ∧
      isLoading (applyUpdates ups2 st) = false.
Proof.
  intros Hr. unfold handleSendMessage_resume, Pending.sender.
  destruct outcome as [|data]; cbn -[js] in *.
  - subst reply. eexists. split; [reflexivity|].
    intros st. destruct st. cbn -[js]. unfold Pending.withExchange.
    by rewrite <- (assoc_L (++)).
  - rewrite Hr. cbn -[js]. unfold Pending.firstExchange.
    destruct (messages (currentConversation snap)) as [|m0 rest] eqn:Hms.
    + destruct (jsstring_eqb (title (currentConversation snap))
                  (js "New Conversation")) eqn:Ht.
      * unfold updateConversationTitle. cbn -[js]. rewrite Ht. cbn -[js].
        eexists. split; [reflexivity|].
        intros st. destruct st. cbn -[js]. unfold Pending.withTitleOnly.
        by rewrite replaceById_twice, deriveTitle_specTitle, Hms.
      * apply jsstring_eqb_neq in Ht.
        rewrite (updateConversationTitle_by_value _ _ Ht).
        eexists. split; [reflexivity|].
        intros st. destruct st. cbn -[js]. unfold Pending.withExchange.
        by rewrite Hms.
    + rewrite updateConversationTitle_other_length
        by (rewrite !length_app; cbn; lia).
      eexists. split; [reflexivity|].
      intros st. destruct st. cbn -[js]. unfold Pending.withExchange.
      by rewrite Hms, <- (assoc_L (++)).
Qed.

Lemma resume_typed (snap : State) (outcome : Outcome) (now2 : Z) (ups2 : list Update) :
  handleSendMessage_resume snap outcome now2 = Some ups2 →
  ∃ reply, Pending.replyText outcome reply.
Proof.
  unfold handleSendMessage_resume. destruct outcome as [|data]; cbn -[js].
  - intros _. by eexists.
  - destruct (asString (aiResponse data)) as [reply|]; [|done]. by exists reply.
Qed.

(** X12: when other actions take place while a request is pending, the
    answer is written over them.  The conversation of the render in which
    the message was submitted becomes the active one again: with the
    user's message, the assistant's message (the error text when the
    request failed) and the time of the answer, or, when it had no message
    and the title "New Conversation" and a reply came, with the title of
    the message and nothing else changed.  Every entry of the list with
    its id is replaced by it, the other entries stay as the actions in
    between left them, and the loading flag is off. *)
Theorem reply_reactivates_sender
    (w w1 : World) (now1 now2 : Z) (between : list Event) (outcome : Outcome)
    (req : Request) (ups1 : list Update) (reply : jsstring) :
  handleSendMessage_begin (ui w) now1 = Some (req, ups1) →
  run between (commit ups1 w) = Some w1 →
  Pending.replyText outcome reply →
  ∃ w', Pending.sendInterleaved now1 between outcome now2 w = Some w' ∧
    currentConversation (ui w') =
      match outcome with
      | Rejected => Pending.withExchange (ui w) reply now2
      | Resolved _ =>
          if Pending.firstExchange (ui w) then Pending.withTitleOnly (ui w)
          else Pending.withExchange (ui w) reply now2
      end ∧
    length (conversations (ui w')) = length (conversations (ui w1)) ∧
    (∀ k c, conversations (ui w1) !! k = Some c →
       conversations (ui w') !! k =
         Some (if bool_decide (id c = id (currentConversation (ui w)))
               then currentConversation (ui w') else c)) ∧
    isLoading (ui w') = false.
Proof.
  intros Hb Hrun Hr. unfold Pending.sendInterleaved. rewrite Hb. cbn -[js].
  rewrite Hrun. cbn -[js].
  destruct (resume_final (ui w) outcome now2 reply Hr) as (ups2 & -> & Hfinal).
  cbn -[js]. eexists. split; [reflexivity|]. cbn -[js].
  destruct (Hfinal (ui w1)) as (-> & -> & ->).
  split_and!; [done | apply replaceById_length | | done].
  intros k c Hk. by apply replaceById_lookup.
Qed.

Lemma sendInterleaved_nil (w : World) (now1 now2 : Z) (outcome : Outcome) :
  Pending.sendInterleaved now1 [] outcome now2 w = step (Send now1 outcome now2) w.
Proof.
  unfold Pending.sendInterleaved. cbn. unfold handleSendMessage.
  destruct (handleSendMessage_begin (ui w) now1) as [[req ups1]|]; [|done].
  cbn. by destruct (handleSendMessage_resume (ui w) outcome now2).
Qed.

End Services.

(** ** Further properties: ids, titles and the controls *)

Section Bounds.

(** X13: a derived title has at most 33 characters and starts with the
    first 30 characters of the message; a message of at most 30 characters
    is the title as it is, a longer one gives a title of exactly 33. *)
Theorem deriveTitle_bounds (m : jsstring) :
  (length (deriveTitle m) ≤ 33)%nat ∧
  take 30 (deriveTitle m) = take 30 m ∧
  ((length m ≤ 30)%nat → deriveTitle m = m) ∧
  ((30 < length m)%nat → length (deriveTitle m) = 33%nat).
Proof.
  unfold deriveTitle. rewrite substring_from_0.
  destruct (Nat.ltb_spec 30 (length m)) as [Hlong|Hshort].
  - assert (length (take 30 m) = 30%nat) as Hl by (rewrite length_take; lia).
    split_and!.
    + rewrite length_app, Hl. cbn. lia.
    + rewrite take_app_le by lia. rewrite take_take. f_equal.
    + lia.
    + intros _. rewrite length_app, Hl. reflexivity.
  - split_and!; [lia|done|done|lia].
Qed.

(** X14: an id has at most 13 characters: the characters of the random
    number's base-36 text after the first two; a text of at most two
    characters (the number 0 is written "0") gives the empty id. *)
Theorem generateId_bounds (random36 : jsstring) :
  generateId random36 = take 13 (drop 2 random36) ∧
  (length (generateId random36) ≤ 13)%nat ∧
  ((length random36 ≤ 2)%nat ↔ generateId random36 = []).
Proof.
  assert (generateId random36 = take 13 (drop 2 random36)) as Hid by reflexivity.
  split; [done|]. rewrite Hid. split.
  - rewrite length_take. lia.
  - split.
    + intros Hl. by rewrite drop_ge.
    + intros Hnil.
      assert (length (take 13 (drop 2 random36)) = 0%nat) as Hl by (by rewrite Hnil).
      rewrite length_take, length_drop in Hl. lia.
Qed.

Lemma selected_none (i : jsstring) (l : list Conversation) :
  i ∉ (id <$> l) →
  (fun c => jsstring_eqb i (id c)) <$> l = replicate (length l) false.
Proof.
  induction l as [|c l IH]; [done|].
  rewrite fmap_cons. intros [Hne Hnot]%not_elem_of_cons. cbn.
  rewrite (IH Hnot). f_equal. by apply jsstring_eqb_neq.
Qed.

Lemma selected_one (i : jsstring) (l : list Conversation) :
  NoDup (id <$> l) → i ∈ (id <$> l) →
  ∃ k, (k < length l)%nat ∧
    (fun c => jsstring_eqb i (id c)) <$> l =
    replicate k false ++ true :: replicate (length l - S k) false.
Proof.
  induction l as [|c l IH]; [by intros _ ?%elem_of_nil|].
  rewrite fmap_cons. intros [Hfresh Hnd]%NoDup_cons Hin.
  destruct (decide (i = id c)) as [->|Hne].
  - exists 0%nat. cbn. split; [lia|]. rewrite jsstring_eqb_refl, Nat.sub_0_r.
    f_equal. by apply selected_none.
  - apply elem_of_cons in Hin as [?|Hin]; [done|].
    destruct (IH Hnd Hin) as (k & Hk & Hsel). exists (S k). cbn. split; [lia|].
    rewrite Hsel. f_equal. by apply jsstring_eqb_neq.
Qed.

(** X15: when the ids of the list are distinct and the active
    conversation is in the list, the sidebar shows exactly one conversation
    as selected. *)
Theorem one_conversation_selected (st : State) :
  NoDup (ids st) → activeListed st →
  ∃ k, (k < length (conversations st))%nat ∧
    View.selected st =
    replicate k false ++ true :: replicate (length (conversations st) - S k) false.
Proof. intros Hnd Hin. by apply selected_one. Qed.

(** X16: the submit button is enabled exactly when no request is pending
    and a send would go on: the handler and the button test the same
    things; the button is disabled whenever the text input is.  This holds
    in both components. *)
Theorem submit_enabled_iff_send_proceeds `{JSONPlatform}
    (st : State) (mst : ChatInterface.State) (now1 : Z) :
  (View.submitDisabled st = false ↔
   isLoading st = false ∧ is_Some (handleSendMessage_begin st now1)) ∧
  (View.inputDisabled st = true → View.submitDisabled st = true) ∧
  (View.minimalSubmitDisabled mst = false ↔
   ChatInterface.isLoading mst = false ∧
   is_Some (ChatInterface.handleSendMessage_begin mst)) ∧
  (View.minimalInputDisabled mst = true → View.minimalSubmitDisabled mst = true).
Proof.
  unfold View.submitDisabled, View.inputDisabled, View.minimalSubmitDisabled,
    View.minimalInputDisabled, handleSendMessage_begin,
    ChatInterface.handleSendMessage_begin.
  split_and!.
  - destruct (isLoading st), (negb (nonEmpty (trim (input st)))),
      (negb (nonEmpty (model (currentConversation st)))), (serverSettings st);
      cbn; split; try done; try (by intros [? ?]); try (by intros [_ [? ?]]);
      intros _; (split; [done|by eexists]).
  - destruct (isLoading st), (negb (nonEmpty (trim (input st)))),
      (negb (nonEmpty (model (currentConversation st)))); done.
  - destruct (ChatInterface.isLoading mst),
      (negb (nonEmpty (trim (ChatInterface.input mst)))),
      (negb (nonEmpty (ChatInterface.selectedModel mst)));
      cbn; split; try done; try (by intros [? ?]); try (by intros [_ [? ?]]);
      intros _; (split; [done|by eexists]).
  - destruct (ChatInterface.isLoading mst),
      (negb (nonEmpty (trim (ChatInterface.input mst)))),
      (negb (nonEmpty (ChatInterface.selectedModel mst))); done.
Qed.

End Bounds.

(** ** Further properties: exchanges *)

Import Exchanges.

Section ExchangeProperties.
Context `{JSONPlatform}.

Lemma paired_app_both (ms : list Message) (u a : jsstring) :
  let pair := [{| role := user; content := u |};
               {| role := assistant; content := a |}] in
  (paired ms = true → paired (ms ++ pair) = true) ∧
  (∀ x, paired (x :: ms) = true → paired ((x :: ms) ++ pair) = true).
Proof.
  intros pair. induction ms as [|y ms [IH1 IH2]].
  - split; [done|]. by intros x.
  - split; [apply IH2|].
    intros x. cbn [paired app].
    intros [[Hx Hy]%andb_true_iff Hms]%andb_true_iff.
    rewrite Hx, Hy. cbn. by apply IH1.
Qed.

Lemma paired_app (ms : list Message) (u a : jsstring) :
  paired ms = true →
  paired (ms ++ [{| role := user; content := u |};
                 {| role := assistant; content := a |}]) = true.
Proof. apply paired_app_both. Qed.

Lemma forallb_replaceById (i : jsstring) (r : Conversation) (l : list Conversation) :
  paired (messages r) = true →
  forallb (fun c => paired (messages c)) l = true →
  forallb (fun c => paired (messages c)) (replaceById i r l) = true.
Proof.
  intros Hr. induction l as [|c l IH]; [done|].
  change (replaceById i r (c :: l))
    with ((if jsstring_eqb (id c) i then r else c) :: replaceById i r l).
  cbn [forallb]. intros [Hc Hl]%andb_true_iff. rewrite (IH Hl), andb_true_r.
  by destruct (jsstring_eqb (id c) i).
Qed.

(** The message list of the active conversation after a send. *)
Lemma send_messages (w w' : World) (now1 now2 : Z) (outcome : Outcome) :
  step (Send now1 outcome now2) w = Some w' →
  messages (currentConversation (ui w')) = messages (currentConversation (ui w)) ∨
  ∃ reply,
    messages (currentConversation (ui w')) =
      messages (currentConversation (ui w)) ++
      [{| role := user; content := input (ui w) |};
       {| role := assistant; content := reply |}].
Proof.
  cbn. unfold handleSendMessage, handleSendMessage_begin.
  destruct (_ || _); cbn -[js]; [intros [= <-]; by left|].
  destruct w as [[cur cs i l ms d mm sb so [h p] ts] ls]. cbn -[js].
  unfold handleSendMessage_resume.
  destruct outcome as [|data]; cbn -[js].
  - intros [= <-]. right. eexists. cbn -[js]. by rewrite <- (assoc_L (++)).
  - destruct (asString (aiResponse data)) as [reply|]; cbn -[js]; [|done].
    unfold updateConversationTitle. cbn -[js].
    destruct (_ && _); [destruct (_ !! _)|]; intros [= <-]; cbn -[js];
      [by left|right; exists reply; by rewrite <- (assoc_L (++))..].
Qed.

Lemma step_keeps_allPaired (e : Event) (w w' : World) :
  step e w = Some w' → allPaired (ui w) = true → allPaired (ui w') = true.
Proof.
  unfold allPaired. intros Hstep [Hcur Hall]%andb_true_iff.
  destruct e as [outcome|text|random36 now|i|now1 outcome now2|m|v|v|].
  - destruct (ModelsFetched_keeps_conversations _ _ _ Hstep) as [-> ->].
    by rewrite Hcur, Hall.
  - injection Hstep as <-. destruct w as [[]]. cbn in *. by rewrite Hcur, Hall.
  - destruct (NewChat_step w random36 now) as (w1 & Hs & Hc & Hcs).
    rewrite Hs in Hstep. injection Hstep as <-. rewrite Hc, Hcs. by cbn.
  - destruct (decide (i ∈ ids (ui w))) as [Hi|Hi].
    + destruct (SwitchTo_present w i Hi)
        as (before & c & after & w1 & Hl & Hid & _ & Hs & Hc & Hcs).
      rewrite Hs in Hstep. injection Hstep as <-. rewrite Hc, Hcs, Hall, andb_true_r.
      rewrite Hl, forallb_app in Hall. cbn in Hall.
      by apply andb_true_iff in Hall as [_ [? _]%andb_true_iff].
    + rewrite (SwitchTo_absent w i Hi) in Hstep. injection Hstep as <-.
      by rewrite Hcur, Hall.
  - assert (paired (messages (currentConversation (ui w'))) = true) as Hcur'.
    { destruct (send_messages _ _ _ _ _ Hstep) as [->|[reply ->]]; [done|].
      by apply paired_app. }
    rewrite Hcur'. cbn.
    destruct (send_result _ _ _ _ _ Hstep) as [->|[_ ->]]; [done|].
    by apply forallb_replaceById.
  - injection Hstep as <-. destruct w as [[cur cs i l ms d mm sb so ss ts] ls].
    cbn in *. rewrite Hcur. cbn. by apply forallb_replaceById.
  - injection Hstep as <-. destruct w as [[]]. cbn in *. by rewrite Hcur, Hall.
  - injection Hstep as <-. destruct w as [[]]. cbn in *. by rewrite Hcur, Hall.
  - injection Hstep as <-. destruct w as [[]]. cbn in *. by rewrite Hcur, Hall.
Qed.

Lemma minimal_step_messages (e : MinimalRun.Event) (st st' : ChatInterface.State) :
  MinimalRun.step e st = Some st' →
  ChatInterface.messages st' = ChatInterface.messages st ∨
  ∃ text reply,
    ChatInterface.messages st' =
      ChatInterface.messages st ++
      [{| role := user; content := text |};
       {| role := assistant; content := reply |}].
Proof.
  destruct e as [outcome|text|m|outcome]; cbn -[js].
  - unfold MinimalRun.fetchModels_then.
    destruct outcome as [|data]; [intros [= <-]; by left|].
    destruct (getProp (js "data") data) as [[| | | |items|]|];
      try (intros [= <-]; by left).
    destruct (existsb _ items); [intros [= <-]; by left|].
    destruct (mapM _ items); cbn; [|done]. intros [= <-]. left. by destruct st.
  - intros [= <-]. left. by destruct st.
  - intros [= <-]. left. by destruct st.
  - unfold ChatInterface.handleSendMessage, ChatInterface.handleSendMessage_begin.
    destruct (_ || _); cbn -[js]; [intros [= <-]; by left|].
    destruct st as [msgs i l ms m]. cbn -[js].
    destruct outcome as [|data]; cbn -[js].
    + intros [= <-]. right. eexists _, _. cbn -[js]. by rewrite <- (assoc_L (++)).
    + destruct (asString (aiResponse data)) as [reply|]; cbn -[js]; [|done].
      intros [= <-]. right. eexists _, _. cbn -[js]. by rewrite <- (assoc_L (++)).
Qed.

End ExchangeProperties.

(** ** Further properties: actions while a request is pending *)

Section PendingProperties.
Context `{JSONPlatform}.
Import Interleaving.

Lemma begin_commit (snap : State) (now1 : Z) (req : Request) (ups1 : list Update) :
  handleSendMessage_begin snap now1 = Some (req, ups1) →
  ∀ st,
    currentConversation (applyUpdates ups1 st) =
      {| id := id (currentConversation snap);
         title := title (currentConversation snap);
         messages := messages (currentConversation snap) ++
                     [{| role := user; content := input snap |}];
         model := model (currentConversation snap); timestamp := now1 |} ∧
    conversations (applyUpdates ups1 st) =
      replaceById (id (currentConversation snap))
        (currentConversation (applyUpdates ups1 st)) (conversations st) ∧
    isLoading (applyUpdates ups1 st) = true.
Proof.
  unfold handleSendMessage_begin. destruct (_ || _); [done|].
  destruct (serverSettings snap). intros [= _ <-] st. by destruct st.
Qed.

Lemma act_other (e : Event) (s s' : Session) :
  act (Other e) s = Some s' →
  (∀ now1 outcome now2, e ≠ Send now1 outcome now2) ∧
  ∃ w', step e (component s) = Some w' ∧
        s' = {| component := w'; awaiting := awaiting s |}.
Proof.
  destruct e; cbn -[step]; try done;
    (destruct (step _ (component s)) as [w'|]; cbn; [|done]);
    intros [= <-]; (split; [done|]); by exists w'.
Qed.

Lemma step_keeps_isLoading (e : Event) (w w' : World) :
  (∀ now1 outcome now2, e ≠ Send now1 outcome now2) →
  step e w = Some w' → isLoading (ui w') = isLoading (ui w).
Proof.
  intros Hno Hstep.
  destruct e as [outcome|text|random36 now|i|now1 outcome now2|m|v|v|];
    cbn -[js] in Hstep.
  - destruct (fetchModels_then outcome) as [ups|] eqn:Hups; [|done].
    injection Hstep as <-.
    destruct (fetchModels_then_sets _ _ Hups) as [->|[v ->]]; by destruct w as [[]].
  - injection Hstep as <-. by destruct w as [[]].
  - injection Hstep as <-. by destruct w as [[]].
  - injection Hstep as <-. unfold switchConversation.
    destruct (List.find _ _); by destruct w as [[]].
  - by destruct (Hno now1 outcome now2).
  - injection Hstep as <-. by destruct w as [[]].
  - injection Hstep as <-. by destruct w as [[]].
  - injection Hstep as <-. by destruct w as [[]].
  - injection Hstep as <-. by destruct w as [[]].
Qed.

Lemma step_keeps_ids (e : Event) (w w' : World) (i : jsstring) :
  step e w = Some w' → i ∈ ids (ui w) → i ∈ ids (ui w').
Proof.
  intros Hstep Hi.
  destruct e as [outcome|text|random36 now|j|now1 outcome now2|m|v|v|].
  - destruct (ModelsFetched_keeps_conversations _ _ _ Hstep) as [_ Hcs].
    unfold ids. by rewrite Hcs.
  - injection Hstep as <-. by destruct w as [[]].
  - destruct (NewChat_step w random36 now) as (w1 & Hs & _ & Hcs).
    rewrite Hs in Hstep. injection Hstep as <-.
    unfold ids. rewrite Hcs, fmap_cons. by apply list_elem_of_further.
  - destruct (decide (j ∈ ids (ui w))) as [Hj|Hj].
    + destruct (SwitchTo_present w j Hj)
        as (before & c & after & w1 & _ & _ & _ & Hs & _ & Hcs).
      rewrite Hs in Hstep. injection Hstep as <-. unfold ids. by rewrite Hcs.
    + rewrite (SwitchTo_absent w j Hj) in Hstep. by injection Hstep as <-.
  - destruct (send_keeps_ids _ _ _ _ _ Hstep) as [_ ->]. done.
  - injection Hstep as <-. destruct w as [[cur cs i' l ms d mm sb so ss ts] ls].
    unfold ids in *. cbn in *. by rewrite ids_replaceById.
  - injection Hstep as <-. by destruct w as [[]].
  - injection Hstep as <-. by destruct w as [[]].
  - injection Hstep as <-. by destruct w as [[]].
Qed.

(** A property of conversations that depends on their id and messages
    only, and holds of a conversation with no message: the actions other
    than a send keep it for the active conversation and the listed ones. *)
Section ConversationProperty.
Variable P : Conversation → Prop.
Hypothesis P_ext : ∀ c c', id c = id c' → messages c = messages c' → P c → P c'.
Hypothesis P_empty : ∀ c, messages c = [] → P c.

Lemma step_keeps_property (e : Event) (w w' : World) :
  (∀ now1 outcome now2, e ≠ Send now1 outcome now2) →
  step e w = Some w' →
  P (currentConversation (ui w)) →
  (∀ c, c ∈ conversations (ui w) → P c) →
  P (currentConversation (ui w')) ∧ (∀ c, c ∈ conversations (ui w') → P c).
Proof.
  intros Hno Hstep Hcur Hall.
  destruct e as [outcome|text|random36 now|i|now1 outcome now2|m|v|v|].
  - by destruct (ModelsFetched_keeps_conversations _ _ _ Hstep) as [-> ->].
  - injection Hstep as <-. by destruct w as [[]].
  - destruct (NewChat_step w random36 now) as (w1 & Hs & Hc & Hcs).
    rewrite Hs in Hstep. injection Hstep as <-. rewrite Hc, Hcs.
    split; [by apply P_empty|].
    intros c [->|Hin]%elem_of_cons; [by apply P_empty|by apply Hall].
  - destruct (decide (i ∈ ids (ui w))) as [Hi|Hi].
    + destruct (SwitchTo_present w i Hi)
        as (before & c & after & w1 & Hl & _ & _ & Hs & Hc & Hcs).
      rewrite Hs in Hstep. injection Hstep as <-. rewrite Hc, Hcs.
      split; [|done]. apply Hall. rewrite Hl.
      apply elem_of_app. right. apply list_elem_of_here.
    + rewrite (SwitchTo_absent w i Hi) in Hstep. by injection Hstep as <-.
  - by destruct (Hno now1 outcome now2).
  - injection Hstep as <-. destruct w as [[cur cs i l ms d mm sb so ss ts] ls].
    cbn in *.
    assert (P {| id := id cur; title := title cur; messages := messages cur;
                 model := m; timestamp := timestamp cur |}) as Hupdated
      by by apply (P_ext cur).
    split; [done|].
    intros c [->|[Hin _]]%elem_of_replaceById; [done|by apply Hall].
  - injection Hstep as <-. by destruct w as [[]].
  - injection Hstep as <-. by destruct w as [[]].
  - injection Hstep as <-. by destruct w as [[]].
Qed.

End ConversationProperty.

Lemma act_mirrored (a : Action) (s s' : Session) :
  act a s = Some s' → mirrored s → mirrored s'.
Proof.
  destruct s as [w aw]. unfold mirrored, activeMirrored. cbn [component awaiting].
  destruct a as [now1|k outcome now2|e].
  - cbn [act component awaiting]. destruct (isLoading (ui w)); [done|].
    destruct (handleSendMessage_begin (ui w) now1) as [[req ups1]|] eqn:Hb;
      intros [= <-]; [|done].
    intros [Hcur Hall]. cbn [component awaiting].
    destruct (begin_commit _ _ _ _ Hb (ui w)) as (Hc & Hcs & _).
    assert (id (currentConversation (ui w)) ∈ ids (ui w)) as Hlisted
      by by apply list_elem_of_fmap_2.
    assert (ids (ui (commit ups1 w)) = ids (ui w)) as Hids.
    { unfold ids, commit. cbn [ui]. rewrite Hcs. apply ids_replaceById.
      by rewrite Hc. }
    rewrite Hids. split.
    + unfold commit. cbn [ui]. rewrite Hcs. by apply replaceById_elem.
    + apply Forall_app. split; [done|]. by apply Forall_singleton.
  - cbn [act component awaiting].
    destruct (aw !! k) as [snap|] eqn:Hk; cbn; [|done].
    destruct (handleSendMessage_resume snap outcome now2) as [ups2|] eqn:Hr;
      cbn; [|done].
    intros [= <-] [Hcur Hall]. cbn [component awaiting].
    destruct (resume_typed _ _ _ _ Hr) as [reply Hreply].
    destruct (resume_final snap outcome now2 reply Hreply) as (ups & Hr' & Hfinal).
    rewrite Hr in Hr'. injection Hr' as <-.
    destruct (Hfinal (ui w)) as (Hc & Hcs & _).
    assert (id (Pending.sender snap outcome reply now2) = id (currentConversation snap))
      as Hid.
    { unfold Pending.sender. destruct outcome; [done|].
      by destruct (Pending.firstExchange snap). }
    assert (ids (ui (commit ups2 w)) = ids (ui w)) as Hids.
    { unfold ids, commit. cbn [ui]. rewrite Hcs. by apply ids_replaceById. }
    rewrite Hids. split.
    + unfold commit. cbn [ui]. rewrite Hc, Hcs. apply replaceById_elem.
      by apply (Forall_lookup_1 _ _ _ _ Hall Hk).
    + by apply Forall_delete.
  - intros (Hno & w' & Hstep & ->)%act_other [Hcur Hall]. cbn [component awaiting] in *.
    split.
    + eapply step_keeps_activeMirrored; [exact Hstep|by left].
    + eapply Forall_impl; [exact Hall|]. intros snap.
      by apply (step_keeps_ids e w w').
Qed.

Lemma perform_mirrored (acts : list Action) (s s' : Session) :
  perform acts s = Some s' → mirrored s → mirrored s'.
Proof.
  revert s. induction acts as [|a acts IH]; intros s Hp Hm.
  - by injection Hp as <-.
  - cbn in Hp. destruct (act a s) as [s1|] eqn:Ha; [|done].
    apply (IH s1); [done|]. by eapply act_mirrored.
Qed.

Lemma perform_persisted (acts : list Action) (s s' : Session) :
  perform acts s = Some s' → persisted (component s) → persisted (component s').
Proof.
  revert s. induction acts as [|a acts IH]; intros s Hp Hs.
  - by injection Hp as <-.
  - cbn in Hp. destruct (act a s) as [s1|] eqn:Ha; [|done].
    apply (IH s1); [done|]. destruct s as [w aw].
    destruct a as [now1|k outcome now2|e].
    + cbn in Ha. destruct (isLoading (ui w)); [done|].
      destruct (handleSendMessage_begin (ui w) now1) as [[req ups1]|];
        injection Ha as <-; [|done].
      by apply commit_persisted.
    + cbn in Ha. destruct (aw !! k) as [snap|]; cbn in Ha; [|done].
      destruct (handleSendMessage_resume snap outcome now2); cbn in Ha; [|done].
      injection Ha as <-. by apply commit_persisted.
    + apply act_other in Ha as (_ & w' & Hstep & ->).
      by apply (step_persisted e w).
Qed.

(** X1: after the component is mounted, and after every action that
    follows, the two storage entries hold the JSON text of the conversation
    list and of the server settings that the component has; this holds
    after every series of actions in which a send is one step, and also
    after each step of a series in which other actions take place while a
    request is pending.  (An entry that the mount reads has the keys of
    the component's own objects, in their order, as the component writes
    them: the state then holds exactly the stored objects, see
    [asConversations_exact] and [asServerSettings_exact].) *)
Theorem storage_mirrors_state
    (random36 : jsstring) (now : Z) (dark : bool) (ls : gmap jsstring jsstring)
    (w : World) :
  mount random36 now dark ls = Some w →
  (∀ es w', run es w = Some w' →
     localStorage w' !! js "conversations" =
       Some (JSON_stringify (JArr (encodeConversation <$> conversations (ui w')))) ∧
     localStorage w' !! js "serverSettings" =
       Some (JSON_stringify (encodeServerSettings (serverSettings (ui w'))))) ∧
  (∀ acts s', perform acts (idle w) = Some s' →
     localStorage (component s') !! js "conversations" =
       Some (JSON_stringify
               (JArr (encodeConversation <$> conversations (ui (component s'))))) ∧
     localStorage (component s') !! js "serverSettings" =
       Some (JSON_stringify
               (encodeServerSettings (serverSettings (ui (component s')))))).
Proof.
  intros Hmount. apply mount_persisted in Hmount. split.
  - intros es w' Hrun. by apply (run_persisted es w w' Hrun).
  - intros acts s' Hp. by apply (perform_persisted acts (idle w) s' Hp).
Qed.

(** X7: also with actions taking place while requests are pending, the
    active conversation stays one of the conversations of the list, with
    all its fields, once it is one and the conversation of each pending
    request is, by its id, in the list: what is sent, answered, chosen or
    retitled in a conversation is written to its list entry as well.  With
    no request pending a "new chat" brings this about in any state. *)
Theorem pending_keeps_activeMirrored (acts : list Action) (s s' : Session) :
  (mirrored s → perform acts s = Some s' → mirrored s') ∧
  (∀ random36 now,
     awaiting s = [] →
     perform (Other (NewChat random36 now) :: acts) s = Some s' →
     mirrored s').
Proof.
  split.
  - intros Hm Hp. by apply (perform_mirrored acts s).
  - intros random36 now Haw Hp.
    change (perform (Other (NewChat random36 now) :: acts) s)
      with (act (Other (NewChat random36 now)) s ≫= perform acts) in Hp.
    destruct (act (Other (NewChat random36 now)) s) as [s1|] eqn:Ha; [|done].
    apply (perform_mirrored acts s1); [done|].
    apply act_other in Ha as (_ & w' & Hstep & ->).
    split; cbn [component awaiting].
    + eapply step_keeps_activeMirrored; [exact Hstep|]. right. by eexists _, _.
    + rewrite Haw. constructor.
Qed.

Lemma paired_sender (snap : State) (outcome : Outcome) (reply : jsstring) (now2 : Z) :
  paired (messages (currentConversation snap)) = true →
  paired (messages (Pending.sender snap outcome reply now2)) = true.
Proof.
  intros Hp. unfold Pending.sender.
  destruct outcome; [by apply paired_app|].
  destruct (Pending.firstExchange snap); [done|]. by apply paired_app.
Qed.

Lemma act_exchanged (a : Action) (s s' : Session) :
  act a s = Some s' → exchanged s → exchanged s'.
Proof.
  destruct s as [w aw]. unfold exchanged. cbn [component awaiting].
  destruct a as [now1|k outcome now2|e].
  - cbn [act component awaiting]. destruct (isLoading (ui w)) eqn:Hl; [done|].
    destruct aw as [|snap [|]]; [|by intros _ [? _]|by intros _ []].
    destruct (handleSendMessage_begin (ui w) now1) as [[req ups1]|] eqn:Hb;
      intros [= <-]; cbn [component awaiting]; [|by rewrite Hl].
    intros [_ [Hcur Hall]%andb_true_iff].
    destruct (begin_commit _ _ _ _ Hb (ui w)) as (Hc & Hcs & Hl').
    unfold commit. cbn [ui]. split_and!; [done..| |].
    + intros c Hin Hne. rewrite Hcs in Hin.
      apply elem_of_replaceById in Hin as [->|[Hin _]].
      * destruct Hne. by rewrite Hc.
      * rewrite forallb_forall in Hall. by apply Hall, list_elem_of_In.
    + intros Hne. destruct Hne. by rewrite Hc.
  - cbn [act component awaiting].
    destruct aw as [|snap [|]]; [done| |by intros _ []].
    destruct k as [|k]; [|done]. cbn.
    destruct (handleSendMessage_resume snap outcome now2) as [ups2|] eqn:Hr;
      cbn; [|done].
    intros [= <-] (_ & Hsnap & Hall & _). cbn [component awaiting].
    destruct (resume_typed _ _ _ _ Hr) as [reply Hreply].
    destruct (resume_final snap outcome now2 reply Hreply) as (ups & Hr' & Hfinal).
    rewrite Hr in Hr'. injection Hr' as <-.
    destruct (Hfinal (ui w)) as (Hc & Hcs & Hl').
    unfold commit, allPaired. cbn [ui]. split; [done|].
    rewrite Hc, Hcs, (paired_sender _ _ _ _ Hsnap). cbn.
    apply forallb_forall. intros c Hin%list_elem_of_In.
    apply elem_of_replaceById in Hin as [->|[Hin Hne]];
      [by apply paired_sender|by apply Hall].
  - intros (Hno & w' & Hstep & ->)%act_other. cbn [component awaiting] in *.
    rewrite (step_keeps_isLoading _ _ _ Hno Hstep).
    destruct aw as [|snap [|]]; [| |done].
    + intros [Hl Hp]. split; [done|]. by eapply step_keeps_allPaired.
    + intros (Hl & Hsnap & Hall & Hcur). split; [done|]. split; [done|].
      apply and_comm.
      apply (step_keeps_property
               (fun c => id c ≠ id (currentConversation snap) →
                         paired (messages c) = true)) with e w; try done.
      * intros c c' Hid Hms Hc. by rewrite <- Hid, <- Hms.
      * intros c Hms _. by rewrite Hms.
Qed.

(** X17: when no request is pending, no conversation ends with a user
    message that has no answer.  If the active conversation and the
    listed ones consist of exchanges (a user message, then an assistant
    message) and nothing is pending, the loading flag off, then after
    every series of actions,
    also with actions while a request is pending and on failed requests,
    at most one request is pending, and when none is they all consist of
    exchanges again; while one is pending so does every listed
    conversation with another id than the one it was sent from. *)
Theorem pending_keeps_exchanges (acts : list Action) (s s' : Session) :
  exchanged s → perform acts s = Some s' →
  exchanged s' ∧
  (length (awaiting s') ≤ 1)%nat ∧
  (awaiting s' = [] → allPaired (ui (component s')) = true) ∧
  (∀ snap c, awaiting s' = [snap] → c ∈ conversations (ui (component s')) →
             id c ≠ id (currentConversation snap) → paired (messages c) = true).
Proof.
  intros He Hp.
  assert (exchanged s') as He'.
  { revert s He Hp. induction acts as [|a acts IH]; intros s He Hp.
    - by injection Hp as <-.
    - cbn in Hp. destruct (act a s) as [s1|] eqn:Ha; [|done].
      apply (IH s1); [|done]. by eapply act_exchanged. }
  split; [done|]. unfold exchanged in He'.
  destruct (awaiting s') as [|snap [|]]; [| |done].
  - split; [cbn; lia|]. split; [intros _; apply He'|]. by intros snap c.
  - split; [cbn; lia|]. split; [done|].
    intros snap' c [= <-]. by apply He'.
Qed.

Lemma minimal_act_other (e : MinimalRun.Event) (s s' : MinimalInterleaving.Session) :
  MinimalInterleaving.act (MinimalInterleaving.Other e) s = Some s' →
  ChatInterface.messages (MinimalInterleaving.component s') =
    ChatInterface.messages (MinimalInterleaving.component s) ∧
  ChatInterface.isLoading (MinimalInterleaving.component s') =
    ChatInterface.isLoading (MinimalInterleaving.component s) ∧
  MinimalInterleaving.awaiting s' = MinimalInterleaving.awaiting s.
Proof.
  destruct s as [st n].
  destruct e as [outcome|text|m|outcome]; cbn -[js]; [| | |done].
  - unfold MinimalRun.fetchModels_then.
    destruct outcome as [|data]; [by intros [= <-]|].
    destruct (getProp (js "data") data) as [[| | | |items|]|];
      try by intros [= <-].
    destruct (existsb _ items); [by intros [= <-]|].
    destruct (mapM _ items); cbn; [|done]. intros [= <-]. by destruct st.
  - intros [= <-]. by destruct st.
  - intros [= <-]. by destruct st.
Qed.

Lemma minimal_act_messages (a : MinimalInterleaving.Action)
    (s s' : MinimalInterleaving.Session) :
  MinimalInterleaving.act a s = Some s' →
  ChatInterface.messages (MinimalInterleaving.component s)
    `prefix_of` ChatInterface.messages (MinimalInterleaving.component s').
Proof.
  destruct a as [|outcome|e].
  - destruct s as [st n]. cbn -[js].
    destruct (ChatInterface.isLoading st); [done|].
    unfold ChatInterface.handleSendMessage_begin.
    destruct (_ || _); intros [= <-]; [done|].
    destruct st. cbn -[js]. by apply prefix_app_r.
  - destruct s as [st [|n]]; cbn -[js]; [done|].
    destruct outcome as [|data]; cbn -[js].
    + intros [= <-]. destruct st. cbn -[js]. by apply prefix_app_r.
    + destruct (asString (aiResponse data)) as [reply|]; cbn -[js]; [|done].
      intros [= <-]. destruct st. cbn -[js]. by apply prefix_app_r.
  - intros (-> & _)%minimal_act_other. done.
Qed.

Lemma minimal_act_exchanged (a : MinimalInterleaving.Action)
    (s s' : MinimalInterleaving.Session) :
  MinimalInterleaving.act a s = Some s' →
  MinimalInterleaving.exchanged s → MinimalInterleaving.exchanged s'.
Proof.
  unfold MinimalInterleaving.exchanged.
  destruct a as [|outcome|e].
  - destruct s as [st n]. cbn -[js].
    destruct (ChatInterface.isLoading st) eqn:Hl; [done|].
    unfold ChatInterface.handleSendMessage_begin.
    destruct (_ || _); intros [= <-]; cbn -[js]; [by rewrite Hl|].
    intros [(-> & _ & Hp)|(_ & ? & _)]; [|done]. right.
    destruct st. cbn -[js] in *. split_and!; [done..|]. by eexists _, _.
  - destruct s as [st [|n]]; cbn -[js]; [done|].
    intros Hact [(? & _)|([= ->] & _ & ms & text & Hms & Hp)]; [done|]. left.
    destruct outcome as [|data]; cbn -[js] in Hact.
    + injection Hact as <-. destruct st. cbn -[js] in *. subst.
      split_and!; [done..|]. rewrite <- (assoc_L (++)). by apply paired_app.
    + destruct (asString (aiResponse data)) as [reply|]; cbn -[js] in Hact; [|done].
      injection Hact as <-. destruct st. cbn -[js] in *. subst.
      split_and!; [done..|]. rewrite <- (assoc_L (++)). by apply paired_app.
  - intros (-> & -> & ->)%minimal_act_other. done.
Qed.

(** X18: in the minimal component the message list only grows: after
    every series of actions, also with actions while a request is pending,
    the list that was there is a prefix of the list that is there.  If it
    consisted of exchanges with no request pending, then at most one
    request is pending afterwards, the list consists of exchanges again
    when none is, and of exchanges and the user's message that waits for
    its answer while one is. *)
Theorem minimal_history_only_grows
    (acts : list MinimalInterleaving.Action) (s s' : MinimalInterleaving.Session) :
  MinimalInterleaving.perform acts s = Some s' →
  ChatInterface.messages (MinimalInterleaving.component s)
    `prefix_of` ChatInterface.messages (MinimalInterleaving.component s') ∧
  (MinimalInterleaving.exchanged s →
   MinimalInterleaving.exchanged s' ∧
   (MinimalInterleaving.awaiting s' ≤ 1)%nat ∧
   (MinimalInterleaving.awaiting s' = 0%nat →
    paired (ChatInterface.messages (MinimalInterleaving.component s')) = true) ∧
   (MinimalInterleaving.awaiting s' = 1%nat →
    ∃ ms text,
      ChatInterface.messages (MinimalInterleaving.component s') =
        ms ++ [{| role := user; content := text |}] ∧
      paired ms = true)).
Proof.
  intros Hp.
  assert (ChatInterface.messages (MinimalInterleaving.component s)
            `prefix_of` ChatInterface.messages (MinimalInterleaving.component s') ∧
          (MinimalInterleaving.exchanged s → MinimalInterleaving.exchanged s'))
    as [Hprefix Hkeeps].
  { revert s Hp. induction acts as [|a acts IH]; intros s Hp.
    - by injection Hp as <-.
    - cbn in Hp. destruct (MinimalInterleaving.act a s) as [s1|] eqn:Ha; [|done].
      destruct (IH s1 Hp) as [Hpre Hex]. split.
      + etrans; [|exact Hpre]. by eapply minimal_act_messages.
      + intros He. apply Hex. by eapply minimal_act_exchanged. }
  split; [done|]. intros He. specialize (Hkeeps He). split; [done|].
  destruct Hkeeps as [(Hn & _ & Hpaired)|(Hn & _ & Hms)]; rewrite Hn.
  - split; [lia|]. split; [done|]. intros [=].
  - split; [lia|]. split; [intros [=]|done].
Qed.

End PendingProperties.

(** ** Further properties: the minimal component in use *)

Section MinimalSession.
Context `{JSONPlatform}.

Lemma minimal_fetchModels_then_modelList (modelIds : list jsstring) :
  MinimalRun.fetchModels_then (Resolved (modelList modelIds)) =
  Some [ChatInterface.setModels modelIds].
Proof.
  unfold MinimalRun.fetchModels_then.
  assert (getProp (js "data") (modelList modelIds) =
          Some (JArr ((fun i => JObj [(js "id", JStr i);
                                      (js "object", JStr (js "model"))])
                      <$> modelIds))) as -> by reflexivity.
  rewrite modelList_has_no_null.
  by rewrite (mapM_fmap_Some (field "id" asString)
                (fun i => JObj [(js "id", JStr i); (js "object", JStr (js "model"))])).
Qed.

(** X19: in the minimal component, once the model list has arrived, a
    model is selected and a message is typed, a send appends the user's
    message and the assistant's message (the reply, or the error text when
    the request fails) to the messages, empties the input and ends with
    the loading flag off; the models offered are the server's, in its
    order. *)
Theorem minimal_session
    (st : ChatInterface.State) (modelIds : list jsstring) (m text reply : jsstring)
    (outcome : Outcome) :
  nonEmpty (trim text) = true →
  nonEmpty m = true →
  match outcome with
  | Rejected => reply = js "Sorry, there was an error processing your request."
  | Resolved data => asString (aiResponse data) = Some reply
  end →
  ∃ st',
    MinimalRun.run
      [MinimalRun.ModelsFetched (Resolved (modelList modelIds));
       MinimalRun.ModelSelect m; MinimalRun.InputChange text;
       MinimalRun.Send outcome] st = Some st' ∧
    ChatInterface.models st' = modelIds ∧
    ChatInterface.selectedModel st' = m ∧
    ChatInterface.messages st' =
      ChatInterface.messages st ++
      [{| role := user; content := text |};
       {| role := assistant; content := reply |}] ∧
    ChatInterface.input st' = [] ∧
    ChatInterface.isLoading st' = false.
Proof.
  intros Ht Hm Hr. cbn [MinimalRun.run MinimalRun.step].
  rewrite minimal_fetchModels_then_modelList.
  destruct st as [msgs i l ms sel]. cbn -[js trim].
  unfold ChatInterface.handleSendMessage, ChatInterface.handleSendMessage_begin.
  cbn -[js trim]. rewrite Ht, Hm. cbn -[js trim].
  destruct outcome as [|data]; cbn -[js trim].
  - subst reply. eexists. split; [reflexivity|]. cbn -[js].
    by rewrite <- (assoc_L (++)).
  - rewrite Hr. cbn -[js]. eexists. split; [reflexivity|]. cbn -[js].
    by rewrite <- (assoc_L (++)).
Qed.

End MinimalSession.

(** ** Further properties: what a send appends *)

Section Appending.
Context `{JSONPlatform}.

(** X20: a send that goes on appends the user's message and then one
    assistant message to the active conversation, sets its time stamp to
    the time of the answer and keeps its title: on a failed request, with
    the error text; on a reply, with the reply, unless this is the first
    exchange of a conversation that is still titled "New Conversation". *)
Theorem send_appends_exchange
    (w : World) (now1 now2 : Z) (outcome : Outcome) (reply : jsstring) :
  nonEmpty (trim (input (ui w))) = true →
  nonEmpty (model (currentConversation (ui w))) = true →
  match outcome with
  | Rejected => reply = js "Sorry, there was an error processing your request."
  | Resolved data =>
      asString (aiResponse data) = Some reply ∧
      (messages (currentConversation (ui w)) ≠ [] ∨
       title (currentConversation (ui w)) ≠ js "New Conversation")
  end →
  ∃ w', step (Send now1 outcome now2) w = Some w' ∧
    messages (currentConversation (ui w')) =
      messages (currentConversation (ui w)) ++
      [{| role := user; content := input (ui w) |};
       {| role := assistant; content := reply |}] ∧
    timestamp (currentConversation (ui w')) = now2 ∧
    title (currentConversation (ui w')) = title (currentConversation (ui w)).
Proof.
  intros Hi Hm Hr. cbn -[js]. unfold handleSendMessage, handleSendMessage_begin.
  rewrite Hi, Hm. cbn -[js].
  destruct w as [[cur cs i l ms d mm sb so [h p] ts] ls]. cbn -[js] in *.
  unfold handleSendMessage_resume.
  destruct outcome as [|data].
  - subst reply. eexists. split; [reflexivity|]. cbn -[js].
    by rewrite <- (assoc_L (++)).
  - destruct Hr as [Hr Hno]. rewrite Hr. cbn -[js].
    match goal with
    | |- context [updateConversationTitle ?snap ?msgs] =>
        assert (updateConversationTitle snap msgs = []) as ->
    end.
    { destruct Hno as [Hms|Htitle]; [|by apply updateConversationTitle_by_value].
      apply updateConversationTitle_other_length. rewrite !length_app.
      destruct (messages cur); [done|]. cbn. lia. }
    eexists. split; [reflexivity|]. cbn -[js]. by rewrite <- (assoc_L (++)).
Qed.

End Appending.

(** ** Further properties: the colour scheme *)

Section ThemeProperties.
Context `{JSONPlatform}.





End ThemeProperties.

(** ** The further properties on concrete runs *)

Section FurtherRuns.
Import ReferenceJSON Examples MoreExamples PendingExamples.

Ltac evaluate :=
  first [ reflexivity
        | vm_compute; reflexivity
        | apply (bool_decide_unpack _); vm_compute; exact I ].

Lemma storage_mirrors_state_witness :
  (localStorage beforeFirstSend !! js "conversations" =
     Some (JSON_stringify
             (JArr (encodeConversation <$> conversations (ui beforeFirstSend)))) ∧
   localStorage beforeFirstSend !! js "serverSettings" =
     Some (JSON_stringify
             (encodeServerSettings (serverSettings (ui beforeFirstSend))))) ∧
  (localStorage (Interleaving.component afterUnlistedSession) !! js "conversations" =
     Some (JSON_stringify
             (JArr (encodeConversation <$>
                    conversations (ui (Interleaving.component afterUnlistedSession))))) ∧
   localStorage (Interleaving.component afterUnlistedSession) !! js "serverSettings" =
     Some (JSON_stringify
             (encodeServerSettings
                (serverSettings (ui (Interleaving.component afterUnlistedSession)))))).
Proof.
  destruct (storage_mirrors_state (js "0.k3j9x2m1p") 1000 false ∅ mounted)
    as [Hrun Hperform]; [evaluate|].
  split.
  - apply (Hrun [NewChat (js "0.7p2q8r") 1500; ModelChange (js "llama");
                 InputChange (js "hi")]). evaluate.
  - apply (Hperform unlistedSession). evaluate.
Defined.

Lemma reload_restores_witness :
  persisted twoChatsTyped ∧
  ∃ w', mount (js "0.r3l0ad") 9000 false (localStorage twoChatsTyped) = Some w' ∧
    conversations (ui w') = conversations (ui twoChatsTyped) ∧
    serverSettings (ui w') = serverSettings (ui twoChatsTyped) ∧
    currentConversation (ui w') =
      match conversations (ui twoChatsTyped) with
      | first :: _ => first
      | [] => currentConversation (initialState (js "0.r3l0ad") 9000)
      end.
Proof.
  assert (persisted twoChatsTyped) as Hp by (split; evaluate).
  split; [exact Hp|].
  apply (reload_restores twoChatsTyped (js "0.r3l0ad") 9000 false Hp);
    split; evaluate.
Defined.

Lemma mount_without_conversations_witness :
  conversationsUnreadable cutStorage ∧
  ∃ w, mount (js "0.r3l0ad") 9000 true cutStorage = Some w ∧
    conversations (ui w) = [] ∧
    currentConversation (ui w) =
      {| id := generateId (js "0.r3l0ad"); title := js "New Conversation";
         messages := []; model := js ""; timestamp := 9000 |}.
Proof.
  assert (conversationsUnreadable cutStorage) as Hu.
  { right. eexists. split; evaluate. }
  split; [exact Hu|].
  apply (mount_without_conversations (js "0.r3l0ad") 9000 true cutStorage Hu).
  eexists. evaluate.
Defined.

Lemma send_proceeds_iff_witness :
  handleSendMessage_begin (ui mounted) 2000 = None ∧
  ChatInterface.handleSendMessage_begin ChatInterface.initialState = None ∧
  blank (input (ui spacesTyped)) ∧
  handleSendMessage 2000 Rejected 3000 spacesTyped = Some (None, spacesTyped) ∧
  ChatInterface.handleSendMessage Rejected ChatInterface.initialState
    = Some (None, ChatInterface.initialState).
Proof.
  destruct (send_proceeds_iff (ui mounted) ChatInterface.initialState 2000)
    as (Hbegin & Hminimal & Hblank & Hminblank).
  assert (blank (input (ui spacesTyped))) as Hb by evaluate.
  split_and!.
  - apply Hbegin. right. evaluate.
  - apply Hminimal. right. evaluate.
  - exact Hb.
  - exact (Hblank spacesTyped 3000%Z Rejected Hb).
  - apply Hminblank. evaluate.
Defined.

Lemma send_replaces_by_id_witness :
  ∃ w', step (Send 2000 (Resolved (reply (js "hello"))) 3000) twoChatsTyped = Some w' ∧
    id (currentConversation (ui w')) = js "9x1cb05f3k" ∧
    length (conversations (ui w')) = 2%nat ∧
    conversations (ui w') !! 0%nat = Some (currentConversation (ui w')) ∧
    conversations (ui w') !! 1%nat = conversations (ui twoChatsTyped) !! 1%nat.
Proof.
  destruct (send_replaces_by_id twoChatsTyped 2000 3000 (Resolved (reply (js "hello"))))
    as (w' & Hstep & Hid & Hlen & Hsame & Hother);
    [evaluate | evaluate | eexists; evaluate |].
  exists w'. split_and!; [exact Hstep | exact Hid | exact Hlen | |].
  - apply (Hsame 0%nat (currentConversation (ui twoChatsTyped))); evaluate.
  - apply (Hother 1%nat
             {| id := js "4fzyo82mvy"; title := js "New Conversation";
                messages := []; model := js ""; timestamp := 1500 |}); evaluate.
Defined.

Lemma send_disables_controls_witness :
  ∃ req ups1 w',
    handleSendMessage_begin (ui twoChatsTyped) 2000 = Some (req, ups1) ∧
    input (ui (commit ups1 twoChatsTyped)) = [] ∧
    View.inputDisabled (ui (commit ups1 twoChatsTyped)) = true ∧
    View.submitDisabled (ui (commit ups1 twoChatsTyped)) = true ∧
    step (Send 2000 Rejected 3000) twoChatsTyped = Some w' ∧
    isLoading (ui w') = false ∧
    input (ui w') = [] ∧
    View.inputDisabled (ui w') = false ∧
    View.submitDisabled (ui w') = true.
Proof.
  apply (send_disables_controls twoChatsTyped 2000 3000 Rejected);
    [evaluate | evaluate | exact I].
Defined.

Lemma pending_keeps_activeMirrored_witness :
  Interleaving.mirrored (Interleaving.idle twoChatsTyped) ∧
  Interleaving.mirrored afterBusySession ∧
  id (currentConversation (ui (Interleaving.component afterBusySession)))
    = js "9x1cb05f3k" ∧
  Interleaving.mirrored
    (default (Interleaving.idle firstRender)
       (Interleaving.perform
          [Interleaving.Other (NewChat (js "0.4fzyo82mvy") 1500);
           Interleaving.Other (ModelChange (js "llama"))]
          (Interleaving.idle mounted))).
Proof.
  assert (Interleaving.mirrored (Interleaving.idle twoChatsTyped)) as Hm.
  { split; [evaluate|]. constructor. }
  split; [exact Hm|]. split_and!.
  - apply (proj1 (pending_keeps_activeMirrored busySession
                    (Interleaving.idle twoChatsTyped) afterBusySession) Hm).
    evaluate.
  - evaluate.
  - apply (proj2 (pending_keeps_activeMirrored
                    [Interleaving.Other (ModelChange (js "llama"))]
                    (Interleaving.idle mounted) _) (js "0.4fzyo82mvy") 1500%Z);
      evaluate.
Defined.

(** The answer for a message that was sent from the conversation of the
    first render, which is in no list: after the new chat the active
    conversation was in the list, after the answer it is not. *)
Lemma answer_for_unlisted_conversation :
  ¬ Interleaving.mirrored (Interleaving.idle mounted) ∧
  Interleaving.perform unlistedSession (Interleaving.idle mounted)
    = Some afterUnlistedSession ∧
  id (currentConversation (ui (Interleaving.component afterUnlistedSession)))
    = js "k3j9x2m1p" ∧
  ids (ui (Interleaving.component afterUnlistedSession)) = [js "m3anwh1le"] ∧
  ¬ activeMirrored (ui (Interleaving.component afterUnlistedSession)).
Proof.
  split_and!; [|evaluate..].
  intros [Hm _]. revert Hm. evaluate.
Qed.

Lemma new_chat_then_back_witness :
  ∃ w', run [NewChat (js "0.zz81k") 7000;
             SwitchTo (id (currentConversation (ui twoChatsTyped)))] twoChatsTyped
          = Some w' ∧
    currentConversation (ui w') = currentConversation (ui twoChatsTyped) ∧
    conversations (ui w') =
      created (model (currentConversation (ui twoChatsTyped))) (js "0.zz81k", 7000%Z)
      :: conversations (ui twoChatsTyped).
Proof.
  apply (new_chat_then_back twoChatsTyped (js "0.zz81k") 7000); evaluate.
Defined.

Lemma settings_change_only_on_save_witness :
  (serverSettings (ui hostTyped) = serverSettings (ui mounted) ∧
   localStorage hostTyped !! js "serverSettings" =
     localStorage mounted !! js "serverSettings") ∧
  (serverSettings (ui settingsSaved) = tempSettings (ui settingsEdited) ∧
   tempSettings (ui settingsSaved) = tempSettings (ui settingsEdited) ∧
   isSettingsOpen (ui settingsSaved) = false).
Proof.
  split.
  - refine (proj1 (settings_change_only_on_save (HostChange (js "example.com"))
                     mounted hostTyped _) _); [evaluate|discriminate].
  - refine (proj2 (settings_change_only_on_save SaveSettings
                     settingsEdited settingsSaved _) _); evaluate.
Defined.

Lemma model_change_carries_over_witness :
  ∃ w1 w1' req ups,
    step (ModelChange (js "mistral")) twoChatsTyped = Some w1 ∧
    model (currentConversation (ui w1)) = js "mistral" ∧
    step (InputChange (js "bonjour")) w1 = Some w1' ∧
    handleSendMessage_begin (ui w1') 2000 = Some (req, ups) ∧
    body req = Some (JSON_stringify (singleMessageBody (js "mistral") (js "bonjour"))).
Proof.
  destruct (model_change_carries_over twoChatsTyped (js "mistral") (js "0.zz81k") 7000)
    as (w1 & w2 & Hstep & Hcur & _ & _ & Hnext & _).
  destruct (Hnext (js "bonjour") 2000%Z) as (w1' & req & ups & Hinput & Hbegin & Hbody);
    [evaluate | evaluate |].
  exists w1, w1', req, ups.
  split_and!; [exact Hstep | by rewrite Hcur | exact Hinput | exact Hbegin | exact Hbody].
Defined.


Lemma reply_reactivates_sender_witness :
  id (currentConversation (ui afterMeanwhile)) = js "m3anwh1le" ∧
  (∃ w', Pending.sendInterleaved 2000 meanwhile Rejected 3000 twoChatsTyped = Some w' ∧
     currentConversation (ui w') =
       {| id := js "9x1cb05f3k"; title := js "New Conversation";
          messages :=
            [{| role := user; content := js "hi" |};
             {| role := assistant;
                content := js "Sorry, there was an error processing your request." |}];
          model := js "llama"; timestamp := 3000 |} ∧
     length (conversations (ui w')) = 3%nat ∧
     conversations (ui w') !! 1%nat = Some (currentConversation (ui w')) ∧
     isLoading (ui w') = false) ∧
  (∃ w', Pending.sendInterleaved 2000 meanwhile (Resolved (reply (js "hello"))) 3000
           twoChatsTyped = Some w' ∧
     currentConversation (ui w') =
       {| id := js "9x1cb05f3k"; title := js "hi"; messages := [];
          model := js "llama"; timestamp := 1600 |}).
Proof.
  split; [evaluate|]. split.
  - destruct (reply_reactivates_sender twoChatsTyped afterMeanwhile 2000 3000 meanwhile
                Rejected pendingRequest pendingQueue
                (js "Sorry, there was an error processing your request."))
      as (w' & Hsend & Hcur & Hlen & Hlist & Hloading); [evaluate..|].
    exists w'. split_and!; [exact Hsend | exact Hcur | exact Hlen | | exact Hloading].
    rewrite (Hlist 1%nat (currentConversation (ui (commit pendingQueue twoChatsTyped))));
      evaluate.
  - destruct (reply_reactivates_sender twoChatsTyped afterMeanwhile 2000 3000 meanwhile
                (Resolved (reply (js "hello"))) pendingRequest pendingQueue (js "hello"))
      as (w' & Hsend & Hcur & _); [evaluate..|].
    exists w'. split; [exact Hsend | exact Hcur].
Defined.

Lemma deriveTitle_bounds_witness :
  deriveTitle (js "hi") = js "hi" ∧
  length (deriveTitle longMessage) = 33%nat.
Proof.
  split.
  - apply (proj1 (proj2 (proj2 (deriveTitle_bounds (js "hi"))))). vm_compute. lia.
  - apply (proj2 (proj2 (proj2 (deriveTitle_bounds longMessage)))). vm_compute. lia.
Defined.

Lemma generateId_bounds_witness :
  generateId (js "0") = [] ∧ (length (js "0.k3j9x2m1p") ≤ 2 → False)%nat.
Proof.
  split.
  - apply (proj2 (proj2 (generateId_bounds (js "0")))). vm_compute. lia.
  - intros Hl. vm_compute in Hl. lia.
Defined.

Lemma one_conversation_selected_witness :
  ∃ k, (k < length (conversations (ui twoChats)))%nat ∧
    View.selected (ui twoChats) =
    replicate k false ++
    true :: replicate (length (conversations (ui twoChats)) - S k) false.
Proof.
  apply (one_conversation_selected (ui twoChats)); evaluate.
Defined.

Lemma submit_enabled_iff_send_proceeds_witness :
  (isLoading (ui twoChatsTyped) = false ∧
   is_Some (handleSendMessage_begin (ui twoChatsTyped) 2000)) ∧
  View.submitDisabled (ui mounted) = true.
Proof.
  destruct (submit_enabled_iff_send_proceeds (ui twoChatsTyped)
              ChatInterface.initialState 2000) as (Hiff & _).
  destruct (submit_enabled_iff_send_proceeds (ui mounted)
              ChatInterface.initialState 2000) as (_ & Hinput & _).
  split; [apply Hiff | apply Hinput]; evaluate.
Defined.

Lemma pending_keeps_exchanges_witness :
  Interleaving.exchanged (Interleaving.idle titled) ∧
  Interleaving.awaiting afterInterrupted = [] ∧
  allPaired (ui (Interleaving.component afterInterrupted)) = true ∧
  length (messages (currentConversation (ui (Interleaving.component afterInterrupted))))
    = 4%nat.
Proof.
  assert (Interleaving.exchanged (Interleaving.idle titled)) as He
    by (split; evaluate).
  split; [exact He|].
  destruct (pending_keeps_exchanges interrupted (Interleaving.idle titled)
              afterInterrupted He) as (_ & _ & Hidle & _); [evaluate|].
  split; [evaluate|]. split; [apply Hidle|]; evaluate.
Defined.

(** While the request is pending, the conversation ends with the user's
    message, in the list as well as in the storage. *)
Lemma pending_message_is_stored :
  Interleaving.perform [Interleaving.Submit 4000] (Interleaving.idle titled)
    = Some waiting ∧
  length (Interleaving.awaiting waiting) = 1%nat ∧
  allPaired (ui (Interleaving.component waiting)) = false ∧
  last (messages (currentConversation (ui (Interleaving.component waiting)))) =
    Some {| role := user;
            content := js "and what is the capital of the country next to it?" |} ∧
  localStorage (Interleaving.component waiting) !! js "conversations" =
    Some (JSON_stringify
            (JArr [encodeConversation
                     (currentConversation (ui (Interleaving.component waiting)))])).
Proof.
  split_and!; evaluate.
Qed.

Lemma minimal_history_only_grows_witness :
  ChatInterface.messages ChatInterface.initialState
    `prefix_of` ChatInterface.messages (MinimalInterleaving.component afterMinimalBusy) ∧
  MinimalInterleaving.awaiting afterMinimalBusy = 0%nat ∧
  paired (ChatInterface.messages (MinimalInterleaving.component afterMinimalBusy)) = true ∧
  ChatInterface.messages (MinimalInterleaving.component afterMinimalBusy) =
    [{| role := user; content := js "hi" |};
     {| role := assistant; content := js "hello" |}] ∧
  ChatInterface.messages (MinimalInterleaving.component minimalWaiting) =
    [{| role := user; content := js "hi" |}].
Proof.
  destruct (minimal_history_only_grows minimalBusy
              (MinimalInterleaving.idle ChatInterface.initialState) afterMinimalBusy)
    as [Hprefix Hexchanged]; [evaluate|].
  destruct Hexchanged as (_ & _ & Hpaired & _); [left; split_and!; evaluate|].
  split; [exact Hprefix|]. split; [evaluate|]. split; [apply Hpaired|]; evaluate.
Defined.

Lemma minimal_session_witness :
  ∃ st',
    MinimalRun.run
      [MinimalRun.ModelsFetched (Resolved (modelList [js "llama"; js "mistral"]));
       MinimalRun.ModelSelect (js "llama"); MinimalRun.InputChange (js "hi");
       MinimalRun.Send (Resolved (reply (js "hello")))]
      ChatInterface.initialState = Some st' ∧
    ChatInterface.models st' = [js "llama"; js "mistral"] ∧
    ChatInterface.selectedModel st' = js "llama" ∧
    ChatInterface.messages st' =
      ChatInterface.messages ChatInterface.initialState ++
      [{| role := user; content := js "hi" |};
       {| role := assistant; content := js "hello" |}] ∧
    ChatInterface.input st' = [] ∧
    ChatInterface.isLoading st' = false.
Proof.
  apply (minimal_session ChatInterface.initialState [js "llama"; js "mistral"]
           (js "llama") (js "hi") (js "hello") (Resolved (reply (js "hello"))));
    evaluate.
Defined.

Lemma send_appends_exchange_witness :
  (∃ w', step (Send 2000 Rejected 3000) twoChatsTyped = Some w' ∧
     messages (currentConversation (ui w')) =
       messages (currentConversation (ui twoChatsTyped)) ++
       [{| role := user; content := input (ui twoChatsTyped) |};
        {| role := assistant;
           content := js "Sorry, there was an error processing your request." |}] ∧
     timestamp (currentConversation (ui w')) = 3000%Z ∧
     title (currentConversation (ui w')) = title (currentConversation (ui twoChatsTyped))) ∧
  (∃ w', step (Send 4000 (Resolved (reply (js "Spain."))) 5000) titled = Some w' ∧
     messages (currentConversation (ui w')) =
       messages (currentConversation (ui titled)) ++
       [{| role := user; content := input (ui titled) |};
        {| role := assistant; content := js "Spain." |}] ∧
     timestamp (currentConversation (ui w')) = 5000%Z ∧
     title (currentConversation (ui w')) = title (currentConversation (ui titled))).
Proof.
  split.
  - apply (send_appends_exchange twoChatsTyped 2000 3000 Rejected
             (js "Sorry, there was an error processing your request.")); evaluate.
  - apply (send_appends_exchange titled 4000 5000 (Resolved (reply (js "Spain.")))
             (js "Spain.")); [evaluate | evaluate |].
    split; [evaluate | left; evaluate].
Defined.


End FurtherRuns.
